(** * Multi-format intake system: classifier, extraction pipeline, TTL cache

    A shallow embedding of [src/classifier.py], [src/data_extractor.py] and
    [src/memory_manager.py], followed by the properties their specification
    states about them.

    Conventions of the embedding.
    - A Python [str] is a [string]: the bytes of its UTF-8 encoding.
      [str.lower], [\d], [\w], [\s] and [str.split] act on the ASCII range;
      bytes above 127 are left alone and are neither digits, word characters
      nor white space.  All keyword tables of the program are ASCII.
    - A Python [float] is a binary64 [float] with the IEEE operations of
      [PrimFloat]; [round(x, 2)] is [py_round2].
    - A Python exception is [Raise msg], [msg] being [str(e)];
      [try: ... except Exception as e: ...] is [try_except].
    - What the program obtains from the operating system and from libraries
      (file reads, [json.load], [email.parser], [PyPDF2], clocks) is a field
      of the record [World] or an argument of the operation. *)

From Stdlib Require Import ZArith String Ascii List Bool Lia Floats Uint63.
From stdpp Require Import gmap strings list fin_maps sorting.
Import ListNotations.
Set Warnings "-inexact-float,-register-all".
Local Open Scope string_scope.

(** ** Exceptions *)

Inductive outcome (A : Type) : Type :=
| Ok (a : A)
| Raise (msg : string).
Arguments Ok {A} a.
Arguments Raise {A} msg.

Definition obind {A B} (c : outcome A) (k : A -> outcome B) : outcome B :=
  match c with
  | Ok a => k a
  | Raise msg => Raise msg
  end.

#[global] Instance outcome_bind : MBind outcome := fun A B k c => obind c k.
#[global] Instance outcome_ret : MRet outcome := @Ok.

(** [try: body  except Exception as e: handler(str(e))] *)
Definition try_except {A} (body : outcome A) (handler : string -> outcome A)
  : outcome A :=
  match body with
  | Ok a => Ok a
  | Raise msg => handler msg
  end.

(** ** Strings *)

Definition lower_char (c : ascii) : ascii :=
  let n := N_of_ascii c in
  if ((65 <=? n) && (n <=? 90))%N then ascii_of_N (n + 32) else c.

(** [s.lower()] *)
Fixpoint lower (s : string) : string :=
  match s with
  | EmptyString => EmptyString
  | String c s' => String (lower_char c) (lower s')
  end.

(** [s.startswith(p)] *)
Fixpoint startswith (p s : string) : bool :=
  match p, s with
  | EmptyString, _ => true
  | String _ _, EmptyString => false
  | String a p', String b s' => Ascii.eqb a b && startswith p' s'
  end.

(** [kw in text] on strings: [kw] occurs as a substring of [text]. *)
Fixpoint contains (kw text : string) : bool :=
  startswith kw text ||
  match text with
  | EmptyString => false
  | String _ text' => contains kw text'
  end.

(** [any(kw in text for kw in kws)] *)
Definition any_in (kws : list string) (text : string) : bool :=
  existsb (fun kw => contains kw text) kws.

(** [sum(1 for kw in kws if kw in text)] *)
Definition count_in (kws : list string) (text : string) : nat :=
  length (List.filter (fun kw => contains kw text) kws).

(** [sep.join(parts)] *)
Fixpoint join (sep : string) (parts : list string) : string :=
  match parts with
  | [] => ""
  | [p] => p
  | p :: rest => p +:+ sep +:+ join sep rest
  end.

Definition is_space (c : ascii) : bool :=
  let n := N_of_ascii c in
  (((9 <=? n) && (n <=? 13)) || ((28 <=? n) && (n <=? 32)))%N.

(** [len(s.split())]: the number of maximal runs of non-space characters.
    [in_word] tells whether the previous character belonged to a word. *)
Fixpoint count_words (in_word : bool) (s : string) : nat :=
  match s with
  | EmptyString => 0
  | String c s' =>
      if is_space c then count_words false s'
      else if in_word then count_words true s'
      else S (count_words true s')
  end.

(** [s.rfind(c)]: the index of the last occurrence of [c], if any. *)
Fixpoint rfind (c : ascii) (s : string) : option nat :=
  match s with
  | EmptyString => None
  | String a s' =>
      match rfind c s' with
      | Some i => Some (S i)
      | None => if Ascii.eqb a c then Some 0 else None
      end
  end.

Fixpoint all_dots (s : string) : bool :=
  match s with
  | EmptyString => true
  | String c s' => Ascii.eqb c "." && all_dots s'
  end.

(** [os.path.splitext(p)[1]] (posixpath): the extension starts at the last
    dot, provided that dot comes after the last slash and some character
    between the two is not a dot (leading dots of the file name are
    skipped); otherwise it is empty. *)
Definition splitext_ext (p : string) : string :=
  let filename_index :=
    match rfind "/" p with Some i => S i | None => 0 end in
  match rfind "." p with
  | Some dot_index =>
      if (filename_index <=? dot_index)%nat then
        if all_dots (substring filename_index (dot_index - filename_index) p)
        then ""
        else substring dot_index (String.length p - dot_index) p
      else ""
  | None => ""
  end.

(** ** Floats *)

Definition float_of_nat (n : nat) : float :=
  PrimFloat.of_uint63 (Uint63.of_Z (Z.of_nat n)).

(** [a / b] on two ints (true division), for operands below 2^53. *)
Definition truediv (a b : nat) : float :=
  (float_of_nat a / float_of_nat b)%float.

(** [min(a, b)]: the first argument unless the second is smaller. *)
Definition py_min (a b : float) : float :=
  if (b <? a)%float then b else a.

(** Nearest integer to [n / d], halves to the even neighbour. *)
Definition div_half_even (n d : Z) : Z :=
  let q := (n / d)%Z in
  let r := (n mod d)%Z in
  match (2 * r ?= d)%Z with
  | Lt => q
  | Gt => (q + 1)%Z
  | Eq => if Z.even q then q else (q + 1)%Z
  end.

(** [round(x, 2)]: the exact value of [x] is rounded to a multiple of 1/100
    (halves to even) and that decimal is read back as the nearest float,
    here by one correctly rounded division, which is exact enough for
    [|x| < 2^46].  Zeros, infinities, NaN and integral values are returned
    as they are. *)
Definition py_round2 (x : float) : float :=
  match Prim2SF x with
  | S754_finite s m e =>
      if (0 <=? e)%Z then x
      else
        let k := div_half_even (Z.pos m * 100) (2 ^ (- e)) in
        let r := (PrimFloat.of_uint63 (Uint63.of_Z k) / 100)%float in
        if s then (- r)%float else r
  | _ => x
  end.

(** ** Python values *)

(** The values that flow through the program: what [json.load] returns and
    what the pipeline builds ([None], booleans, integers, floats, strings,
    lists, dictionaries with string keys); what a caller of the cache may
    pass besides: tuples, which [json.dumps] writes as arrays, and
    [PObject] for any object that [json.dumps] rejects (a set, bytes, a
    datetime, ...).  A [PDict] lists its items in insertion order, with
    distinct keys; dictionaries with a key that is not a string are not
    represented. *)
Inductive pyval : Type :=
| PNone
| PBool (b : bool)
| PInt (z : Z)
| PFloat (f : float)
| PStr (s : string)
| PList (l : list pyval)
| PDict (d : list (string * pyval))
| PObject (type_name : string)
| PTuple (l : list pyval).

(** A JSON document. *)
Inductive json : Type :=
| JNull
| JBool (b : bool)
| JInt (z : Z)
| JFloat (f : float)
| JStr (s : string)
| JArr (l : list json)
| JObj (d : list (string * json)).

Definition sequence {A} (l : list (outcome A)) : outcome (list A) :=
  fold_right (fun c acc => x ← c; xs ← acc; Ok (x :: xs)) (Ok []) l.

(** [json.dumps(v)] as the document it writes: a tuple is written like a
    list; raises on the first object that is not serializable. *)
Fixpoint json_dumps (v : pyval) : outcome json :=
  match v with
  | PNone => Ok JNull
  | PBool b => Ok (JBool b)
  | PInt z => Ok (JInt z)
  | PFloat f => Ok (JFloat f)
  | PStr s => Ok (JStr s)
  | PList l => l' ← sequence (map json_dumps l); Ok (JArr l')
  | PDict d =>
      d' ← sequence (map (fun kv => j ← json_dumps (snd kv); Ok (fst kv, j)) d);
      Ok (JObj d')
  | PObject t =>
      Raise ("Object of type " +:+ t +:+ " is not JSON serializable")
  | PTuple l => l' ← sequence (map json_dumps l); Ok (JArr l')
  end.

(** [json.loads(text)] on the text of a document. *)
Fixpoint json_loads (j : json) : pyval :=
  match j with
  | JNull => PNone
  | JBool b => PBool b
  | JInt z => PInt z
  | JFloat f => PFloat f
  | JStr s => PStr s
  | JArr l => PList (map json_loads l)
  | JObj d => PDict (map (fun kv => (fst kv, json_loads (snd kv))) d)
  end.

(** [d.get(key, default)] on an insertion-ordered dictionary. *)
Fixpoint dict_get {V} (d : list (string * V)) (key : string) (default : V) : V :=
  match d with
  | [] => default
  | (k, v) :: d' => if String.eqb k key then v else dict_get d' key default
  end.

(** [key in d] *)
Definition dict_mem {V} (d : list (string * V)) (key : string) : bool :=
  existsb (fun kv => String.eqb (fst kv) key) d.

(** [d[key]] as an option: [None] when the key is absent. *)
Fixpoint dict_lookup {V} (d : list (string * V)) (key : string) : option V :=
  match d with
  | [] => None
  | (k, v) :: d' => if String.eqb k key then Some v else dict_lookup d' key
  end.

(** [d[key] = v]: an existing key keeps its position, a new one goes last. *)
Fixpoint dict_set {V} (d : list (string * V)) (key : string) (v : V)
  : list (string * V) :=
  match d with
  | [] => [(key, v)]
  | (k, w) :: d' =>
      if String.eqb k key then (k, v) :: d' else (k, w) :: dict_set d' key v
  end.

(** Field access on a result record. *)
Definition field (r : pyval) (key : string) : option pyval :=
  match r with
  | PDict d => dict_lookup d key
  | _ => None
  end.

(** ** Regular expressions

    The fragment of Python's [re] that the program uses, with the matching
    order of a backtracking engine: alternatives left to right, repetitions
    greedy.  A text is the sequence of the bytes of its UTF-8 encoding, and
    the classes [\d], [\s] and [\b] are those of the ASCII characters: on
    a text of ASCII characters they are Python's; on other texts Python
    also takes the digits, spaces and letters of other scripts, which are
    not described here. *)

Inductive regex : Type :=
| Eps
| Chr (p : ascii -> bool)
| Cat (r1 r2 : regex)
| Alt (r1 r2 : regex)
| Star (r : regex)
| WordB.

Definition Lit (c : ascii) : regex := Chr (Ascii.eqb c).
Definition Seq (rs : list regex) : regex := fold_right Cat Eps rs.
Definition Plus (r : regex) : regex := Cat r (Star r).
Definition Opt (r : regex) : regex := Alt r Eps.

(** [r{n}] *)
Fixpoint Rep (n : nat) (r : regex) : regex :=
  match n with
  | O => Eps
  | S n' => Cat r (Rep n' r)
  end.

(** [r{0,n}] *)
Fixpoint UpTo (n : nat) (r : regex) : regex :=
  match n with
  | O => Eps
  | S n' => Opt (Cat r (UpTo n' r))
  end.

(** [r{m,n}] for [m <= n] *)
Definition RepRange (m n : nat) (r : regex) : regex :=
  Cat (Rep m r) (UpTo (n - m) r).

(** [r{m,}] *)
Definition AtLeast (m : nat) (r : regex) : regex := Cat (Rep m r) (Star r).

Definition in_range (lo hi : N) (c : ascii) : bool :=
  let n := N_of_ascii c in ((lo <=? n) && (n <=? hi))%N.

Definition is_digit : ascii -> bool := in_range 48 57.
Definition is_upper : ascii -> bool := in_range 65 90.
Definition is_lower : ascii -> bool := in_range 97 122.
Definition is_alnum (c : ascii) : bool := is_digit c || is_upper c || is_lower c.
Definition is_word (c : ascii) : bool := is_alnum c || Ascii.eqb c "_".
Definition one_of (chars : string) (c : ascii) : bool :=
  existsb (Ascii.eqb c) (list_ascii_of_string chars).

Definition word_at (c : option ascii) : bool :=
  match c with
  | Some a => is_word a
  | None => false
  end.

Definition first_char (s : string) : option ascii :=
  match s with
  | EmptyString => None
  | String c _ => Some c
  end.

(** [rmatch r prev s k]: match [r] at the start of [s], [prev] being the
    character before it, then hand the rest to [k]; the first success in
    backtracking order is returned. *)
Fixpoint rmatch (r : regex) (prev : option ascii) (s : string)
    (k : option ascii -> string -> option string) {struct r} : option string :=
  match r with
  | Eps => k prev s
  | Chr p =>
      match s with
      | String c s' => if p c then k (Some c) s' else None
      | EmptyString => None
      end
  | Cat r1 r2 => rmatch r1 prev s (fun prev' s' => rmatch r2 prev' s' k)
  | Alt r1 r2 =>
      match rmatch r1 prev s k with
      | Some rest => Some rest
      | None => rmatch r2 prev s k
      end
  | Star r' =>
      (fix loop (n : nat) (prev : option ascii) (s : string) {struct n}
         : option string :=
         match n with
         | O => k prev s
         | S n' =>
             match rmatch r' prev s
                     (fun prev' s' =>
                        if (String.length s' <? String.length s)%nat
                        then loop n' prev' s' else None) with
             | Some rest => Some rest
             | None => k prev s
             end
         end) (String.length s) prev s
  | WordB => if xorb (word_at prev) (word_at (first_char s)) then k prev s else None
  end.

Definition accept : option ascii -> string -> option string :=
  fun _ rest => Some rest.

Definition accept_shorter (s : string) : option ascii -> string -> option string :=
  fun _ rest =>
    if (String.length rest <? String.length s)%nat then Some rest else None.

Definition matched_text (s rest : string) : string :=
  substring 0 (String.length s - String.length rest) s.

(** [re.findall(r, s)] for a pattern without groups: the matches from left
    to right, without overlap.  [skip] counts the characters of [s] that
    still belong to the previous match.  After an empty match the same
    position is tried again for a non-empty one. *)
Fixpoint findall_from (r : regex) (skip : nat) (prev : option ascii) (s : string)
  : list string :=
  match s with
  | EmptyString =>
      match skip, rmatch r prev "" accept with
      | O, Some _ => [""]
      | _, _ => []
      end
  | String c s' =>
      match skip with
      | S n => findall_from r n (Some c) s'
      | O =>
          match rmatch r prev s accept with
          | None => findall_from r 0 (Some c) s'
          | Some rest =>
              match String.length s - String.length rest with
              | S n => matched_text s rest :: findall_from r n (Some c) s'
              | O =>
                  "" ::
                  match rmatch r prev s (accept_shorter s) with
                  | Some rest' =>
                      matched_text s rest' ::
                      findall_from r (String.length s - String.length rest' - 1)
                        (Some c) s'
                  | None => findall_from r 0 (Some c) s'
                  end
              end
          end
      end
  end.

Definition findall (r : regex) (s : string) : list string :=
  findall_from r 0 None s.

(** ** The outside world *)

Record part : Type := {
  part_content_type : string;
  (** [part.get_payload(decode=True).decode('utf-8', errors='ignore')] *)
  part_payload_decoded : outcome string
}.

(** What [Parser(policy=default).parsestr] returns.  With this policy the
    value of a header is parsed when the header is read, and reading it can
    raise. *)
Record message : Type := {
  (** [msg.get(name)], when the read returns *)
  msg_get : string -> option string;
  (** the exception that [msg.get(name)] raises, if it raises *)
  msg_get_error : string -> option string;
  msg_is_multipart : bool;
  (** [msg.walk()] *)
  msg_walk : list part;
  (** [str(msg.get_payload())] *)
  msg_payload_str : string;
  (** [msg.get_payload(decode=True).decode('utf-8', errors='ignore')] *)
  msg_payload_decoded : outcome string
}.

Record World : Type := {
  (** [open(path, 'r', encoding='utf-8', errors='ignore')] then [read()] *)
  read_text : string -> outcome string;
  (** [open(path, 'r', encoding='utf-8')] then [json.load(file)] *)
  load_json : string -> outcome pyval;
  (** [json.dumps(data, indent=2)] on what [json.load] returned *)
  dumps_indent2 : pyval -> string;
  (** [os.path.getsize(path)] *)
  getsize : string -> outcome Z;
  (** [Parser(policy=default).parsestr(content)] *)
  parsestr : string -> outcome message;
  (** [open(path, 'rb')], [PyPDF2.PdfReader(file)] and [extract_text()] of
      every page *)
  read_pdf : string -> outcome (list string)
}.

(** ** classifier.py *)

Module ClassifierAgent.

Definition format_mappings : list (string * string) :=
  [ (".pdf", "PDF"); (".json", "JSON"); (".txt", "Email"); (".eml", "Email") ].

Definition intent_keywords : list (string * list string) :=
  [ ("Invoice", ["invoice"; "bill"; "payment"; "amount due"; "billing"]);
    ("RFQ", ["rfq"; "quote"; "quotation"; "pricing"; "request for quote"]);
    ("Complaint", ["complaint"; "issue"; "problem"; "dissatisfied"; "error"]);
    ("Regulation", ["regulation"; "compliance"; "policy"; "guideline"; "standard"]);
    ("Contract", ["contract"; "agreement"; "terms"; "conditions"]);
    ("Report", ["report"; "analysis"; "summary"; "findings"]) ].

Definition _read_file_content (w : World) (file_path : string) : outcome string :=
  try_except
    (let file_extension := lower (splitext_ext file_path) in
     if String.eqb file_extension ".json" then
       data ← load_json w file_path;
       Ok (dumps_indent2 w data)
     else
       read_text w file_path)
    (fun e => Ok ("Error reading file: " +:+ e)).

(** The loop of [_classify_intent]: one pass over the keyword table,
    recording the categories with a positive score in table order. *)
Definition score_intents (table : list (string * list string))
    (content_lower : string) : list (string * nat) :=
  fold_left
    (fun intent_scores entry =>
       let score := count_in (snd entry) content_lower in
       if (0 <? score)%nat then dict_set intent_scores (fst entry) score
       else intent_scores)
    table [].

(** [max(first :: rest, key=key)]: the first of the maximal elements. *)
Definition max_by {A} (key : A -> nat) (first : A) (rest : list A) : A :=
  fold_left (fun best x => if (key best <? key x)%nat then x else best)
    rest first.

Definition classify_intent_with (table : list (string * list string))
    (content : string) : string :=
  let content_lower := lower content in
  let intent_scores := score_intents table content_lower in
  match map fst intent_scores with
  | first :: rest => max_by (fun k => dict_get intent_scores k 0%nat) first rest
  | [] => "General"
  end.

Definition _classify_intent (content : string) : string :=
  classify_intent_with intent_keywords content.

Definition _classify_urgency (content : string) : string :=
  let content_lower := lower content in
  let high_urgency_keywords :=
    ["urgent"; "asap"; "immediate"; "emergency"; "critical"] in
  let medium_urgency_keywords := ["soon"; "priority"; "important"; "timely"] in
  if any_in high_urgency_keywords content_lower then "High"
  else if any_in medium_urgency_keywords content_lower then "Medium"
  else "Low".

Definition _calculate_confidence (content intent : string) : float :=
  if String.eqb intent "General" then 0.3%float
  else
    let content_lower := lower content in
    let keywords := dict_get intent_keywords intent [] in
    match keywords with
    | [] => 0.5%float
    | _ =>
        let matches := count_in keywords content_lower in
        let confidence :=
          py_min (truediv matches (length keywords) + 0.3)%float 1.0%float in
        py_round2 confidence
    end.

Definition _generate_processing_notes (format_type intent : string) : string :=
  let notes : list string := [] in
  let notes :=
    if String.eqb format_type "PDF" then
      (notes ++ ["PDF document detected - text extraction required"])%list
    else if String.eqb format_type "JSON" then
      (notes ++ ["JSON data detected - structure validation recommended"])%list
    else if String.eqb format_type "Email" then
      (notes ++
       ["Email content detected - sender and metadata extraction needed"])%list
    else notes in
  let notes :=
    if String.eqb intent "Invoice" then
      (notes ++ ["Invoice processing - extract amounts and dates"])%list
    else if String.eqb intent "RFQ" then
      (notes ++
       ["RFQ processing - identify requirements and pricing requests"])%list
    else if String.eqb intent "Complaint" then
      (notes ++ ["Complaint processing - prioritize for customer service"])%list
    else notes in
  join "; " notes.

Definition classify (w : World) (file_path input_type : string) : outcome pyval :=
  try_except
    (let file_extension := lower (splitext_ext file_path) in
     let format_type := dict_get format_mappings file_extension "Unknown" in
     content ← _read_file_content w file_path;
     let intent := _classify_intent content in
     let urgency := _classify_urgency content in
     let confidence_score := _calculate_confidence content intent in
     file_size ← getsize w file_path;
     Ok (PDict
           [ ("format", PStr format_type);
             ("intent", PStr intent);
             ("urgency", PStr urgency);
             ("confidence_score", PFloat confidence_score);
             ("file_size", PInt file_size);
             ("processing_notes",
              PStr (_generate_processing_notes format_type intent)) ]))
    (fun e =>
       Ok (PDict
             [ ("format", PStr "Unknown");
               ("intent", PStr "Unknown");
               ("urgency", PStr "Low");
               ("error", PStr ("Classification error: " +:+ e)) ])).

End ClassifierAgent.

(** ** data_extractor.py *)

Module DataExtractor.

Definition supported_formats : list string := ["pdf"; "json"; "txt"; "eml"].

Definition digit : regex := Chr is_digit.

(** [\b\d{3}-\d{3}-\d{4}\b|\b\(\d{3}\)\s?\d{3}-\d{4}\b] *)
Definition phone_pattern : regex :=
  Alt
    (Seq [WordB; Rep 3 digit; Lit "-"; Rep 3 digit; Lit "-"; Rep 4 digit; WordB])
    (Seq [WordB; Lit "("; Rep 3 digit; Lit ")"; Opt (Chr is_space);
          Rep 3 digit; Lit "-"; Rep 4 digit; WordB]).

(** [\b[A-Za-z0-9._%+-]+@[A-Za-z0-9.-]+\.[A-Z|a-z]{2,}\b] *)
Definition email_pattern : regex :=
  Seq [WordB;
       Plus (Chr (fun c => is_alnum c || one_of "._%+-" c));
       Lit "@";
       Plus (Chr (fun c => is_alnum c || one_of ".-" c));
       Lit ".";
       AtLeast 2 (Chr (fun c => is_upper c || is_lower c || Ascii.eqb c "|"));
       WordB].

(** [\$\d+(?:,\d{3})*(?:\.\d{2})?] *)
Definition amount_pattern : regex :=
  Seq [Lit "$"; Plus digit;
       Star (Seq [Lit ","; Rep 3 digit]);
       Opt (Seq [Lit "."; Rep 2 digit])].

(** [\b\d{1,2}[/-]\d{1,2}[/-]\d{2,4}\b] *)
Definition date_pattern : regex :=
  Seq [WordB; RepRange 1 2 digit; Chr (one_of "/-"); RepRange 1 2 digit;
       Chr (one_of "/-"); RepRange 2 4 digit; WordB].

Definition str_list (l : list string) : pyval := PList (map PStr l).

(** [if matches: fields[name] = matches] *)
Definition set_if_found (fields : list (string * pyval)) (name : string)
    (matches : list string) : list (string * pyval) :=
  match matches with
  | [] => fields
  | _ => dict_set fields name (str_list matches)
  end.

Definition _extract_sender_from_text (content : string) : string :=
  let emails := findall email_pattern content in
  match emails with
  | first :: _ => first
  | [] => "Unknown"
  end.

Definition _classify_email_intent (content : string) : string :=
  let content_lower := lower content in
  if any_in ["rfq"; "quote"; "quotation"; "pricing"] content_lower then "RFQ"
  else if any_in ["complaint"; "issue"; "problem"; "dissatisfied"] content_lower
  then "Complaint"
  else if any_in ["invoice"; "bill"; "payment"; "amount due"] content_lower
  then "Invoice"
  else if any_in ["regulation"; "compliance"; "policy"] content_lower
  then "Regulation"
  else "General".

Definition _detect_urgency (content : string) : string :=
  let content_lower := lower content in
  if any_in ["urgent"; "asap"; "immediate"; "emergency"] content_lower then "High"
  else if any_in ["soon"; "priority"; "important"] content_lower then "Medium"
  else "Low".

Definition _extract_email_fields (content : string) : pyval :=
  let fields : list (string * pyval) := [] in
  let phones := findall phone_pattern content in
  let fields := set_if_found fields "phone_numbers" phones in
  let emails := findall email_pattern content in
  let fields := set_if_found fields "email_addresses" emails in
  let amounts := findall amount_pattern content in
  let fields := set_if_found fields "amounts" amounts in
  PDict fields.

Definition _extract_pdf_fields (text : string) : pyval :=
  let fields : list (string * pyval) := [] in
  let dates := findall date_pattern text in
  let fields := set_if_found fields "dates" dates in
  let amounts := findall amount_pattern text in
  let fields := set_if_found fields "amounts" amounts in
  PDict fields.

Definition _classify_pdf_type (text : string) : string :=
  let text_lower := lower text in
  if any_in ["invoice"; "bill"; "amount due"] text_lower then "Invoice"
  else if any_in ["contract"; "agreement"; "terms"] text_lower then "Contract"
  else if any_in ["report"; "analysis"; "summary"] text_lower then "Report"
  else "Document".

Definition _extract_text_fields (content : string) : pyval :=
  _extract_email_fields content.

Definition _analyze_sentiment (content : string) : string :=
  let positive_words :=
    ["good"; "great"; "excellent"; "satisfied"; "happy"; "pleased"] in
  let negative_words :=
    ["bad"; "terrible"; "awful"; "dissatisfied"; "angry"; "frustrated"] in
  let content_lower := lower content in
  let positive_count := count_in positive_words content_lower in
  let negative_count := count_in negative_words content_lower in
  if (negative_count <? positive_count)%nat then "Positive"
  else if (positive_count <? negative_count)%nat then "Negative"
  else "Neutral".

(** The first [text/plain] part of [msg.walk()]; [None] when the loop ends
    without one. *)
Fixpoint first_plain_part (parts : list part) : outcome pyval :=
  match parts with
  | [] => Ok PNone
  | p :: rest =>
      if String.eqb (part_content_type p) "text/plain" then
        s ← part_payload_decoded p; Ok (PStr s)
      else first_plain_part rest
  end.

Definition _extract_email_body (msg : message) : outcome pyval :=
  try_except
    (if msg_is_multipart msg then first_plain_part (msg_walk msg)
     else s ← msg_payload_decoded msg; Ok (PStr s))
    (fun _ => Ok (PStr (msg_payload_str msg))).

(** [msg.get(name, default)] *)
Definition header (msg : message) (name default : string) : outcome string :=
  match msg_get_error msg name with
  | Some e => Raise e
  | None =>
      Ok (match msg_get msg name with
          | Some v => v
          | None => default
          end)
  end.

Definition _format_to_flowbit_schema (data : list (string * pyval)) : pyval :=
  PDict
    [ ("id", dict_get data "id" (PStr "unknown"));
      ("timestamp", dict_get data "timestamp" (PStr "unknown"));
      ("type", dict_get data "type" (PStr "unknown"));
      ("data", PDict data);
      ("processed_at", PStr "2025-01-22T10:00:00Z") ].

Definition is_none (v : pyval) : bool :=
  match v with
  | PNone => true
  | _ => false
  end.

(** [v == ""] *)
Definition is_empty_str (v : pyval) : bool :=
  match v with
  | PStr s => String.eqb s ""
  | _ => false
  end.

Fixpoint check_null (obj : pyval) : bool :=
  match obj with
  | PDict d => existsb (fun kv => is_none (snd kv) || check_null (snd kv)) d
  | PList l => existsb (fun v => is_none v || check_null v) l
  | _ => is_none obj
  end.

Definition _has_null_values (data : list (string * pyval)) : bool :=
  check_null (PDict data).

Fixpoint check_empty (obj : pyval) : bool :=
  match obj with
  | PDict d => existsb (fun kv => is_empty_str (snd kv) || check_empty (snd kv)) d
  | PList l => existsb (fun v => is_empty_str v || check_empty v) l
  | _ => is_empty_str obj
  end.

Definition _has_empty_strings (data : list (string * pyval)) : bool :=
  check_empty (PDict data).

Definition _detect_json_anomalies (data : list (string * pyval)) : list string :=
  let anomalies : list string := [] in
  let anomalies :=
    if _has_null_values data then (anomalies ++ ["Contains null values"])%list
    else anomalies in
  let anomalies :=
    if _has_empty_strings data then (anomalies ++ ["Contains empty strings"])%list
    else anomalies in
  anomalies.

Definition required_fields : list string := ["id"; "timestamp"; "type"].

Definition _detect_missing_fields (data : list (string * pyval)) : list string :=
  List.filter (fun field => negb (dict_mem data field)) required_fields.

(** [sum(1 for v in data.values() if v is not None and v != "")] *)
Definition non_empty_fields (data : list (string * pyval)) : nat :=
  length
    (List.filter
       (fun kv => negb (is_none (snd kv)) && negb (is_empty_str (snd kv))) data).

(** [sum(1 for field in required_fields if field in data)] *)
Definition present_required (data : list (string * pyval)) : nat :=
  length (List.filter (fun field => dict_mem data field) required_fields).

Definition _calculate_data_quality (data : list (string * pyval)) : float :=
  let total_fields := length data in
  if (total_fields =? 0)%nat then 0.0%float
  else
    let quality_score := 0.0%float in
    let quality_score :=
      (quality_score + truediv (non_empty_fields data) total_fields * 0.5)%float in
    let quality_score :=
      (quality_score
       + truediv (present_required data) (length required_fields) * 0.3)%float in
    let quality_score := (quality_score + 0.2)%float in
    py_min quality_score 1.0%float.

Definition type_name (v : pyval) : string :=
  match v with
  | PNone => "NoneType"
  | PBool _ => "bool"
  | PInt _ => "int"
  | PFloat _ => "float"
  | PStr _ => "str"
  | PList _ => "list"
  | PDict _ => "dict"
  | PObject t => t
  | PTuple _ => "tuple"
  end.

Definition error_record (msg : string) : pyval := PDict [("error", PStr msg)].

(** A parsed document that is not an object has no [get]: the first call,
    in [_format_to_flowbit_schema], raises. *)
Definition extract_from_json (w : World) (file_path : string) : outcome pyval :=
  try_except
    (data ← load_json w file_path;
     match data with
     | PDict d =>
         let formatted_data := _format_to_flowbit_schema d in
         Ok (PDict
               [ ("type", PStr "json");
                 ("original_data", data);
                 ("formatted_data", formatted_data);
                 ("anomalies", str_list (_detect_json_anomalies d));
                 ("missing_fields", str_list (_detect_missing_fields d));
                 ("data_quality_score", PFloat (_calculate_data_quality d)) ])
     | _ => Raise ("'" +:+ type_name data +:+ "' object has no attribute 'get'")
     end)
    (fun e => Ok (error_record ("Error extracting from JSON: " +:+ e))).

Definition extract_from_email (w : World) (file_path : string) : outcome pyval :=
  try_except
    (content ← read_text w file_path;
     try_except
       (msg ← parsestr w content;
        sender ← header msg "From" "Unknown";
        subject ← header msg "Subject" "No Subject";
        date ← header msg "Date" "Unknown";
        to ← header msg "To" "Unknown";
        body ← _extract_email_body msg;
        subject_text ← header msg "Subject" "";
        Ok (PDict
              [ ("type", PStr "email");
                ("sender", PStr sender);
                ("subject", PStr subject);
                ("date", PStr date);
                ("to", PStr to);
                ("body", body);
                ("intent",
                 PStr (_classify_email_intent
                         (subject_text +:+ " " +:+ msg_payload_str msg)));
                ("urgency", PStr (_detect_urgency content));
                ("extracted_fields", _extract_email_fields content) ]))
       (fun _ =>
          Ok (PDict
                [ ("type", PStr "email_text");
                  ("content", PStr content);
                  ("sender", PStr (_extract_sender_from_text content));
                  ("intent", PStr (_classify_email_intent content));
                  ("urgency", PStr (_detect_urgency content));
                  ("extracted_fields", _extract_email_fields content) ])))
    (fun e => Ok (error_record ("Error extracting from email: " +:+ e))).

Definition newline : string := String (ascii_of_nat 10) "".

Definition _extract_from_pdf (w : World) (file_path : string) : outcome pyval :=
  try_except
    (pages ← read_pdf w file_path;
     let text := fold_left (fun text page => text +:+ page +:+ newline) pages "" in
     Ok (PDict
           [ ("type", PStr "pdf");
             ("text_content", PStr text);
             ("page_count", PInt (Z.of_nat (length pages)));
             ("extracted_fields", _extract_pdf_fields text);
             ("document_type", PStr (_classify_pdf_type text)) ]))
    (fun e => Ok (error_record ("Error extracting from PDF: " +:+ e))).

Definition _extract_from_json_file (w : World) (file_path : string)
  : outcome pyval :=
  extract_from_json w file_path.

Definition _extract_from_text_file (w : World) (file_path : string)
  : outcome pyval :=
  try_except
    (content ← read_text w file_path;
     Ok (PDict
           [ ("type", PStr "text");
             ("content", PStr content);
             ("word_count", PInt (Z.of_nat (count_words false content)));
             ("extracted_fields", _extract_text_fields content);
             ("sentiment", PStr (_analyze_sentiment content)) ]))
    (fun e => Ok (error_record ("Error extracting from text file: " +:+ e))).

Definition extract_from_file (w : World) (file_path : string) : outcome pyval :=
  try_except
    (let file_extension := lower (splitext_ext file_path) in
     if String.eqb file_extension ".pdf" then _extract_from_pdf w file_path
     else if String.eqb file_extension ".json" then
       _extract_from_json_file w file_path
     else if existsb (String.eqb file_extension) [".txt"; ".eml"] then
       _extract_from_text_file w file_path
     else
       Ok (error_record ("Unsupported file format: " +:+ file_extension)))
    (fun e => Ok (error_record ("Error extracting from file: " +:+ e))).

End DataExtractor.

(** ** memory_manager.py

    The table [memory_store] is a finite map from its primary key to the
    other columns.  A [datetime] is the number of microseconds since
    0001-01-01 00:00:00; the program stores and compares datetimes as ISO
    texts, whose order is the order of these numbers.  [created_at] is
    filled by SQLite's own clock ([CURRENT_TIMESTAMP]), [expires_at] from
    [datetime.now()]; both readings are arguments.  The operations on
    [memory_store] are described for a database that answers: their
    [except] branches, which only a fault of sqlite3 reaches (a locked
    file among them), are left out.  The table [conversation_history] is a
    second finite map, from the message id to the other columns; a refused
    INSERT into it is no fault of sqlite3, and the lock that it leaves on
    the file is described with [store_conversation]. *)

Module MemoryManager.

Record row : Type := {
  data : json;
  created_at : Z;
  expires_at : option Z
}.

Record clock : Type := {
  (** [datetime.now()] *)
  py_now : Z;
  (** [CURRENT_TIMESTAMP] *)
  sql_now : Z
}.

Definition us_per_hour : Z := 3600 * 1000000.

(** [datetime.max], 9999-12-31 23:59:59.999999 *)
Definition datetime_max : Z := 3652059 * 86400 * 1000000 - 1.

(** [now + timedelta(hours=h)]; [OverflowError] outside the datetime range. *)
Definition add_hours (now hours : Z) : outcome Z :=
  let t := (now + hours * us_per_hour)%Z in
  if ((0 <=? t) && (t <=? datetime_max))%Z then Ok t
  else Raise "date value out of range".

(** [expires_at IS NULL OR expires_at > now] *)
Definition live (now : Z) (r : row) : bool :=
  match expires_at r with
  | None => true
  | Some e => (now <? e)%Z
  end.

(** [expires_at IS NOT NULL AND expires_at <= now] *)
Definition expired (now : Z) (r : row) : bool :=
  match expires_at r with
  | None => false
  | Some e => (e <=? now)%Z
  end.

Definition store (db : gmap string row) (clk : clock) (key : string)
    (payload : pyval) (expires_hours : Z) : bool * gmap string row :=
  match
    (expires ← add_hours (py_now clk) expires_hours;
     text ← json_dumps payload;
     Ok (<[key := {| data := text;
                     created_at := sql_now clk;
                     expires_at := Some expires |}]> db))
  with
  | Ok db' => (true, db')
  | Raise _ => (false, db)
  end.

(** [None] is returned for a missing or expired key. *)
Definition get (db : gmap string row) (now : Z) (key : string) : pyval :=
  match db !! key with
  | Some r => if live now r then json_loads (data r) else PNone
  | None => PNone
  end.

Definition newer_first (a b : string * row) : Prop :=
  (created_at (snd b) <= created_at (snd a))%Z.

#[global] Instance newer_first_dec a b : Decision (newer_first a b).
Proof. unfold newer_first. apply _. Defined.

Definition opt_int (o : option Z) : pyval :=
  match o with
  | Some z => PInt z
  | None => PNone
  end.

Definition memory_item (kr : string * row) : pyval :=
  PDict [ ("key", PStr (fst kr));
          ("data", json_loads (data (snd kr)));
          ("created_at", PInt (created_at (snd kr)));
          ("expires_at", opt_int (expires_at (snd kr))) ].

(** The rows selected by [get_all_memory], [ORDER BY created_at DESC]; the
    order of rows created in the same second is not fixed by the program. *)
Definition live_rows (db : gmap string row) (now : Z) : list (string * row) :=
  merge_sort newer_first
    (List.filter (fun kr => live now (snd kr)) (map_to_list db)).

Definition get_all_memory (db : gmap string row) (now : Z) : list pyval :=
  map memory_item (live_rows db now).

(** The count is [cursor.rowcount], the number of rows deleted. *)
Definition cleanup_expired (db : gmap string row) (now : Z)
  : nat * gmap string row :=
  (size (filter (fun kr : string * row => expired now (snd kr) = true) db),
   filter (fun kr : string * row => expired now (snd kr) = false) db).

(** The counts of [get_memory_stats]: all rows, and the rows the sweep
    would delete at [now]. *)
Definition get_memory_stats (db : gmap string row) (now : Z) : pyval :=
  let total_entries := Z.of_nat (size db) in
  let expired_entries :=
    Z.of_nat (size (filter (fun kr : string * row => expired now (snd kr) = true) db)) in
  let active_entries := (total_entries - expired_entries)%Z in
  PDict [ ("total_entries", PInt total_entries);
          ("active_entries", PInt active_entries);
          ("expired_entries", PInt expired_entries);
          ("cleanup_needed", PBool (0 <? expired_entries)%Z) ].

(** *** The conversation log *)

Record message_row : Type := {
  conversation_id : string;
  message_type : string;
  content : string;
  (** the text of [json.dumps(metadata)], or NULL *)
  metadata : option json;
  message_created_at : Z
}.

Record message_clock : Type := {
  (** [str(datetime.now().timestamp())] *)
  stamp : string;
  (** [CURRENT_TIMESTAMP] *)
  message_sql_now : Z
}.

(** [if metadata]: a dictionary that is neither [None] nor empty. *)
Definition truthy (meta : option (list (string * pyval))) : bool :=
  match meta with
  | Some (_ :: _) => true
  | _ => false
  end.

(** [json.dumps(metadata) if metadata else None] *)
Definition metadata_text (meta : option (list (string * pyval)))
  : outcome (option json) :=
  match meta with
  | Some (kv :: d) => text ← json_dumps (PDict (kv :: d)); Ok (Some text)
  | _ => Ok None
  end.

(** A plain [INSERT]: a message id that is already a key of the table
    violates the primary key and the statement raises.  The [except] branch
    does not close the connection: after a refused INSERT the connection
    stays open inside its transaction and keeps the write lock of the
    database file for as long as the interpreter keeps the connection
    alive.  [locked] tells whether such a lock is held when the call is
    made: the INSERT then waits for the timeout and raises.  The third
    component of the result tells whether the call leaves the lock behind.
    [json.dumps(metadata)] is an argument of [execute] and is evaluated
    before the statement runs. *)
Definition store_conversation (locked : bool) (log : gmap string message_row)
    (clk : message_clock) (cid mtype text : string)
    (meta : option (list (string * pyval)))
  : bool * gmap string message_row * bool :=
  let message_id := cid +:+ "_" +:+ stamp clk in
  match metadata_text meta with
  | Raise _ => (false, log, false)
  | Ok column =>
      if locked then
        (* database is locked *)
        (false, log, false)
      else
        match log !! message_id with
        | Some _ =>
            (* UNIQUE constraint failed: conversation_history.id *)
            (false, log, true)
        | None =>
            (true,
             <[message_id := {| conversation_id := cid;
                                message_type := mtype;
                                content := text;
                                metadata := column;
                                message_created_at := message_sql_now clk |}]> log,
             false)
        end
  end.

Definition older_first (a b : string * message_row) : Prop :=
  (message_created_at (snd a) <= message_created_at (snd b))%Z.

#[global] Instance older_first_dec a b : Decision (older_first a b).
Proof. unfold older_first. apply _. Defined.

(** The rows selected by [get_conversation_history],
    [ORDER BY created_at ASC]. *)
Definition conversation_rows (log : gmap string message_row) (cid : string)
  : list (string * message_row) :=
  merge_sort older_first
    (List.filter (fun kr => String.eqb (conversation_id (snd kr)) cid)
       (map_to_list log)).

(** [json.loads(row[2]) if row[2] else None] *)
Definition metadata_value (column : option json) : pyval :=
  match column with
  | Some text => json_loads text
  | None => PNone
  end.

Definition history_item (kr : string * message_row) : pyval :=
  PDict [ ("message_type", PStr (message_type (snd kr)));
          ("content", PStr (content (snd kr)));
          ("metadata", metadata_value (metadata (snd kr)));
          ("created_at", PInt (message_created_at (snd kr))) ].

Definition get_conversation_history (log : gmap string message_row)
    (cid : string) : list pyval :=
  map history_item (conversation_rows log cid).

End MemoryManager.

(** ** main.py

    The upload endpoint.  The upload is written under [uploads/] before
    anything is read: [save_upload path] is the world in which the file is
    there, or the exception of the write.  The file id ([uuid.uuid4()]) and
    the text of [datetime.now().isoformat()] are arguments, like the clock
    readings of the cache.  An [HTTPException] is an exception like any
    other; [http_str status detail] is its [str]. *)

Module Main.

Inductive response : Type :=
| Success (body : pyval)
| HttpError (status : Z) (detail : string).

(** [os.path.basename(p)] (posixpath): what follows the last slash. *)
Definition basename (p : string) : string :=
  match rfind "/" p with
  | Some i => substring (S i) (String.length p - S i) p
  | None => p
  end.

Definition allowed_extensions : list string := [".pdf"; ".json"; ".txt"; ".eml"].

Section endpoints.

Variable http_str : Z -> string -> string.

Definition process_user_input (save_upload : string -> outcome World)
    (db : gmap string MemoryManager.row) (clk : MemoryManager.clock)
    (file_id timestamp filename input_type : string)
  : response * gmap string MemoryManager.row :=
  match
    (let ext := lower (splitext_ext filename) in
     if negb (existsb (String.eqb ext) allowed_extensions) then
       Raise (http_str 400 "Unsupported file type.")
     else
       let safe_filename := basename filename in
       let file_path := "uploads/" +:+ file_id +:+ "_" +:+ safe_filename in
       w ← save_upload file_path;
       classification ← ClassifierAgent.classify w file_path input_type;
       extracted_data ←
         (if String.eqb (lower input_type) "file" then
            DataExtractor.extract_from_file w file_path
          else if String.eqb (lower input_type) "email" then
            DataExtractor.extract_from_email w file_path
          else if String.eqb (lower input_type) "json" then
            DataExtractor.extract_from_json w file_path
          else Raise (http_str 400 "Invalid input type."));
       let stored :=
         MemoryManager.store db clk file_id
           (PDict [ ("filename", PStr safe_filename);
                    ("type", PStr input_type);
                    ("classification", classification);
                    ("timestamp", PStr timestamp);
                    ("file_path", PStr file_path);
                    ("extracted_data", extracted_data) ]) 24 in
       Ok (PDict [ ("success", PBool true);
                   ("file_id", PStr file_id);
                   ("filename", PStr safe_filename);
                   ("classification", classification);
                   ("extracted_data", extracted_data);
                   ("file_path", PStr file_path) ],
           snd stored))
  with
  | Ok (body, db') => (Success body, db')
  | Raise e => (HttpError 500 ("Error: " +:+ e), db)
  end.

End endpoints.

End Main.

(** ** Sample inputs and auxiliary notions *)

Definition sf_nonneg (s : spec_float) : Prop :=
  match s with
  | S754_zero b | S754_infinity b | S754_finite b _ _ => b = false
  | S754_nan => True
  end.

(** Not negative: NaN, or a value whose sign bit is clear. *)
Definition nonneg (x : float) : Prop := sf_nonneg (Prim2SF x).


(** Continuations of [rmatch]: one that hands back the rest it is given,
    and one that accepts whatever it is given. *)
Definition returns_input (k : option ascii -> string -> option string) : Prop :=
  forall p s rest, k p s = Some rest -> rest = s.

Definition always_matches (k : option ascii -> string -> option string) : Prop :=
  forall p s, exists rest, k p s = Some rest.

(** The intent as the specification words it: the score of a category is
    the number of occurrences of its keywords in the lower-cased text, the
    occurrences of each keyword counted on their own; the first category
    with the highest positive score wins, and [General] when there is
    none. *)
Fixpoint occurrences (kw text : string) : nat :=
  (if startswith kw text then 1 else 0) +
  match text with
  | EmptyString => 0
  | String _ text' => occurrences kw text'
  end.

Definition occurrence_score (kws : list string) (text : string) : nat :=
  list_sum (map (fun kw => occurrences kw text) kws).

Definition intent_by_occurrences (content : string) : string :=
  let text := lower content in
  let scores :=
    map (fun entry => (fst entry, occurrence_score (snd entry) text))
      ClassifierAgent.intent_keywords in
  match List.filter (fun score => (0 <? snd score)%nat) scores with
  | first :: rest => fst (ClassifierAgent.max_by snd first rest)
  | [] => "General"
  end.

(** [round(min(matches / total + 0.3, 1.0), 2)] *)
Definition confidence_of (matches total : nat) : float :=
  py_round2 (py_min (truediv matches total + 0.3)%float 1.0%float).

(** An [open] on a path that does not exist. *)
Definition missing_file {A} (path : string) : outcome A :=
  Raise ("[Errno 2] No such file or directory: '" +:+ path +:+ "'").

(** The record of the [except] branch of [classify]. *)
Definition degraded_record (e : string) : pyval :=
  PDict [ ("format", PStr "Unknown");
          ("intent", PStr "Unknown");
          ("urgency", PStr "Low");
          ("error", PStr ("Classification error: " +:+ e)) ].

(** An empty file [uploads/report.json]: it can be opened and its size is
    known, but it is not a JSON document. *)
Definition empty_json_world : World :=
  {| read_text := fun path =>
       if String.eqb path "uploads/report.json" then Ok "" else missing_file path;
     load_json := fun path =>
       if String.eqb path "uploads/report.json"
       then Raise "Expecting value: line 1 column 1 (char 0)"
       else missing_file path;
     dumps_indent2 := fun _ => "";
     getsize := fun path =>
       if String.eqb path "uploads/report.json" then Ok 0%Z else missing_file path;
     parsestr := fun _ => Raise "not an email";
     read_pdf := fun path =>
       if String.eqb path "uploads/report.json" then Raise "Cannot read an empty file"
       else missing_file path |}.

(** The invoice of the scenario. *)
Definition invoice_text : string :=
  "Invoice — amount due $450.00, please pay ASAP".

(** What the email parser makes of that text: no header, the whole text as
    payload of a message that is not multipart. *)
Definition invoice_message : message :=
  {| msg_get := fun _ => None;
     msg_get_error := fun _ => None;
     msg_is_multipart := false;
     msg_walk :=
       [ {| part_content_type := "text/plain";
            part_payload_decoded :=
              Ok "Invoice \u2014 amount due $450.00, please pay ASAP" |} ];
     msg_payload_str := invoice_text;
     msg_payload_decoded :=
       Ok "Invoice \u2014 amount due $450.00, please pay ASAP" |}.

Definition invoice_world : World :=
  {| read_text := fun path =>
       if String.eqb path "invoice.txt" then Ok invoice_text
       else missing_file path;
     load_json := fun path =>
       if String.eqb path "invoice.txt"
       then Raise "Expecting value: line 1 column 1 (char 0)"
       else missing_file path;
     dumps_indent2 := fun _ => "";
     getsize := fun path =>
       if String.eqb path "invoice.txt"
       then Ok (Z.of_nat (String.length invoice_text))
       else missing_file path;
     parsestr := fun content =>
       if String.eqb content invoice_text then Ok invoice_message
       else Raise "no message";
     read_pdf := fun path =>
       if String.eqb path "invoice.txt" then Raise "EOF marker not found"
       else missing_file path |}.

(** A message that the parser accepts and whose Date header raises when it
    is read. *)
Definition unreadable_date_world : World :=
  {| read_text := fun _ => Ok "Date: 1 Jan 99999999999 00:00:00 +0000";
     load_json := fun _ => Raise "Expecting value: line 1 column 1 (char 0)";
     dumps_indent2 := fun _ => "";
     getsize := fun _ => Ok 38%Z;
     parsestr := fun _ =>
       Ok {| msg_get := fun _ => None;
             msg_get_error := fun name =>
               if String.eqb name "Date"
               then Some "signed integer is greater than maximum"
               else None;
             msg_is_multipart := false;
             msg_walk := [];
             msg_payload_str := "";
             msg_payload_decoded := Ok "" |};
     read_pdf := fun _ => Raise "EOF marker not found" |}.

(** A file whose document is a list. *)
Definition list_document_world : World :=
  {| read_text := fun _ => Ok "[1, 2]";
     load_json := fun _ => Ok (PList [PInt 1; PInt 2]);
     dumps_indent2 := fun _ => "[1, 2]";
     getsize := fun _ => Ok 6%Z;
     parsestr := fun _ => Raise "not an email";
     read_pdf := fun _ => Raise "EOF marker not found" |}.

(** None of the four headers that [extract_from_email] reads raises. *)
Definition headers_readable (msg : message) : bool :=
  forallb (fun name => match msg_get_error msg name with
                       | None => true
                       | Some _ => false
                       end)
    ["From"; "Subject"; "Date"; "To"].

(** A text of ASCII characters. *)
Definition ascii_text (s : string) : bool :=
  forallb (fun c => (N_of_ascii c <? 128)%N) (list_ascii_of_string s).

Definition amounts_of (record : pyval) : option pyval :=
  match field record "extracted_fields" with
  | Some fields => field fields "amounts"
  | None => None
  end.

(** The value as [json.loads] reads it back from what [json.dumps] wrote:
    every tuple replaced by the list of its items. *)
Fixpoint as_json (v : pyval) : pyval :=
  match v with
  | PList l => PList (map as_json l)
  | PTuple l => PList (map as_json l)
  | PDict d => PDict (map (fun kv => (fst kv, as_json (snd kv))) d)
  | _ => v
  end.

(** No tuple occurs in the value. *)
Fixpoint tuple_free (v : pyval) : bool :=
  match v with
  | PList l => forallb tuple_free l
  | PDict d => forallb (fun kv => tuple_free (snd kv)) d
  | PTuple _ => false
  | _ => true
  end.

(** JSON data: [None], booleans, numbers, strings, and lists and
    dictionaries of JSON data. *)
Fixpoint json_shaped (v : pyval) : bool :=
  match v with
  | PList l => forallb json_shaped l
  | PDict d => forallb (fun kv => json_shaped (snd kv)) d
  | PObject _ | PTuple _ => false
  | _ => true
  end.

(** [json.dumps] accepts the value. *)
Definition serializable (v : pyval) : Prop := exists j, json_dumps v = Ok j.

(** A world whose [json.load] returns JSON data. *)
Definition json_world (w : World) : Prop :=
  forall path d, load_json w path = Ok d -> json_shaped d = true.

(** A field list all of whose entries are non-empty lists of pieces of
    the text. *)
Definition verbatim (content : string) (fields : list (string * pyval)) : Prop :=
  forall name value,
    dict_lookup fields name = Some value ->
    exists matches,
      value = DataExtractor.str_list matches /\ matches <> [] /\
      forall m, In m matches -> contains m content = true.

(** The path under which an upload is saved. *)
Definition upload_path (file_id filename : string) : string :=
  "uploads/" +:+ file_id +:+ "_" +:+ Main.basename filename.

(** The reader that the declared input kind selects. *)
Definition extractor_for (kind : string)
  : option (World -> string -> outcome pyval) :=
  if String.eqb (lower kind) "file" then Some DataExtractor.extract_from_file
  else if String.eqb (lower kind) "email" then Some DataExtractor.extract_from_email
  else if String.eqb (lower kind) "json" then Some DataExtractor.extract_from_json
  else None.

(** What the endpoint caches for an upload, and what it answers. *)
Definition cached_upload (file_id timestamp filename kind : string)
    (classification extracted_data : pyval) : pyval :=
  PDict [ ("filename", PStr (Main.basename filename));
          ("type", PStr kind);
          ("classification", classification);
          ("timestamp", PStr timestamp);
          ("file_path", PStr (upload_path file_id filename));
          ("extracted_data", extracted_data) ].

Definition upload_reply (file_id filename : string)
    (classification extracted_data : pyval) : pyval :=
  PDict [ ("success", PBool true);
          ("file_id", PStr file_id);
          ("filename", PStr (Main.basename filename));
          ("classification", classification);
          ("extracted_data", extracted_data);
          ("file_path", PStr (upload_path file_id filename)) ].

(** A world in which one file, the upload, is there: a text file that is
    neither a JSON document, nor a PDF, nor a message. *)
Definition upload_world (saved content : string) : World :=
  {| read_text := fun path =>
       if String.eqb path saved then Ok content else missing_file path;
     load_json := fun path =>
       if String.eqb path saved
       then Raise "Expecting value: line 1 column 1 (char 0)"
       else missing_file path;
     dumps_indent2 := fun _ => "";
     getsize := fun path =>
       if String.eqb path saved then Ok (Z.of_nat (String.length content))
       else missing_file path;
     parsestr := fun _ => Raise "no message";
     read_pdf := fun path =>
       if String.eqb path saved then Raise "EOF marker not found"
       else missing_file path |}.

(** Writing the upload always works and leaves that world. *)
Definition save_invoice (path : string) : outcome World :=
  Ok (upload_world path invoice_text).

(** [str(HTTPException(status, detail))] as the detail alone. *)
Definition detail_only (status : Z) (detail : string) : string := detail.

Module MemorySamples.
Import MemoryManager.

Definition sample_clock : clock := {| py_now := 1000; sql_now := 7 |}.

Definition sample_payload : pyval :=
  PDict [("filename", PStr "invoice.txt"); ("pages", PList [PInt 1; PNone])].

Definition sample_db : gmap string row :=
  <["file-1" := {| data := JObj [("filename", JStr "invoice.txt");
                                 ("pages", JArr [JInt 1; JNull])];
                   created_at := 7;
                   expires_at := Some (1000 + 24 * us_per_hour)%Z |}]> ∅.

Definition sweep_db : gmap string row :=
  <["old" := {| data := JNull; created_at := 1; expires_at := Some 50%Z |}]>
    (<["new" := {| data := JInt 2; created_at := 2; expires_at := Some 51%Z |}]>
       (<["pinned" := {| data := JInt 3; created_at := 3; expires_at := None |}]> ∅)).

Definition unserializable_payload : pyval :=
  PDict [("filename", PStr "a.txt"); ("tags", PObject "set")].

(** [{"t": (1, 2)}] *)
Definition tuple_payload : pyval :=
  PDict [("t", PTuple [PInt 1; PInt 2])].

Definition sample_message_clock : message_clock :=
  {| stamp := "1737540000.25"; message_sql_now := 7 |}.

Definition sample_log : gmap string message_row :=
  <["chat-2_1737530000.5" := {| conversation_id := "chat-2";
                                  message_type := "user";
                                  content := "hello";
                                  metadata := None;
                                  message_created_at := 5 |}]> ∅.

End MemorySamples.

(** * Properties *)

Ltac unfold_bind := unfold mbind, outcome_bind, obind in *.

(** ** Python values and JSON documents *)

Section pyval_induction.

Variable P : pyval -> Prop.
Hypothesis HNone : P PNone.
Hypothesis HBool : forall b, P (PBool b).
Hypothesis HInt : forall z, P (PInt z).
Hypothesis HFloat : forall f, P (PFloat f).
Hypothesis HStr : forall s, P (PStr s).
Hypothesis HList : forall l, Forall P l -> P (PList l).
Hypothesis HDict : forall d, Forall (fun kv => P (snd kv)) d -> P (PDict d).
Hypothesis HObject : forall t, P (PObject t).
Hypothesis HTuple : forall l, Forall P l -> P (PTuple l).

Lemma pyval_nested_ind : forall v, P v.
Proof.
  fix IH 1. intros [ | b | z | f | s | l | d | t | l ].
  - exact HNone.
  - apply HBool.
  - apply HInt.
  - apply HFloat.
  - apply HStr.
  - apply HList. induction l as [|x xs IHxs]; constructor; [apply IH | exact IHxs].
  - apply HDict. induction d as [|[k x] xs IHxs]; constructor; [apply IH | exact IHxs].
  - apply HObject.
  - apply HTuple. induction l as [|x xs IHxs]; constructor; [apply IH | exact IHxs].
Qed.

End pyval_induction.

Lemma sequence_cons_ok {A} (c : outcome A) (l : list (outcome A)) (r : list A) :
  sequence (c :: l) = Ok r ->
  exists x xs, c = Ok x /\ sequence l = Ok xs /\ r = x :: xs.
Proof.
  unfold sequence; simpl. fold (sequence l). unfold_bind.
  destruct c as [x|]; [|discriminate].
  destruct (sequence l) as [xs|]; [|discriminate].
  intros [= <-]. eauto.
Qed.

Lemma sequence_map_inv {A B C} (f : A -> outcome B) (g : B -> C) (h : A -> C)
    (l : list A) :
  Forall (fun x => forall y, f x = Ok y -> g y = h x) l ->
  forall l', sequence (map f l) = Ok l' -> map g l' = map h l.
Proof.
  induction 1 as [|x xs Hx _ IH]; intros l' Hseq.
  - injection Hseq as <-. reflexivity.
  - simpl in Hseq. apply sequence_cons_ok in Hseq as (y & ys & Hy & Hys & ->).
    simpl. f_equal; auto.
Qed.

(** What [json.dumps] writes, [json.loads] reads back with every tuple
    turned into a list. *)
Lemma json_loads_dumps_as_json (v : pyval) :
  forall j, json_dumps v = Ok j -> json_loads j = as_json v.
Proof.
  induction v as [ | b | z | f | s | l IHl | d IHd | t | l IHl ]
    using pyval_nested_ind;
    simpl; intros j Hj; try (injection Hj as <-; reflexivity); try discriminate.
  - unfold_bind.
    destruct (sequence (map json_dumps l)) as [l'|] eqn:Hl; [|discriminate].
    injection Hj as <-. simpl. f_equal.
    eapply sequence_map_inv; [exact IHl | exact Hl].
  - unfold_bind.
    match type of Hj with context [sequence (map ?f d)] =>
      destruct (sequence (map f d)) as [d'|] eqn:Hd; [|discriminate];
      injection Hj as <-; simpl; f_equal;
      apply (sequence_map_inv f (fun kv => (fst kv, json_loads (snd kv)))
               (fun kv => (fst kv, as_json (snd kv)))) in Hd;
        [exact Hd|]
    end.
    eapply Forall_impl; [exact IHd|]. intros [k x] Hx [k' y]; simpl in *.
    destruct (json_dumps x) as [jx|]; [|discriminate].
    intros [= <- <-]. simpl. f_equal. auto.
  - unfold_bind.
    destruct (sequence (map json_dumps l)) as [l'|] eqn:Hl; [|discriminate].
    injection Hj as <-. simpl. f_equal.
    eapply sequence_map_inv; [exact IHl | exact Hl].
Qed.

Lemma map_fixed_forallb {A} (f : A -> A) (p : A -> bool) (l : list A) :
  Forall (fun x => f x = x <-> p x = true) l ->
  map f l = l <-> forallb p l = true.
Proof.
  induction 1 as [|x l Hx _ IH]; simpl; [done|].
  rewrite andb_true_iff, <- Hx, <- IH. split.
  - by intros [= -> ->].
  - by intros [-> ->].
Qed.

(** The replacement changes nothing exactly when there is no tuple. *)
Lemma as_json_tuple_free (v : pyval) : as_json v = v <-> tuple_free v = true.
Proof.
  induction v as [ | b | z | f | s | l IHl | d IHd | t | l IHl ]
    using pyval_nested_ind; simpl; try done.
  - rewrite <- (map_fixed_forallb as_json tuple_free l IHl).
    split; [by intros [= ->] | by intros ->].
  - rewrite <- (map_fixed_forallb (fun kv => (fst kv, as_json (snd kv)))
                  (fun kv => tuple_free (snd kv)) d).
    + split; [by intros [= ->] | by intros ->].
    + eapply Forall_impl; [exact IHd|]. intros [k x] <-. simpl.
      split; [by intros [= ->] | by intros ->].
Qed.

(** What [json.dumps] writes for a value without tuples, [json.loads]
    reads back unchanged. *)
Lemma json_loads_dumps (v : pyval) :
  tuple_free v = true -> forall j, json_dumps v = Ok j -> json_loads j = v.
Proof.
  intros Hfree j Hj. rewrite (json_loads_dumps_as_json v j Hj).
  by apply as_json_tuple_free.
Qed.

Lemma json_shaped_tuple_free (v : pyval) :
  json_shaped v = true -> tuple_free v = true.
Proof.
  induction v as [ | b | z | f | s | l IHl | d IHd | t | l IHl ]
    using pyval_nested_ind; simpl; try done.
  - rewrite !forallb_forall. intros H x Hx.
    rewrite List.Forall_forall in IHl. auto.
  - rewrite !forallb_forall. intros H x Hx.
    rewrite List.Forall_forall in IHd. auto.
Qed.

(** ** Dictionaries and keyword counts *)

Section dictionaries.

Context {V : Type}.
Implicit Types (d : list (string * V)) (k : string) (v : V).

Lemma dict_set_fresh d k v :
  ~ In k (map fst d) -> dict_set d k v = (d ++ [(k, v)])%list.
Proof.
  induction d as [|[k' w] d IH]; simpl; intros Hfresh; [reflexivity|].
  destruct (String.eqb_spec k' k) as [->|_]; [tauto|].
  rewrite IH; tauto.
Qed.

Lemma dict_get_In d k v default :
  List.NoDup (map fst d) -> In (k, v) d -> dict_get d k default = v.
Proof.
  induction d as [|[k' w] d IH]; simpl; [tauto|].
  intros Hnd [Heq|Hin].
  - injection Heq as -> ->. by rewrite String.eqb_refl.
  - inversion Hnd as [|? ? Hk' Hd]; subst.
    destruct (String.eqb_spec k' k) as [->|_]; [|auto].
    destruct Hk'. apply (in_map fst) in Hin. exact Hin.
Qed.

End dictionaries.

Lemma count_in_le kws text : count_in kws text <= length kws.
Proof. unfold count_in. apply filter_length_le. Qed.

Lemma count_in_pos_nonempty kws text : 0 < count_in kws text -> kws <> [].
Proof. intros H ->. unfold count_in in H; simpl in H. lia. Qed.

Lemma count_in_pos kws text kw :
  In kw kws -> contains kw text = true -> 0 < count_in kws text.
Proof.
  intros Hin Hkw. unfold count_in.
  assert (H : In kw (List.filter (fun kw => contains kw text) kws))
    by (apply filter_In; auto).
  destruct (List.filter _ kws); [destruct H | simpl; lia].
Qed.

Lemma any_in_spec kws text :
  any_in kws text = true <-> exists kw, In kw kws /\ contains kw text = true.
Proof. unfold any_in. apply existsb_exists. Qed.

Lemma startswith_app p a b : startswith p a = true -> startswith p (a +:+ b) = true.
Proof.
  revert a; induction p as [|c p IH]; intros [|c' a]; simpl; try done.
  intros [-> Hp]%andb_prop. simpl; auto.
Qed.

Lemma contains_app_l kw a b : contains kw a = true -> contains kw (a +:+ b) = true.
Proof.
  induction a as [|c a IH]; simpl.
  - rewrite orb_false_r. destruct kw; [|done]. intros _. by destruct b.
  - intros [H|H]%orb_prop; apply orb_true_iff; [left|right; auto].
    change (String c (a +:+ b)) with (String c a +:+ b). by apply startswith_app.
Qed.

Lemma lower_app a b : lower (a +:+ b) = lower a +:+ lower b.
Proof. induction a as [|c a IH]; simpl; [reflexivity | by rewrite IH]. Qed.

Lemma filter_split {A} (f : A -> bool) (l pre post : list A) (x : A) :
  List.filter f l = (pre ++ x :: post)%list ->
  exists before after,
    l = (before ++ x :: after)%list /\
    List.filter f before = pre /\ List.filter f after = post /\ f x = true.
Proof.
  revert pre; induction l as [|a l IH]; intros pre; simpl.
  - by destruct pre.
  - destruct (f a) eqn:Hfa.
    + destruct pre as [|p pre]; simpl; intros [= -> Hrest].
      * exists [], l. auto.
      * destruct (IH _ Hrest) as (before & after & -> & <- & <- & Hx).
        exists (p :: before), after. simpl. rewrite Hfa. auto.
    + intros Hrest. destruct (IH _ Hrest) as (before & after & -> & <- & <- & Hx).
      exists (a :: before), after. simpl. rewrite Hfa. auto.
Qed.

(** ** The classifier *)

Module ClassifierSpec.
Import ClassifierAgent.

(** [max_by] returns the first of the elements with the greatest key. *)
Lemma max_by_first_max {A} (key : A -> nat) (first : A) (rest : list A) :
  exists pre post,
    first :: rest = (pre ++ max_by key first rest :: post)%list /\
    Forall (fun y => key y < key (max_by key first rest)) pre /\
    Forall (fun y => key y <= key (max_by key first rest)) post.
Proof.
  induction rest as [|x rest IH] using rev_ind.
  - exists [], []. simpl. auto.
  - destruct IH as (pre & post & Heq & Hpre & Hpost).
    unfold max_by in *. rewrite fold_left_app; simpl.
    set (m := fold_left _ rest first) in *.
    destruct (Nat.ltb_spec (key m) (key x)) as [Hlt|Hge].
    + exists (first :: rest), []. split; [reflexivity|]. split; [|constructor].
      rewrite Heq. apply Forall_app. split.
      * eapply Forall_impl; [exact Hpre|]. simpl; lia.
      * constructor; [exact Hlt|]. eapply Forall_impl; [exact Hpost|]. simpl; lia.
    + exists pre, (post ++ [x])%list. split; [|split; [exact Hpre|]].
      * rewrite app_comm_cons, Heq, <- app_assoc. reflexivity.
      * apply Forall_app. split; [exact Hpost | by constructor].
Qed.

Section intent_table.

Variable table : list (string * list string).
Hypothesis table_nodup : List.NoDup (map fst table).
Variable text : string.

Let positive (entry : string * list string) : bool :=
  (0 <? count_in (snd entry) text)%nat.
Let scored (entry : string * list string) : string * nat :=
  (fst entry, count_in (snd entry) text).

(** The dictionary built by the loop holds, in table order, the categories
    with a positive count. *)
Lemma score_intents_filter :
  score_intents table text = map scored (List.filter positive table).
Proof.
  unfold score_intents.
  enough (Hgen : forall todo done,
            List.NoDup (map fst (done ++ todo)%list) ->
            fold_left
              (fun intent_scores entry =>
                 let score := count_in (snd entry) text in
                 if (0 <? score)%nat then dict_set intent_scores (fst entry) score
                 else intent_scores)
              todo (map scored (List.filter positive done))
            = map scored (List.filter positive (done ++ todo)%list)).
  { apply (Hgen table []). exact table_nodup. }
  induction todo as [|e todo IH]; intros done Hnd; simpl.
  - by rewrite app_nil_r.
  - replace (done ++ e :: todo)%list with ((done ++ [e]) ++ todo)%list in *
      by (rewrite <- app_assoc; reflexivity).
    rewrite <- (IH (done ++ [e])%list Hnd). f_equal.
    rewrite List.filter_app, map_app; simpl. fold (positive e).
    destruct (positive e); simpl; [|by rewrite app_nil_r].
    apply dict_set_fresh. rewrite map_map; simpl.
    rewrite !map_app in Hnd. apply NoDup_app_remove_r in Hnd.
    apply NoDup_remove_2 in Hnd. rewrite app_nil_r in Hnd.
    intros Hin. apply Hnd. apply in_map_iff in Hin as (e' & <- & He').
    apply filter_In in He' as [He' _]. by apply in_map.
Qed.

(** Either no category has a keyword in the text and the answer is
    [General], or the answer is the first category, in table order, whose
    count is the greatest. *)
Lemma classify_intent_with_spec content :
  text = lower content ->
  (Forall (fun e => count_in (snd e) text = 0) table /\
   classify_intent_with table content = "General") \/
  (exists before intent kws after,
     table = (before ++ (intent, kws) :: after)%list /\
     0 < count_in kws text /\
     Forall (fun e => count_in (snd e) text < count_in kws text) before /\
     Forall (fun e => count_in (snd e) text <= count_in kws text) after /\
     classify_intent_with table content = intent).
Proof.
  intros Htext. unfold classify_intent_with. rewrite <- Htext.
  rewrite score_intents_filter.
  destruct (List.filter positive table) as [|e0 es] eqn:Hfilter.
  - left. split; [|reflexivity]. apply List.Forall_forall. intros e He.
    destruct (count_in (snd e) text) eqn:Hc; [reflexivity|].
    assert (Hin : In e (List.filter positive table)).
    { apply filter_In. split; [exact He|]. unfold positive. by rewrite Hc. }
    rewrite Hfilter in Hin. destruct Hin.
  - right.
    assert (Hne : List.filter positive table <> []) by by rewrite Hfilter.
    rewrite <- Hfilter. clear e0 es Hfilter.
    set (winners := List.filter positive table) in *.
    set (scores := map scored winners).
    assert (Hnd : List.NoDup (map fst scores)).
    { unfold scores, winners. rewrite map_map; simpl.
      change (fun x => fst x) with (@fst string (list string)).
      clear -table_nodup. induction table as [|e l IH]; simpl; [constructor|].
      inversion table_nodup as [|? ? Hfresh Hl]; subst.
      destruct (positive e); simpl; [|auto]. constructor; [|auto].
      intros Hin. apply Hfresh. apply in_map_iff in Hin as (e' & <- & He').
      apply filter_In in He' as [He' _]. by apply in_map. }
    assert (Hkey : forall e, In e winners ->
              dict_get scores (fst e) 0 = count_in (snd e) text).
    { intros e He. apply dict_get_In; [exact Hnd|].
      unfold scores. apply in_map_iff. exists e. auto. }
    assert (Hkeys : map fst scores = map fst winners).
    { unfold scores. rewrite map_map. reflexivity. }
    rewrite Hkeys.
    destruct (map fst winners) as [|first rest] eqn:Hfr.
    { destruct winners; [by destruct Hne | discriminate]. }
    destruct (max_by_first_max (fun k => dict_get scores k 0) first rest)
      as (pre & post & Hsplit & Hpre & Hpost).
    set (m := max_by _ first rest) in *.
    rewrite <- Hfr in Hsplit.
    apply map_eq_app in Hsplit as (wpre & wrest & Hw & Hwpre & Hwrest).
    apply map_eq_cons in Hwrest as ([intent kws] & wpost & -> & Hm & Hwpost).
    simpl in Hm. fold winners in Hw.
    assert (Hin : forall e, In e wpre \/ e = (intent, kws) \/ In e wpost ->
              In e winners).
    { intros e He. rewrite Hw. rewrite in_app_iff; simpl. intuition. }
    assert (Hm' : dict_get scores m 0 = count_in kws text).
    { rewrite <- Hm. apply (Hkey (intent, kws)). auto. }
    rewrite Hm' in Hpre, Hpost.
    destruct (filter_split _ _ _ _ _ Hw) as (before & after & Htable & Hb & Ha & Hpos).
    exists before, intent, kws, after. split; [exact Htable|].
    assert (Hkws : 0 < count_in kws text) by by apply Nat.ltb_lt.
    split; [exact Hkws|]. split; [|split; [|by rewrite <- Hm]].
    + apply List.Forall_forall. intros e He.
      destruct (positive e) eqn:Hpe.
      * assert (Hew : In e wpre) by (rewrite <- Hb; by apply filter_In).
        rewrite <- (Hkey e) by auto.
        rewrite List.Forall_forall in Hpre. apply Hpre.
        rewrite <- Hwpre. by apply in_map.
      * unfold positive in Hpe. apply Nat.ltb_ge in Hpe. lia.
    + apply List.Forall_forall. intros e He.
      destruct (positive e) eqn:Hpe.
      * assert (Hew : In e wpost) by (rewrite <- Ha; by apply filter_In).
        rewrite <- (Hkey e) by auto.
        rewrite List.Forall_forall in Hpost. apply Hpost.
        rewrite <- Hwpost. by apply in_map.
      * unfold positive in Hpe. apply Nat.ltb_ge in Hpe. lia.
Qed.

End intent_table.

Lemma intent_keywords_nodup : List.NoDup (map fst intent_keywords).
Proof.
  simpl. repeat (constructor; [simpl; intuition discriminate|]). constructor.
Qed.

Lemma intent_keywords_cases intent kws :
  In (intent, kws) intent_keywords ->
  intent <> "General" /\ (length kws = 4 \/ length kws = 5).
Proof.
  simpl. intros H.
  repeat (destruct H as [[= <- <-]|H]; [split; [discriminate | simpl; lia]|]).
  destruct H.
Qed.

(** C3, as the code has it.  With the count of a category being the number
    of its keywords that occur in the lower-cased text, each keyword
    counted once however often it occurs, [_classify_intent] answers [General]
    when every count is zero, and otherwise the category whose count is
    positive, greater than the count of every category declared before it
    and at least the count of every category declared after it; the
    categories are declared in the order Invoice, RFQ, Complaint,
    Regulation, Contract, Report. *)
Theorem classify_intent_first_max (content : string) :
  let count := fun kws : list string =>
    length (List.filter (fun kw => contains kw (lower content)) kws) in
  map fst intent_keywords
    = ["Invoice"; "RFQ"; "Complaint"; "Regulation"; "Contract"; "Report"] /\
  ((Forall (fun e => count (snd e) = 0) intent_keywords /\
    _classify_intent content = "General") \/
   (exists before intent kws after,
      intent_keywords = (before ++ (intent, kws) :: after)%list /\
      0 < count kws /\
      Forall (fun e => count (snd e) < count kws) before /\
      Forall (fun e => count (snd e) <= count kws) after /\
      _classify_intent content = intent)).
Proof.
  split; [reflexivity|].
  exact (classify_intent_with_spec intent_keywords intent_keywords_nodup
           (lower content) content eq_refl).
Qed.

(** C3, as stated, fails on a text that repeats a keyword: the code counts
    [invoice] once and answers [Report] for its two keywords, where the
    count of occurrences gives [Invoice]. *)
Lemma classify_intent_counts_keywords_once :
  _classify_intent "invoice invoice invoice report analysis" = "Report" /\
  intent_by_occurrences "invoice invoice invoice report analysis" = "Invoice" /\
  occurrence_score ["invoice"; "bill"; "payment"; "amount due"; "billing"]
    "invoice invoice invoice report analysis" = 3 /\
  count_in ["invoice"; "bill"; "payment"; "amount due"; "billing"]
    "invoice invoice invoice report analysis" = 1.
Proof. repeat split; vm_compute; reflexivity. Qed.

Example classify_intent_tie :
  _classify_intent "Quote and PRICING for the invoice, bill attached" = "Invoice".
Proof. reflexivity. Qed.

Example classify_intent_overlap :
  _classify_intent "billing contract terms" = "Invoice".
Proof. reflexivity. Qed.

Example classify_intent_general : _classify_intent "hello world" = "General".
Proof. reflexivity. Qed.

(** The answer of [_classify_intent] is [General] or a category of the
    table with at least one keyword in the text. *)
Lemma classify_intent_cases content :
  _classify_intent content = "General" \/
  exists kws, In (_classify_intent content, kws) intent_keywords /\
              0 < count_in kws (lower content).
Proof.
  destruct (classify_intent_with_spec intent_keywords intent_keywords_nodup
              (lower content) content eq_refl)
    as [[_ H] | (before & intent & kws & after & Htab & Hpos & _ & _ & H)].
  - by left.
  - right. exists kws. unfold _classify_intent. rewrite H, Htab.
    split; [|exact Hpos]. apply in_elt.
Qed.

Lemma confidence_values n len :
  1 <= n <= len -> len = 4 \/ len = 5 ->
  In (py_round2 (py_min (truediv n len + 0.3)%float 1.0%float))
     [0.5; 0.55; 0.7; 0.8; 0.9; 1.0]%float.
Proof.
  intros Hn [-> | ->].
  - assert (H : n = 1 \/ n = 2 \/ n = 3 \/ n = 4) by lia.
    destruct H as [-> | [-> | [-> | ->]]]; vm_compute; tauto.
  - assert (H : n = 1 \/ n = 2 \/ n = 3 \/ n = 4 \/ n = 5) by lia.
    destruct H as [-> | [-> | [-> | [-> | ->]]]]; vm_compute; tauto.
Qed.

(** C4.  When the intent is [General] the confidence is 0.3.  Otherwise the
    intent is a category of the table and the confidence is
    [round(min(matches / total + 0.3, 1.0), 2)], [matches] being the number
    of the category's keywords that occur in the text and [total] the number
    of its keywords; it is one of 0.5, 0.55, 0.7, 0.8, 0.9 and 1.0. *)
Theorem confidence_formula (content : string) :
  let intent := _classify_intent content in
  let confidence := _calculate_confidence content intent in
  (intent = "General" -> confidence = 0.3%float) /\
  (intent <> "General" ->
     exists kws,
       In (intent, kws) intent_keywords /\
       confidence
         = py_round2
             (py_min (truediv (count_in kws (lower content)) (length kws) + 0.3)%float
                     1.0%float) /\
       In confidence [0.5; 0.55; 0.7; 0.8; 0.9; 1.0]%float).
Proof.
  simpl. split.
  - intros ->. reflexivity.
  - intros Hne. destruct (classify_intent_cases content) as [H | (kws & Hin & Hpos)];
      [contradiction|].
    exists kws. split; [exact Hin|].
    assert (Hconf :
      _calculate_confidence content (_classify_intent content)
      = py_round2
          (py_min (truediv (count_in kws (lower content)) (length kws) + 0.3)%float
                  1.0%float)).
    { unfold _calculate_confidence.
      destruct (String.eqb_spec (_classify_intent content) "General"); [contradiction|].
      rewrite (dict_get_In _ _ kws) by (exact intent_keywords_nodup || exact Hin).
      pose proof (count_in_pos_nonempty _ _ Hpos). by destruct kws. }
    split; [exact Hconf|]. rewrite Hconf.
    apply confidence_values.
    + pose proof (count_in_le kws (lower content)). lia.
    + by destruct (intent_keywords_cases _ _ Hin).
Qed.

Lemma confidence_formula_witness :
  _calculate_confidence "hello world" "General" = 0.3%float /\
  exists kws,
    In ("Invoice", kws) intent_keywords /\
    _calculate_confidence "Invoice, amount due $450.00" "Invoice"
      = py_round2
          (py_min (truediv (count_in kws (lower "Invoice, amount due $450.00"))
                     (length kws) + 0.3)%float 1.0%float) /\
    In (_calculate_confidence "Invoice, amount due $450.00" "Invoice")
       [0.5; 0.55; 0.7; 0.8; 0.9; 1.0]%float.
Proof.
  split.
  - exact (proj1 (confidence_formula "hello world") eq_refl).
  - apply (proj2 (confidence_formula "Invoice, amount due $450.00")).
    vm_compute. discriminate.
Defined.

Example confidence_two_of_five :
  _calculate_confidence "Invoice, amount due $450.00" "Invoice" = 0.7%float.
Proof. reflexivity. Qed.

Example confidence_three_of_five :
  _calculate_confidence "invoice: bill of payment" "Invoice" = 0.9%float.
Proof. reflexivity. Qed.

(** *** Failures inside [classify] *)

Lemma read_file_content_total w file_path :
  exists content, _read_file_content w file_path = Ok content.
Proof.
  unfold _read_file_content, try_except. case_match; eauto.
Qed.

(** [classify] always returns a record. *)
Lemma classify_never_raises w file_path input_type :
  exists record, classify w file_path input_type = Ok record.
Proof. unfold classify, try_except. case_match; eauto. Qed.

(** The degraded record is returned exactly when the size of the file
    cannot be obtained; a failed read does not lead to it. *)
Lemma classify_degraded_iff w file_path input_type e :
  classify w file_path input_type = Ok (degraded_record e) <->
  getsize w file_path = Raise e.
Proof.
  unfold classify, try_except. unfold_bind.
  destruct (read_file_content_total w file_path) as [content ->].
  destruct (getsize w file_path) as [size|e']; split;
    try discriminate; unfold degraded_record.
  - intros [= ->%String.app_inj]. reflexivity.
  - by intros [= ->].
Qed.

(** A failed read becomes the text of the error message. *)
Lemma read_file_content_failure w file_path msg :
  (if String.eqb (lower (splitext_ext file_path)) ".json"
   then load_json w file_path = Raise msg
   else read_text w file_path = Raise msg) ->
  _read_file_content w file_path = Ok ("Error reading file: " +:+ msg).
Proof.
  unfold _read_file_content, try_except. unfold_bind.
  destruct (String.eqb _ ".json"); by intros ->.
Qed.

(** That text always counts for [Complaint], whose keywords include
    [error]: the intent of an unreadable file is a category of the table. *)
Lemma error_text_intent msg :
  exists kws,
    In (_classify_intent ("Error reading file: " +:+ msg), kws) intent_keywords.
Proof.
  destruct (classify_intent_with_spec intent_keywords intent_keywords_nodup
              (lower ("Error reading file: " +:+ msg)) _ eq_refl)
    as [[Hzero _] | (before & intent & kws & after & Htab & _ & _ & _ & H)].
  - exfalso. rewrite List.Forall_forall in Hzero.
    pose (complaint := ["complaint"; "issue"; "problem"; "dissatisfied"; "error"]).
    assert (Hpos : 0 < count_in complaint
                         (lower ("Error reading file: " +:+ msg))).
    { apply (count_in_pos _ _ "error"); [simpl; tauto|].
      rewrite lower_app. by apply contains_app_l. }
    assert (Hin : In ("Complaint", complaint) intent_keywords) by (simpl; tauto).
    apply Hzero in Hin. change (snd ("Complaint", complaint)) with complaint in Hin.
    lia.
  - exists kws. unfold _classify_intent. rewrite H, Htab. apply in_elt.
Qed.

(** So a failed read of a file whose size is known yields a record scored
    like any other: no [error] entry, the format of the extension, an
    intent of the table. *)
Lemma classify_read_failure_scored w file_path input_type msg size :
  _read_file_content w file_path = Ok ("Error reading file: " +:+ msg) ->
  getsize w file_path = Ok size ->
  exists record intent kws,
    classify w file_path input_type = Ok record /\
    field record "error" = None /\
    field record "format"
      = Some (PStr (dict_get format_mappings (lower (splitext_ext file_path))
                      "Unknown")) /\
    field record "intent" = Some (PStr intent) /\
    In (intent, kws) intent_keywords.
Proof.
  intros Hread Hsize. destruct (error_text_intent msg) as [kws Hkws].
  unfold classify, try_except. unfold_bind. rewrite Hread, Hsize.
  eexists _, _, kws. split; [reflexivity|]. simpl. auto.
Qed.

(** C1.  On the empty file [uploads/report.json], where [json.load] raises,
    [classify] returns a record scored on the text of the error message:
    format [JSON], intent [Complaint], confidence 0.5, no [error] entry.
    It is not the degraded record. *)
Theorem classify_malformed_json_scored :
  load_json empty_json_world "uploads/report.json"
    = Raise "Expecting value: line 1 column 1 (char 0)" /\
  classify empty_json_world "uploads/report.json" "json"
    = Ok (PDict
            [ ("format", PStr "JSON");
              ("intent", PStr "Complaint");
              ("urgency", PStr "Low");
              ("confidence_score", PFloat 0.5);
              ("file_size", PInt 0);
              ("processing_notes",
               PStr
                 ("JSON data detected - structure validation recommended; "
                  +:+ "Complaint processing - prioritize for customer service")) ])
  /\
  forall e,
    classify empty_json_world "uploads/report.json" "json" <> Ok (degraded_record e).
Proof.
  split; [reflexivity|]. split; [reflexivity|].
  intros e Hdegraded. apply classify_degraded_iff in Hdegraded.
  discriminate Hdegraded.
Qed.

Example classify_missing_file_degraded :
  classify empty_json_world "uploads/gone.txt" "file"
  = Ok (degraded_record "[Errno 2] No such file or directory: 'uploads/gone.txt'").
Proof. reflexivity. Qed.

End ClassifierSpec.

(** ** The extraction pipeline *)

(** Facts of binary64 arithmetic used below. *)
Section float_facts.

Local Open Scope float_scope.

Lemma binary_round_aux_nonneg prec emax mx ex lx :
  sf_nonneg (binary_round_aux prec emax false mx ex lx).
Proof.
  unfold binary_round_aux.
  destruct (shr_fexp prec emax mx ex lx) as [mrs' e'].
  destruct (shr_fexp prec emax _ e' loc_Exact) as [mrs'' e''].
  destruct (shr_m mrs''); simpl; [done | | done]. by case_match.
Qed.

Lemma of_uint63_nonneg n : nonneg (of_uint63 n).
Proof.
  unfold nonneg. rewrite FloatAxioms.of_uint63_spec.
  pose proof (Uint63.to_Z_bounded n) as [Hn _].
  destruct (Uint63.to_Z n) as [|m|m]; simpl; [done | | lia].
  unfold binary_round. destruct (shl_align _ _ _). apply binary_round_aux_nonneg.
Qed.

Lemma div_nonneg x y : nonneg x -> nonneg y -> nonneg (x / y).
Proof.
  unfold nonneg. rewrite FloatAxioms.div_spec. unfold SF64div, SFdiv.
  destruct (Prim2SF x), (Prim2SF y); simpl; try done; intros -> ->; try done.
  destruct (SFdiv_core_binary _ _ _ _ _ _) as [[mz ez] lz].
  apply binary_round_aux_nonneg.
Qed.

Lemma mul_nonneg x y : nonneg x -> nonneg y -> nonneg (x * y).
Proof.
  unfold nonneg. rewrite FloatAxioms.mul_spec. unfold SF64mul, SFmul.
  destruct (Prim2SF x), (Prim2SF y); simpl; try done; intros -> ->; try done.
  apply binary_round_aux_nonneg.
Qed.

Lemma add_zero_l x : nonneg x -> 0 + x = x.
Proof.
  unfold nonneg. intros Hx. apply Prim2SF_inj. rewrite FloatAxioms.add_spec.
  change (Prim2SF 0) with (S754_zero false).
  destruct (Prim2SF x); simpl in *; subst; reflexivity.
Qed.

Lemma mul_comm x y : x * y = y * x.
Proof.
  apply Prim2SF_inj. rewrite !FloatAxioms.mul_spec. unfold SF64mul, SFmul.
  destruct (Prim2SF x) as [sx|sx| |sx mx ex], (Prim2SF y) as [sy|sy| |sy my ey];
    try reflexivity; rewrite (xorb_comm sx sy); try reflexivity.
  by rewrite Pos.mul_comm, Z.add_comm.
Qed.

Lemma truediv_nonneg a b : nonneg (truediv a b).
Proof. apply div_nonneg; apply of_uint63_nonneg. Qed.

End float_facts.

Module DataExtractorSpec.
Import DataExtractor.

(** The urgency ladder shared by both modules: the answer of
    [if any(high) ... elif any(medium) ... else ...]. *)
Lemma urgency_ladder (high medium : list string) (t : string) :
  let answer :=
    if any_in high t then "High" else if any_in medium t then "Medium" else "Low" in
  let hit := fun kws => exists kw, In kw kws /\ contains kw t = true in
  (answer = "High" <-> hit high) /\
  (answer = "Medium" <-> ~ hit high /\ hit medium) /\
  (answer = "Low" <-> ~ hit high /\ ~ hit medium).
Proof.
  simpl. rewrite <- !any_in_spec.
  destruct (any_in high t), (any_in medium t); intuition congruence.
Qed.

(** C2, as the code has it.  The classifier's urgency is [High] when one of
    urgent, asap, immediate, emergency, critical occurs in the lower-cased
    text, else [Medium] when one of soon, priority, important, timely
    occurs, else [Low].  The extractor's ladder is the same without
    critical and without timely, and the two answers are equal on every
    text in which neither of these two words occurs. *)
Theorem detect_urgency_ladder (text : string) :
  let hit := fun kws =>
    exists kw, In kw kws /\ contains kw (lower text) = true in
  let high := ["urgent"; "asap"; "immediate"; "emergency"] in
  let medium := ["soon"; "priority"; "important"] in
  ((_detect_urgency text = "High" <-> hit high) /\
   (_detect_urgency text = "Medium" <-> ~ hit high /\ hit medium) /\
   (_detect_urgency text = "Low" <-> ~ hit high /\ ~ hit medium)) /\
  ((ClassifierAgent._classify_urgency text = "High"
      <-> hit (high ++ ["critical"])%list) /\
   (ClassifierAgent._classify_urgency text = "Medium"
      <-> ~ hit (high ++ ["critical"])%list /\ hit (medium ++ ["timely"])%list) /\
   (ClassifierAgent._classify_urgency text = "Low"
      <-> ~ hit (high ++ ["critical"])%list /\ ~ hit (medium ++ ["timely"])%list)) /\
  (contains "critical" (lower text) = false ->
   contains "timely" (lower text) = false ->
   _detect_urgency text = ClassifierAgent._classify_urgency text).
Proof.
  simpl. split; [|split].
  - exact (urgency_ladder ["urgent"; "asap"; "immediate"; "emergency"]
             ["soon"; "priority"; "important"] (lower text)).
  - exact (urgency_ladder ["urgent"; "asap"; "immediate"; "emergency"; "critical"]
             ["soon"; "priority"; "important"; "timely"] (lower text)).
  - intros Hcritical Htimely.
    unfold _detect_urgency, ClassifierAgent._classify_urgency, any_in; simpl.
    rewrite Hcritical, Htimely, !orb_false_r. reflexivity.
Qed.

Lemma detect_urgency_ladder_witness :
  contains "critical" (lower "please pay ASAP") = false /\
  contains "timely" (lower "please pay ASAP") = false /\
  _detect_urgency "please pay ASAP"
    = ClassifierAgent._classify_urgency "please pay ASAP".
Proof.
  split; [reflexivity|]. split; [reflexivity|].
  exact (proj2 (proj2 (detect_urgency_ladder "please pay ASAP")) eq_refl eq_refl).
Defined.

(** C2, as stated, fails: on a text whose only urgency word is critical the
    classifier answers [High] and the extractor [Low]. *)
Lemma urgency_ladders_differ :
  ClassifierAgent._classify_urgency "Critical outage in billing" = "High" /\
  _detect_urgency "Critical outage in billing" = "Low" /\
  _detect_urgency "Critical outage in billing"
    <> ClassifierAgent._classify_urgency "Critical outage in billing".
Proof. split; [reflexivity|]. split; [reflexivity | discriminate]. Qed.

Example urgency_timely_differs :
  ClassifierAgent._classify_urgency "a timely reply" = "Medium" /\
  _detect_urgency "a timely reply" = "Low".
Proof. split; reflexivity. Qed.

(** C5.  For an object with at least one field the quality score is
    [min(0.5 * (filled / total) + 0.3 * (present / 3) + 0.2, 1.0)], where
    [filled] counts the top-level values that are neither [None] nor the
    empty string and [present] counts the fields id, timestamp and type
    that are keys of the object; the score of the empty object is 0.0 and
    the score of an object with exactly these three fields, all non-empty
    strings, is 1.0. *)
Theorem data_quality_formula (data : list (string * pyval)) :
  let total := length data in
  let filled :=
    length (List.filter
              (fun kv => negb (is_none (snd kv)) && negb (is_empty_str (snd kv)))
              data) in
  let present :=
    length (List.filter (fun name => dict_mem data name) ["id"; "timestamp"; "type"]) in
  (data <> [] ->
   _calculate_data_quality data
   = py_min (0.5 * truediv filled total + 0.3 * truediv present 3 + 0.2)%float
            1.0%float) /\
  _calculate_data_quality [] = 0.0%float /\
  _calculate_data_quality
    [("id", PStr "x"); ("timestamp", PStr "t"); ("type", PStr "y")] = 1.0%float.
Proof.
  simpl. split; [|split; reflexivity].
  intros Hne. unfold _calculate_data_quality.
  destruct data as [|kv data]; [contradiction|].
  change (length (kv :: data) =? 0)%nat with false. cbv iota.
  rewrite add_zero_l
    by (apply mul_nonneg; [apply truediv_nonneg | vm_compute; reflexivity]).
  rewrite (mul_comm _ 0.5), (mul_comm _ 0.3). reflexivity.
Qed.

Lemma data_quality_formula_witness :
  _calculate_data_quality [("id", PStr ""); ("note", PNone); ("type", PStr "y")]
  = py_min (0.5 * truediv 1 3 + 0.3 * truediv 2 3 + 0.2)%float 1.0%float.
Proof.
  apply (proj1 (data_quality_formula
                  [("id", PStr ""); ("note", PNone); ("type", PStr "y")])).
  discriminate.
Defined.

(** *** The invoice scenario *)

Lemma extract_email_body_total msg :
  exists body, _extract_email_body msg = Ok body.
Proof. unfold _extract_email_body, try_except. case_match; eauto. Qed.

(** C8, as the code has it.  For a file [invoice.txt] holding the invoice
    text, which the email parser reads as a message without subject whose
    payload is that text, [extract_from_email] returns a record with intent
    [Invoice], urgency [High] and the amounts [$450.00]; [extract_from_file]
    returns a [text] record with the same amounts and neither an intent nor
    an urgency entry. *)
Theorem invoice_scenario (w : World) :
  read_text w "invoice.txt" = Ok invoice_text ->
  (forall msg, parsestr w invoice_text = Ok msg ->
     msg_get msg "Subject" = None /\ msg_payload_str msg = invoice_text) ->
  (exists record,
     extract_from_email w "invoice.txt" = Ok record /\
     field record "intent" = Some (PStr "Invoice") /\
     field record "urgency" = Some (PStr "High") /\
     amounts_of record = Some (PList [PStr "$450.00"])) /\
  (exists record,
     extract_from_file w "invoice.txt" = Ok record /\
     field record "type" = Some (PStr "text") /\
     amounts_of record = Some (PList [PStr "$450.00"]) /\
     field record "intent" = None /\
     field record "urgency" = None).
Proof.
  intros Hread Hparse. split.
  - unfold extract_from_email, try_except. unfold_bind. rewrite Hread.
    destruct (parsestr w invoice_text) as [msg|] eqn:Hmsg.
    + destruct (Hparse msg eq_refl) as [Hsubject Hpayload].
      unfold header. rewrite Hsubject, Hpayload.
      destruct (msg_get_error msg "From");
        [eexists; split; [reflexivity|]; repeat split; vm_compute; reflexivity|].
      destruct (msg_get_error msg "Subject");
        [eexists; split; [reflexivity|]; repeat split; vm_compute; reflexivity|].
      destruct (msg_get_error msg "Date");
        [eexists; split; [reflexivity|]; repeat split; vm_compute; reflexivity|].
      destruct (msg_get_error msg "To");
        [eexists; split; [reflexivity|]; repeat split; vm_compute; reflexivity|].
      destruct (extract_email_body_total msg) as [body ->].
      eexists. split; [reflexivity|].
      repeat split; vm_compute; reflexivity.
    + eexists. split; [reflexivity|]. repeat split; vm_compute; reflexivity.
  - unfold extract_from_file, _extract_from_text_file, try_except. unfold_bind.
    change (lower (splitext_ext "invoice.txt")) with ".txt". simpl.
    rewrite Hread. eexists. split; [reflexivity|].
    repeat split; vm_compute; reflexivity.
Qed.

Lemma invoice_scenario_witness :
  read_text invoice_world "invoice.txt" = Ok invoice_text /\
  (exists record,
     extract_from_email invoice_world "invoice.txt" = Ok record /\
     field record "intent" = Some (PStr "Invoice") /\
     field record "urgency" = Some (PStr "High") /\
     amounts_of record = Some (PList [PStr "$450.00"])).
Proof.
  split; [reflexivity|].
  apply (invoice_scenario invoice_world); [reflexivity|].
  intros msg Hmsg. vm_compute in Hmsg. injection Hmsg as <-.
  split; reflexivity.
Defined.

(** C8, as stated, fails for the reader that [extract_from_file] selects for
    [invoice.txt]: its record has no intent and no urgency. *)
Lemma invoice_text_record_without_intent :
  extract_from_file invoice_world "invoice.txt"
  = Ok (PDict
          [ ("type", PStr "text");
            ("content", PStr invoice_text);
            ("word_count", PInt 8);
            ("extracted_fields", PDict [("amounts", PList [PStr "$450.00"])]);
            ("sentiment", PStr "Neutral") ]) /\
  (forall record, extract_from_file invoice_world "invoice.txt" = Ok record ->
     field record "intent" <> Some (PStr "Invoice") /\
     field record "urgency" <> Some (PStr "High")).
Proof.
  split; [reflexivity|].
  intros record [= <-]. split; discriminate.
Qed.

Example invoice_email_record :
  extract_from_email invoice_world "invoice.txt"
  = Ok (PDict
          [ ("type", PStr "email");
            ("sender", PStr "Unknown");
            ("subject", PStr "No Subject");
            ("date", PStr "Unknown");
            ("to", PStr "Unknown");
            ("body", PStr "Invoice \u2014 amount due $450.00, please pay ASAP");
            ("intent", PStr "Invoice");
            ("urgency", PStr "High");
            ("extracted_fields", PDict [("amounts", PList [PStr "$450.00"])]) ]).
Proof. reflexivity. Qed.

Example invoice_classification :
  exists record,
    ClassifierAgent.classify invoice_world "invoice.txt" "file" = Ok record /\
    field record "format" = Some (PStr "Email") /\
    field record "intent" = Some (PStr "Invoice") /\
    field record "urgency" = Some (PStr "High") /\
    field record "confidence_score" = Some (PFloat 0.7).
Proof. eexists. split; [reflexivity|]. repeat split. Qed.

End DataExtractorSpec.

(** ** The cache *)

Module MemoryManagerSpec.
Import MemoryManager MemorySamples.

Lemma add_hours_ok now hours t :
  add_hours now hours = Ok t -> t = (now + hours * us_per_hour)%Z.
Proof.
  unfold add_hours. case_match; [|discriminate]. by intros [= <-].
Qed.

(** [store] succeeds exactly when the expiry is a datetime and the payload
    is serializable, and then writes one row. *)
Lemma store_true db clk key payload hours db' :
  store db clk key payload hours = (true, db') <->
  exists text,
    add_hours (py_now clk) hours = Ok (py_now clk + hours * us_per_hour)%Z /\
    json_dumps payload = Ok text /\
    db' = <[key := {| data := text;
                      created_at := sql_now clk;
                      expires_at := Some (py_now clk + hours * us_per_hour)%Z |}]> db.
Proof.
  unfold store. unfold_bind. split.
  - destruct (add_hours (py_now clk) hours) as [t|] eqn:Ht; [|discriminate].
    apply add_hours_ok in Ht as ->.
    destruct (json_dumps payload) as [text|]; [|discriminate].
    intros [= <-]. eauto.
  - intros (text & -> & -> & ->). reflexivity.
Qed.

Lemma store_false db clk key payload hours db' :
  store db clk key payload hours = (false, db') -> db' = db.
Proof.
  unfold store. unfold_bind.
  destruct (add_hours (py_now clk) hours); [|by intros [= <-]].
  destruct (json_dumps payload); [discriminate | by intros [= <-]].
Qed.

Lemma get_insert_eq db now key r :
  get (<[key := r]> db) now key = if live now r then json_loads (data r) else PNone.
Proof. unfold get. by rewrite lookup_insert_eq. Qed.

Lemma expired_true now r :
  expired now r = true <-> exists e, expires_at r = Some e /\ (e <= now)%Z.
Proof.
  unfold expired. destruct (expires_at r) as [e|]; split.
  - intros H%Z.leb_le. eauto.
  - intros (e' & [= <-] & H). by apply Z.leb_le.
  - discriminate.
  - by intros (e' & ? & _).
Qed.

Lemma cleanup_expired_lookup db now k r :
  (cleanup_expired db now).2 !! k = Some r <->
  db !! k = Some r /\ expired now r = false.
Proof. unfold cleanup_expired; simpl. by rewrite map_lookup_filter_Some. Qed.

Lemma cleanup_expired_count db now :
  (cleanup_expired db now).1 + size (cleanup_expired db now).2 = size db.
Proof.
  unfold cleanup_expired; simpl.
  rewrite <- (map_filter_union_complement
                (fun kr : string * row => expired now kr.2 = true) db) at 3.
  rewrite map_size_disj_union by apply map_disjoint_filter_complement.
  f_equal. f_equal. apply map_filter_ext. intros k r _; simpl.
  destruct (expired now r); naive_solver.
Qed.

(** Every item of the listing is a live row of the table. *)
Lemma get_all_memory_row db now item :
  In item (get_all_memory db now) ->
  exists k r, item = memory_item (k, r) /\ db !! k = Some r /\ live now r = true.
Proof.
  unfold get_all_memory, live_rows. rewrite in_map_iff.
  intros ([k r] & <- & Hin). exists k, r. split; [done|].
  apply list_elem_of_In in Hin. rewrite merge_sort_Permutation in Hin.
  apply list_elem_of_In, filter_In in Hin as [Hin Hlive].
  apply list_elem_of_In, elem_of_map_to_list in Hin. done.
Qed.

Lemma get_all_memory_lists db now k r :
  db !! k = Some r -> live now r = true ->
  In (memory_item (k, r)) (get_all_memory db now).
Proof.
  intros Hk Hlive. unfold get_all_memory, live_rows.
  apply in_map. apply list_elem_of_In. rewrite merge_sort_Permutation.
  apply list_elem_of_In, filter_In. split; [|done].
  by apply list_elem_of_In, elem_of_map_to_list.
Qed.

(** C6, as the code has it.  A payload that [json.dumps] accepts, stored
    with [expires_hours = 24] (the expiry being a datetime), is written; at
    every instant before the 24 hours have passed [get] on the same key
    returns the payload with every tuple replaced by the list of its items,
    which is the payload itself exactly when no tuple occurs in it; and
    [get] returns [None] at every instant from then on. *)
Theorem store_get_roundtrip db clk key payload text :
  json_dumps payload = Ok text ->
  (0 <= py_now clk + 24 * us_per_hour <= datetime_max)%Z ->
  exists db',
    store db clk key payload 24 = (true, db') /\
    (forall now, (now < py_now clk + 24 * us_per_hour)%Z ->
       get db' now key = as_json payload /\
       (get db' now key = payload <-> tuple_free payload = true)) /\
    (forall now, (py_now clk + 24 * us_per_hour <= now)%Z ->
       get db' now key = PNone).
Proof.
  intros Htext Hrange. eexists. split.
  - apply store_true. exists text. split; [|split; [exact Htext | reflexivity]].
    unfold add_hours.
    rewrite (proj2 (Z.leb_le _ _) (proj1 Hrange)),
            (proj2 (Z.leb_le _ _) (proj2 Hrange)).
    reflexivity.
  - split; intros now Hnow; rewrite get_insert_eq; unfold live; simpl.
    + rewrite (proj2 (Z.ltb_lt _ _) Hnow).
      rewrite (json_loads_dumps_as_json payload text Htext).
      split; [reflexivity | apply as_json_tuple_free].
    + by rewrite (proj2 (Z.ltb_ge _ _) Hnow).
Qed.

Lemma store_get_roundtrip_witness :
  exists db',
    store ∅ sample_clock "file-1" sample_payload 24 = (true, db') /\
    get db' 1000 "file-1" = sample_payload /\
    get db' (1000 + 24 * us_per_hour) "file-1" = PNone.
Proof.
  destruct (store_get_roundtrip ∅ sample_clock "file-1" sample_payload _ eq_refl)
    as (db' & Hstore & Hbefore & Hafter).
  - vm_compute. split; discriminate.
  - exists db'. split; [exact Hstore|]. split.
    + apply (Hbefore 1000%Z); [vm_compute; congruence | reflexivity].
    + apply Hafter. vm_compute. congruence.
Defined.

(** C6, as stated, fails for a payload that holds a tuple: [json.dumps]
    accepts it, [store] writes it, and [get] returns a list in its place. *)
Lemma store_get_tuple_changed :
  exists db',
    store ∅ sample_clock "file-2" tuple_payload 24 = (true, db') /\
    get db' 1000 "file-2" = PDict [("t", PList [PInt 1; PInt 2])] /\
    get db' 1000 "file-2" <> tuple_payload.
Proof.
  eexists. split; [reflexivity|]. split; [reflexivity | discriminate].
Qed.

(** C7.  [cleanup_expired] keeps, unchanged, exactly the rows that have no
    expiry or an expiry later than [now], removes the others, returns the
    number of rows it removed, and no later listing shows a removed key. *)
Theorem cleanup_expired_exact db now n db' :
  cleanup_expired db now = (n, db') ->
  (forall k r, db' !! k = Some r <->
     db !! k = Some r /\ ~ exists e, expires_at r = Some e /\ (e <= now)%Z) /\
  (forall k r, db !! k = Some r -> expires_at r = None -> db' !! k = Some r) /\
  n + size db' = size db /\
  (forall k r e, db !! k = Some r -> expires_at r = Some e -> (e <= now)%Z ->
     db' !! k = None /\
     forall later item, In item (get_all_memory db' later) ->
       field item "key" <> Some (PStr k)).
Proof.
  intros Hrun.
  assert (Hdb : db' = (cleanup_expired db now).2) by by rewrite Hrun.
  assert (Hn : n = (cleanup_expired db now).1) by by rewrite Hrun.
  assert (Hkeep : forall k r, db' !! k = Some r <->
            db !! k = Some r /\ ~ exists e, expires_at r = Some e /\ (e <= now)%Z).
  { intros k r. rewrite Hdb, cleanup_expired_lookup, <- expired_true.
    destruct (expired now r); intuition congruence. }
  assert (Hgone : forall k r e, db !! k = Some r -> expires_at r = Some e ->
            (e <= now)%Z -> db' !! k = None).
  { intros k r e Hk He Hle. destruct (db' !! k) as [r'|] eqn:Hk'; [|done].
    apply Hkeep in Hk' as [Hk' Hnot]. rewrite Hk in Hk'. injection Hk' as <-.
    destruct Hnot; eauto. }
  split; [exact Hkeep|]. split; [|split].
  - intros k r Hk Hnone. apply Hkeep. split; [done|].
    intros (e & He & _). congruence.
  - subst. apply cleanup_expired_count.
  - intros k r e Hk He Hle. split; [eauto|].
    intros later item (k' & r' & -> & Hk' & _)%get_all_memory_row; simpl.
    intros [= ->]. erewrite Hgone in Hk'; eauto. discriminate.
Qed.

Lemma cleanup_expired_exact_witness :
  (cleanup_expired sweep_db 50).1 = 1 /\
  (cleanup_expired sweep_db 50).2 !! "old" = None /\
  size (cleanup_expired sweep_db 50).2 = 2.
Proof.
  destruct (cleanup_expired_exact sweep_db 50 _ _ eq_refl)
    as (_ & _ & Hcount & Hgone).
  destruct (Hgone "old" {| data := JNull; created_at := 1; expires_at := Some 50%Z |}
              50%Z eq_refl eq_refl (Z.le_refl 50)) as [Hold _].
  split; [reflexivity|]. split; [exact Hold | reflexivity].
Defined.

(** C9.  A row written by [store] expires at the call's [datetime.now()]
    plus [expires_hours] hours; a row without expiry found after [store] was
    there, unchanged, before it.  Yet a row without expiry is returned by
    [get], listed by [get_all_memory] and kept by [cleanup_expired] at every
    instant. *)
Theorem store_expiry_finite db clk key payload hours ok db' :
  store db clk key payload hours = (ok, db') ->
  (ok = true ->
     exists r, db' !! key = Some r /\
               expires_at r = Some (py_now clk + hours * us_per_hour)%Z) /\
  (forall k r, db' !! k = Some r -> expires_at r = None ->
     db !! k = Some r /\ (ok = true -> k <> key)) /\
  (forall k r now, db' !! k = Some r -> expires_at r = None ->
     get db' now k = json_loads (data r) /\
     In (memory_item (k, r)) (get_all_memory db' now) /\
     (cleanup_expired db' now).2 !! k = Some r).
Proof.
  intros Hrun. split; [|split].
  - intros ->. apply store_true in Hrun as (text & _ & _ & ->).
    eexists. by rewrite lookup_insert_eq.
  - intros k r Hk Hnone. destruct ok.
    + apply store_true in Hrun as (text & _ & _ & ->).
      destruct (decide (key = k)) as [->|Hne].
      * rewrite lookup_insert_eq in Hk. injection Hk as <-. discriminate.
      * rewrite lookup_insert_ne in Hk by done. split; [done | congruence].
    + apply store_false in Hrun as ->. split; [done | discriminate].
  - intros k r now Hk Hnone. split; [|split].
    + unfold get, live. by rewrite Hk, Hnone.
    + apply get_all_memory_lists; [done|]. unfold live. by rewrite Hnone.
    + apply cleanup_expired_lookup. split; [done|]. unfold expired. by rewrite Hnone.
Qed.

Lemma store_expiry_finite_witness :
  store ∅ sample_clock "file-1" sample_payload 24 = (true, sample_db) /\
  exists r, sample_db !! "file-1" = Some r /\
            expires_at r = Some (1000 + 24 * us_per_hour)%Z.
Proof.
  split; [reflexivity|].
  destruct (store_expiry_finite ∅ sample_clock "file-1" sample_payload 24 true
              sample_db eq_refl) as [Hrow _].
  exact (Hrow eq_refl).
Defined.

(** C10.  When [json.dumps] rejects the payload, [store] returns [False] and
    the table is what it was: the text is produced before any statement is
    executed. *)
Theorem store_unserializable_unchanged db clk key payload hours msg :
  json_dumps payload = Raise msg ->
  store db clk key payload hours = (false, db).
Proof.
  intros Hdumps. unfold store. unfold_bind.
  destruct (add_hours (py_now clk) hours); [|done]. by rewrite Hdumps.
Qed.

Lemma store_unserializable_unchanged_witness :
  json_dumps unserializable_payload
    = Raise "Object of type set is not JSON serializable" /\
  store sample_db sample_clock "file-1" unserializable_payload 24
    = (false, sample_db).
Proof.
  split; [reflexivity|].
  exact (store_unserializable_unchanged sample_db sample_clock "file-1"
           unserializable_payload 24 _ eq_refl).
Defined.

End MemoryManagerSpec.

(** * Further properties *)

(** ** Lists *)

Lemma list_filter_bool {A} (P : A -> Prop) `{!forall x, Decision (P x)}
    (f : A -> bool) (l : list A) :
  (forall x, P x <-> f x = true) -> filter P l = List.filter f l.
Proof.
  intros HP. induction l as [|x l IH]; [reflexivity|].
  rewrite filter_cons; simpl. rewrite IH.
  destruct (decide (P x)) as [Hx|Hx], (f x) eqn:Hfx; try reflexivity.
  - apply HP in Hx. congruence.
  - destruct Hx. by apply HP.
Qed.


Lemma NoDup_map_fst_filter {A B} (f : A * B -> bool) (l : list (A * B)) :
  List.NoDup (map fst l) -> List.NoDup (map fst (List.filter f l)).
Proof.
  induction l as [|x l IH]; simpl; [done|].
  inversion 1 as [|? ? Hfresh Hl]; subst.
  destruct (f x); simpl; [|auto]. constructor; [|auto].
  intros Hin. apply Hfresh. apply in_map_iff in Hin as (y & <- & Hy).
  apply filter_In in Hy as [Hy _]. by apply in_map.
Qed.

Lemma map_to_list_keys_nodup {A} (m : gmap string A) :
  List.NoDup (map fst (map_to_list m)).
Proof. apply NoDup_ListNoDup. exact (NoDup_fst_map_to_list m). Qed.

(** ** The cache, continued *)

Module MemoryManagerExtra.
Import MemoryManager MemorySamples MemoryManagerSpec.

#[local] Instance newer_first_total : Total newer_first.
Proof. intros a b. unfold newer_first. lia. Qed.

#[local] Instance newer_first_trans : Transitive newer_first.
Proof. intros a b c. unfold newer_first. lia. Qed.

Lemma live_not_expired now r : live now r = negb (expired now r).
Proof.
  unfold live, expired. destruct (expires_at r) as [e|]; [|reflexivity].
  destruct (Z.ltb_spec now e), (Z.leb_spec e now); simpl; try reflexivity; lia.
Qed.

(** The rows of the listing: those of the table that are live, each once. *)
Lemma live_rows_spec db now :
  live_rows db now
    ≡ₚ List.filter (fun kr => live now (snd kr)) (map_to_list db).
Proof. unfold live_rows. apply merge_sort_Permutation. Qed.

Lemma live_rows_In db now k r :
  In (k, r) (live_rows db now) <-> db !! k = Some r /\ live now r = true.
Proof.
  rewrite <- list_elem_of_In, live_rows_spec, list_elem_of_In, filter_In.
  rewrite <- list_elem_of_In, elem_of_map_to_list. reflexivity.
Qed.



(** [get_all_memory] lists the live rows of the table and no others, each
    key once, newest [created_at] first. *)
Theorem get_all_memory_newest_first (db : gmap string row) (now : Z) :
  exists rows,
    get_all_memory db now = map memory_item rows /\
    StronglySorted newer_first rows /\
    List.NoDup (map fst rows) /\
    (forall k r, In (k, r) rows <-> db !! k = Some r /\ live now r = true) /\
    length rows <= size db.
Proof.
  exists (live_rows db now). split; [reflexivity|]. split; [|split; [|split]].
  - apply StronglySorted_merge_sort; apply _.
  - eapply Permutation_NoDup.
    + apply Permutation_map. symmetry. apply live_rows_spec.
    + apply NoDup_map_fst_filter, map_to_list_keys_nodup.
  - apply live_rows_In.
  - rewrite (Permutation_length (live_rows_spec db now)).
    etrans; [apply filter_length_le|]. by rewrite length_map_to_list.
Qed.

Lemma map_to_list_filter_perm {A} (P : string * A -> Prop)
    `{!forall x, Decision (P x)} (m : gmap string A) :
  map_to_list (filter P m) ≡ₚ filter P (map_to_list m).
Proof.
  apply NoDup_Permutation.
  - apply NoDup_map_to_list.
  - apply NoDup_filter, NoDup_map_to_list.
  - intros [k x]. rewrite elem_of_map_to_list, map_lookup_filter_Some.
    rewrite list_elem_of_filter, elem_of_map_to_list. tauto.
Qed.

Lemma get_all_memory_length db now :
  length (get_all_memory db now) = size (cleanup_expired db now).2.
Proof.
  unfold get_all_memory, cleanup_expired; simpl. rewrite length_map.
  rewrite (Permutation_length (live_rows_spec db now)).
  rewrite <- length_map_to_list, map_to_list_filter_perm.
  f_equal. symmetry. apply list_filter_bool. intros [k r]; simpl.
  rewrite live_not_expired. destruct (expired now r); naive_solver.
Qed.

Lemma cleanup_expired_twice db now :
  cleanup_expired (cleanup_expired db now).2 now
    = (0, (cleanup_expired db now).2).
Proof.
  unfold cleanup_expired; simpl. f_equal.
  - apply map_size_empty_iff, map_empty. intros k.
    destruct (filter _ (filter _ db) !! k) as [r|] eqn:Hk; [|done].
    apply map_lookup_filter_Some in Hk as [Hk Hr].
    apply map_lookup_filter_Some in Hk as [_ Hr']. simpl in *. congruence.
  - apply map_filter_filter_r. auto.
Qed.

(** A sweep is invisible to readers: at the instant of the sweep and at
    every later one, [get] answers the same on every key and
    [get_all_memory] lists the same items; a second sweep at the same
    instant deletes nothing. *)
Theorem cleanup_expired_invisible (db : gmap string row) (now later : Z) :
  (now <= later)%Z ->
  (forall k, get (cleanup_expired db now).2 later k = get db later k) /\
  (forall item,
     In item (get_all_memory (cleanup_expired db now).2 later) <->
     In item (get_all_memory db later)) /\
  cleanup_expired (cleanup_expired db now).2 now
    = (0, (cleanup_expired db now).2).
Proof.
  intros Hle.
  assert (Hdead : forall r, expired now r = true -> live later r = false).
  { intros r. unfold expired, live. destruct (expires_at r) as [e|]; [|done].
    intros He%Z.leb_le. apply Z.ltb_ge. lia. }
  split; [|split].
  - intros k. unfold get.
    destruct (db !! k) as [r|] eqn:Hk.
    + destruct (expired now r) eqn:Hr.
      * rewrite (Hdead r Hr).
        destruct ((cleanup_expired db now).2 !! k) as [r'|] eqn:Hk'; [|done].
        apply cleanup_expired_lookup in Hk' as [Hk' Hr']. congruence.
      * by rewrite (proj2 (cleanup_expired_lookup db now k r) (conj Hk Hr)).
    + destruct ((cleanup_expired db now).2 !! k) as [r'|] eqn:Hk'; [|done].
      apply cleanup_expired_lookup in Hk' as [Hk' _]. congruence.
  - intros item. split.
    + intros (k & r & -> & [Hk _]%cleanup_expired_lookup & Hlive)%get_all_memory_row.
      by apply get_all_memory_lists.
    + intros (k & r & -> & Hk & Hlive)%get_all_memory_row.
      apply get_all_memory_lists; [|done]. apply cleanup_expired_lookup.
      split; [done|]. destruct (expired now r) eqn:Hr; [|done].
      rewrite (Hdead r Hr) in Hlive. discriminate.
  - apply cleanup_expired_twice.
Qed.

Lemma cleanup_expired_invisible_witness :
  get (cleanup_expired sweep_db 50).2 60 "new" = get sweep_db 60 "new" /\
  cleanup_expired (cleanup_expired sweep_db 50).2 50
    = (0, (cleanup_expired sweep_db 50).2).
Proof.
  assert (Hle : (50 <= 60)%Z) by (vm_compute; discriminate).
  split.
  - exact (proj1 (cleanup_expired_invisible sweep_db 50 60 Hle) "new").
  - exact (proj2 (proj2 (cleanup_expired_invisible sweep_db 50 60 Hle))).
Defined.

(** The statistics agree with the other operations at the same instant:
    [expired_entries] is the number of rows a sweep would delete,
    [active_entries] the number of rows it would leave, which is the length
    of the listing, and [cleanup_needed] tells whether the sweep would
    delete anything. *)
Theorem get_memory_stats_consistent (db : gmap string row) (now : Z) :
  get_memory_stats db now
  = PDict [ ("total_entries", PInt (Z.of_nat (size db)));
            ("active_entries", PInt (Z.of_nat (length (get_all_memory db now))));
            ("expired_entries", PInt (Z.of_nat (cleanup_expired db now).1));
            ("cleanup_needed", PBool (negb ((cleanup_expired db now).1 =? 0)%nat)) ] /\
  length (get_all_memory db now) + (cleanup_expired db now).1 = size db /\
  field (get_memory_stats (cleanup_expired db now).2 now) "cleanup_needed"
    = Some (PBool false).
Proof.
  pose proof (cleanup_expired_count db now) as Hcount.
  rewrite get_all_memory_length. split; [|split].
  - unfold get_memory_stats. change (size (filter _ db)) with (cleanup_expired db now).1.
    repeat f_equal.
    + lia.
    + destruct (cleanup_expired db now).1; reflexivity.
  - lia.
  - pose proof (f_equal fst (cleanup_expired_twice db now)) as Hzero.
    unfold cleanup_expired in Hzero; simpl in Hzero.
    unfold get_memory_stats, cleanup_expired; simpl. by rewrite Hzero.
Qed.

(** *** The conversation log *)

#[local] Instance older_first_total : Total older_first.
Proof. intros a b. unfold older_first. lia. Qed.

#[local] Instance older_first_trans : Transitive older_first.
Proof. intros a b c. unfold older_first. lia. Qed.

Lemma conversation_rows_spec log cid :
  conversation_rows log cid
    ≡ₚ List.filter (fun kr => String.eqb (conversation_id (snd kr)) cid)
         (map_to_list log).
Proof. unfold conversation_rows. apply merge_sort_Permutation. Qed.

Lemma conversation_rows_In log cid id r :
  In (id, r) (conversation_rows log cid) <->
  log !! id = Some r /\ conversation_id r = cid.
Proof.
  rewrite <- list_elem_of_In, conversation_rows_spec, list_elem_of_In, filter_In.
  rewrite <- list_elem_of_In, elem_of_map_to_list; simpl.
  by rewrite String.eqb_eq.
Qed.

(** What [store_conversation] does, by cases. *)
Lemma store_conversation_cases locked log clk cid mtype text meta :
  let id := cid +:+ "_" +:+ stamp clk in
  (exists column,
     locked = false /\
     metadata_text meta = Ok column /\ log !! id = None /\
     store_conversation locked log clk cid mtype text meta
       = (true, <[id := {| conversation_id := cid;
                           message_type := mtype;
                           content := text;
                           metadata := column;
                           message_created_at := message_sql_now clk |}]> log,
          false)) \/
  (exists lock,
     (locked = true \/ is_Some (log !! id) \/
      exists msg, metadata_text meta = Raise msg) /\
     (lock = true <->
      locked = false /\ is_Some (log !! id) /\
      exists column, metadata_text meta = Ok column) /\
     store_conversation locked log clk cid mtype text meta = (false, log, lock)).
Proof.
  simpl. unfold store_conversation.
  destruct (metadata_text meta) as [column|msg].
  - destruct locked.
    + right. exists false. split; [by left|]. split; [|reflexivity].
      split; [discriminate | by intros [? _]].
    + destruct (log !! (cid +:+ "_" +:+ stamp clk)) eqn:Hid.
      * right. exists true. split; [right; left; eauto|].
        split; [|reflexivity]. split; [|done]. intros _. eauto.
      * left. eauto 6.
  - right. exists false. split; [right; right; eauto|]. split; [|reflexivity].
    split; [discriminate|]. by intros (_ & _ & ? & ?).
Qed.




(** [store_conversation] answers [False] exactly when a write lock is held
    on the database, or the message id (the conversation id, an underscore
    and the text of the timestamp) is already a key of the table, or the
    metadata cannot be serialized; then the table is unchanged.  A call
    refused for its message id, and no other, leaves its own connection
    open with the write lock; while that lock is held every call is
    refused, whatever its message.  Metadata that is [None] or empty is
    never serialized. *)
Theorem store_conversation_refused locked log clk cid mtype text meta :
  let run := store_conversation locked log clk cid mtype text meta in
  (run.1.1 = false <->
   locked = true \/
   is_Some (log !! (cid +:+ "_" +:+ stamp clk)) \/
   exists msg, metadata_text meta = Raise msg) /\
  (run.1.1 = false -> run.1.2 = log) /\
  (run.2 = true <->
   locked = false /\
   is_Some (log !! (cid +:+ "_" +:+ stamp clk)) /\
   exists column, metadata_text meta = Ok column) /\
  (forall clk' cid' mtype' text' meta',
     (store_conversation true run.1.2 clk' cid' mtype' text' meta').1
     = (false, run.1.2)) /\
  (truthy meta = false -> metadata_text meta = Ok None).
Proof.
  cbv zeta.
  assert (Hlocked : forall log0 clk' cid' mtype' text' meta',
            (store_conversation true log0 clk' cid' mtype' text' meta').1
            = (false, log0)).
  { intros. unfold store_conversation. by destruct (metadata_text meta'). }
  destruct (store_conversation_cases locked log clk cid mtype text meta)
    as [(column & Hfree & Hmeta & Hfresh & ->) | (lock & Hwhy & Hlock & ->)];
    simpl.
  - split; [|split; [|split; [|split]]].
    + split; [discriminate|].
      intros [? | [[? Hsome] | [msg Hmsg]]]; congruence.
    + discriminate.
    + split; [discriminate|]. intros (_ & [? Hsome] & _). congruence.
    + apply Hlocked.
    + by destruct meta as [[|? ?]|].
  - split; [|split; [|split; [|split]]];
      [tauto | done | exact Hlock | apply Hlocked | by destruct meta as [[|? ?]|]].
Qed.

Lemma store_conversation_refused_witness :
  store_conversation false sample_log
    {| stamp := "1737530000.5"; message_sql_now := 9 |} "chat-2" "user" "again" None
  = (false, sample_log, true) /\
  (store_conversation true sample_log sample_message_clock
     "chat-9" "user" "fresh" None).1
  = (false, sample_log).
Proof.
  split; [reflexivity|].
  exact (proj1 (proj2 (proj2 (proj2
           (store_conversation_refused false sample_log
              {| stamp := "1737530000.5"; message_sql_now := 9 |}
              "chat-2" "user" "again" None))))
           sample_message_clock "chat-9" "user" "fresh" None).
Defined.

(** [get_conversation_history] lists the messages of the conversation and
    no others, oldest [created_at] first. *)
Theorem get_conversation_history_oldest_first log cid :
  exists rows,
    get_conversation_history log cid = map history_item rows /\
    StronglySorted older_first rows /\
    List.NoDup (map fst rows) /\
    (forall id r, In (id, r) rows <->
       log !! id = Some r /\ conversation_id r = cid).
Proof.
  exists (conversation_rows log cid). split; [reflexivity|]. split; [|split].
  - apply StronglySorted_merge_sort; apply _.
  - eapply Permutation_NoDup.
    + apply Permutation_map. symmetry. apply conversation_rows_spec.
    + apply NoDup_map_fst_filter, map_to_list_keys_nodup.
  - apply conversation_rows_In.
Qed.

End MemoryManagerExtra.

(** ** Strings and floats, continued *)

Lemma contains_app_r kw a b : contains kw b = true -> contains kw (a +:+ b) = true.
Proof.
  intros Hb. induction a as [|c a IH]; simpl; [exact Hb|].
  rewrite IH. apply orb_true_r.
Qed.

Lemma count_in_mono kws t1 t2 :
  (forall kw, contains kw t1 = true -> contains kw t2 = true) ->
  count_in kws t1 <= count_in kws t2.
Proof.
  intros Hsub. unfold count_in. induction kws as [|kw kws IH]; simpl; [lia|].
  destruct (contains kw t1) eqn:H1.
  - rewrite (Hsub kw H1). simpl. lia.
  - destruct (contains kw t2); simpl; lia.
Qed.

Lemma any_in_mono kws t1 t2 :
  (forall kw, contains kw t1 = true -> contains kw t2 = true) ->
  any_in kws t1 = true -> any_in kws t2 = true.
Proof.
  intros Hsub. rewrite !any_in_spec. intros (kw & Hin & Hkw). eauto.
Qed.

Lemma startswith_nil a : startswith a "" = true -> a = "".
Proof. by destruct a. Qed.

Lemma startswith_trans a b t :
  startswith a b = true -> startswith b t = true -> startswith a t = true.
Proof.
  revert b t; induction a as [|c a IH]; intros [|c' b] [|c'' t]; simpl;
    try done.
  intros [->%Ascii.eqb_eq Ha]%andb_prop [->%Ascii.eqb_eq Hb]%andb_prop.
  rewrite Ascii.eqb_refl. simpl. eauto.
Qed.

Lemma contains_startswith a b t :
  contains a b = true -> startswith b t = true -> contains a t = true.
Proof.
  revert t; induction b as [|c b IH]; intros t.
  - simpl. rewrite orb_false_r. intros ->%startswith_nil _. by destruct t.
  - destruct t as [|c' t]; [done|]. simpl.
    intros Hab [->%Ascii.eqb_eq Hbt]%andb_prop.
    apply orb_prop in Hab as [Hab | Hab]; apply orb_true_iff.
    + left. apply (startswith_trans a (String c' b)); [exact Hab|].
      simpl. by rewrite Ascii.eqb_refl.
    + right. by apply IH.
Qed.

(** A substring of a substring is a substring. *)
Lemma contains_trans a b t :
  contains a b = true -> contains b t = true -> contains a t = true.
Proof.
  intros Hab. induction t as [|c t IH]; intros Hb.
  - apply (contains_startswith a b ""); [exact Hab|].
    simpl in Hb. by rewrite orb_false_r in Hb.
  - simpl in Hb. apply orb_prop in Hb as [Hb | Hb].
    + by apply (contains_startswith a b).
    + simpl. rewrite (IH Hb). apply orb_true_r.
Qed.

Lemma count_in_cons kw kws text :
  count_in (kw :: kws) text
  = (if contains kw text then 1 else 0) + count_in kws text.
Proof. unfold count_in; simpl. by destruct (contains kw text). Qed.

Lemma count_in_pos_inv kws text :
  0 < count_in kws text -> exists kw, In kw kws /\ contains kw text = true.
Proof.
  unfold count_in. intros Hpos.
  destruct (List.filter _ kws) as [|kw rest] eqn:Hf; [simpl in Hpos; lia|].
  assert (Hin : In kw (List.filter (fun kw => contains kw text) kws))
    by (rewrite Hf; by left).
  apply filter_In in Hin. eauto.
Qed.

Lemma float_neq (x y : float) : Prim2SF x <> Prim2SF y -> x <> y.
Proof. intros Hne ->. by apply Hne. Qed.

Section dictionaries_absent.

Context {V : Type}.

Lemma dict_get_absent (d : list (string * V)) (k : string) (default : V) :
  ~ In k (map fst d) -> dict_get d k default = default.
Proof.
  induction d as [|[k' w] d IH]; simpl; [reflexivity|]. intros Hk.
  destruct (String.eqb_spec k' k) as [->|_]; tauto.
Qed.

End dictionaries_absent.

(** ** The classifier, continued *)

Module ClassifierExtra.
Import ClassifierAgent ClassifierSpec.

(** The confidence of an intent other than [General]: the formula on the
    keywords of the category, or 0.5 for a name that is no category. *)
Lemma confidence_cases content intent :
  intent <> "General" ->
  (exists kws,
     In (intent, kws) intent_keywords /\
     _calculate_confidence content intent
       = confidence_of (count_in kws (lower content)) (length kws)) \/
  (~ In intent (map fst intent_keywords) /\
   _calculate_confidence content intent = 0.5%float).
Proof.
  intros Hne. unfold _calculate_confidence.
  destruct (String.eqb_spec intent "General"); [contradiction|].
  destruct (in_dec string_dec intent (map fst intent_keywords)) as [Hin|Hout].
  - left. apply in_map_iff in Hin as ([i kws] & Hi & Hin). simpl in Hi. subst i.
    exists kws. split; [exact Hin|].
    rewrite (dict_get_In _ _ kws) by (exact intent_keywords_nodup || exact Hin).
    destruct (intent_keywords_cases _ _ Hin) as [_ Hlen].
    destruct kws; [simpl in Hlen; lia | reflexivity].
  - right. split; [exact Hout|]. by rewrite dict_get_absent.
Qed.

Lemma confidence_of_mono n1 n2 total :
  n1 <= n2 <= total -> total = 4 \/ total = 5 ->
  PrimFloat.leb (confidence_of n1 total) (confidence_of n2 total) = true /\
  PrimFloat.leb 0.3 (confidence_of n1 total) = true /\
  PrimFloat.leb (confidence_of n2 total) 1.0 = true.
Proof.
  intros Hn Htotal.
  assert (Htable :
    forallb (fun total =>
      forallb (fun n1 =>
        forallb (fun n2 =>
          implb (n1 <=? n2)%nat
            (PrimFloat.leb (confidence_of n1 total) (confidence_of n2 total)
             && PrimFloat.leb 0.3 (confidence_of n1 total)
             && PrimFloat.leb (confidence_of n2 total) 1.0))
          (seq 0 6)) (seq 0 6)) [4; 5] = true) by (vm_compute; reflexivity).
  rewrite forallb_forall in Htable.
  assert (Ht : In total [4; 5]) by (simpl; lia).
  specialize (Htable total Ht). rewrite forallb_forall in Htable.
  assert (H1 : In n1 (seq 0 6)) by (apply in_seq; lia).
  specialize (Htable n1 H1). rewrite forallb_forall in Htable.
  assert (H2 : In n2 (seq 0 6)) by (apply in_seq; lia).
  specialize (Htable n2 H2).
  rewrite (proj2 (Nat.leb_le n1 n2)) in Htable by lia. simpl in Htable.
  apply andb_prop in Htable as [Hab Hc]. apply andb_prop in Hab as [Ha Hb]. auto.
Qed.

Lemma intent_general_iff content :
  _classify_intent content = "General" <->
  forall intent kws, In (intent, kws) intent_keywords ->
    count_in kws (lower content) = 0.
Proof.
  destruct (classify_intent_with_spec intent_keywords intent_keywords_nodup
              (lower content) content eq_refl)
    as [[Hzero H] | (before & intent & kws & after & Htab & Hpos & _ & _ & H)];
    fold (_classify_intent content) in H.
  - split; [|done]. intros _ intent kws Hin.
    rewrite List.Forall_forall in Hzero. exact (Hzero _ Hin).
  - assert (Hin : In (intent, kws) intent_keywords) by (rewrite Htab; apply in_elt).
    split.
    + rewrite H. intros ->. by destruct (intent_keywords_cases _ _ Hin).
    + intros Hzero. rewrite (Hzero _ _ Hin) in Hpos. lia.
Qed.

Lemma intent_values content :
  In (_classify_intent content)
     ["Invoice"; "RFQ"; "Complaint"; "Regulation"; "Contract"; "Report"; "General"].
Proof.
  destruct (classify_intent_cases content) as [-> | (kws & Hin & _)];
    [simpl; tauto|].
  apply (in_map fst) in Hin. simpl in Hin. simpl. tauto.
Qed.

Lemma format_of_extension ext :
  dict_get format_mappings ext "Unknown"
  = if String.eqb ext ".pdf" then "PDF"
    else if String.eqb ext ".json" then "JSON"
    else if String.eqb ext ".txt" || String.eqb ext ".eml" then "Email"
    else "Unknown".
Proof.
  unfold format_mappings. cbn [dict_get]. rewrite !(String.eqb_sym _ ext).
  destruct (String.eqb ext ".pdf"), (String.eqb ext ".json"),
    (String.eqb ext ".txt"), (String.eqb ext ".eml"); reflexivity.
Qed.

(** What [classify] returns is fixed by the path alone.  When the size of
    the file cannot be obtained it is the degraded record with the message
    of that failure.  Otherwise it is a record without [error] entry, with
    that size and the format of the lower-cased extension: PDF for .pdf,
    JSON for .json, Email for .txt and .eml, Unknown for anything else.
    The declared input kind is never looked at. *)
Theorem classify_by_extension (w : World) (path kind : string) :
  (forall e, getsize w path = Raise e ->
     classify w path kind = Ok (degraded_record e)) /\
  (forall size, getsize w path = Ok size ->
     exists record,
       classify w path kind = Ok record /\
       field record "error" = None /\
       field record "file_size" = Some (PInt size) /\
       field record "format"
         = Some (PStr (let ext := lower (splitext_ext path) in
                       if String.eqb ext ".pdf" then "PDF"
                       else if String.eqb ext ".json" then "JSON"
                       else if String.eqb ext ".txt" || String.eqb ext ".eml"
                       then "Email"
                       else "Unknown"))) /\
  (forall kind', classify w path kind' = classify w path kind).
Proof.
  split; [|split].
  - intros e He. by apply classify_degraded_iff.
  - intros size Hsize. unfold classify, try_except. unfold_bind.
    destruct (read_file_content_total w path) as [content ->]. rewrite Hsize.
    eexists. split; [reflexivity|]. split; [reflexivity|]. split; [reflexivity|].
    cbv zeta. rewrite <- format_of_extension. reflexivity.
  - reflexivity.
Qed.

(** Every record of [classify] that is not the degraded one carries an
    intent among the six categories and [General], an urgency among
    [High], [Medium], [Low], and a confidence among 0.3, 0.5, 0.55, 0.7,
    0.8, 0.9 and 1.0 which is 0.3 exactly when the intent is [General]. *)
Theorem classify_record_invariants (w : World) (path kind : string)
    (record : pyval) :
  classify w path kind = Ok record ->
  field record "error" = None ->
  exists intent urgency confidence,
    field record "intent" = Some (PStr intent) /\
    field record "urgency" = Some (PStr urgency) /\
    field record "confidence_score" = Some (PFloat confidence) /\
    In intent ["Invoice"; "RFQ"; "Complaint"; "Regulation"; "Contract";
               "Report"; "General"] /\
    In urgency ["High"; "Medium"; "Low"] /\
    In confidence [0.3; 0.5; 0.55; 0.7; 0.8; 0.9; 1.0]%float /\
    (intent = "General" <-> confidence = 0.3%float).
Proof.
  unfold classify, try_except. unfold_bind.
  destruct (read_file_content_total w path) as [content ->].
  destruct (getsize w path) as [size|e]; intros [= <-]; [|discriminate].
  intros _. eexists _, _, _. repeat (split; [reflexivity|]).
  split; [apply intent_values|]. split.
  { unfold _classify_urgency. repeat case_match; simpl; tauto. }
  destruct (String.eqb_spec (_classify_intent content) "General") as [Hg|Hne].
  - rewrite Hg. split; [simpl; tauto | done].
  - destruct (classify_intent_cases content) as [? | (kws & Hin & Hpos)];
      [contradiction|].
    destruct (confidence_cases content _ Hne) as [(kws' & Hin' & ->) | [Hout _]].
    + assert (Hvalues :
        In (confidence_of (count_in kws' (lower content)) (length kws'))
           [0.5; 0.55; 0.7; 0.8; 0.9; 1.0]%float).
      { assert (kws' = kws) as ->.
        { rewrite <- (dict_get_In intent_keywords _ kws' [] intent_keywords_nodup Hin').
          by apply dict_get_In; [apply intent_keywords_nodup|]. }
        apply confidence_values.
        - pose proof (count_in_le kws (lower content)). lia.
        - by destruct (intent_keywords_cases _ _ Hin). }
      split; [simpl in *; tauto|]. split; [done|]. intros Hconf. exfalso.
      rewrite Hconf in Hvalues. simpl in Hvalues.
      repeat (destruct Hvalues as [Hvalues|Hvalues];
              [revert Hvalues; apply float_neq; vm_compute; discriminate|]).
      exact Hvalues.
    + destruct Hout. apply (in_map fst) in Hin. exact Hin.
Qed.

Lemma classify_record_invariants_witness :
  exists record intent urgency confidence,
    classify invoice_world "invoice.txt" "file" = Ok record /\
    field record "intent" = Some (PStr intent) /\
    field record "urgency" = Some (PStr urgency) /\
    field record "confidence_score" = Some (PFloat confidence) /\
    (intent = "General" <-> confidence = 0.3%float).
Proof.
  destruct (classify_record_invariants invoice_world "invoice.txt" "file" _
              eq_refl eq_refl)
    as (intent & urgency & confidence & Hi & Hu & Hc & _ & _ & _ & Hiff).
  eexists _, intent, urgency, confidence. split; [reflexivity|]. auto.
Defined.

(** For a fixed intent the confidence never decreases when more of the
    keywords of that intent occur, and it lies between 0.3 and 1.0. *)
Theorem confidence_monotone (intent c1 c2 : string) :
  (forall kws, In (intent, kws) intent_keywords ->
     count_in kws (lower c1) <= count_in kws (lower c2)) ->
  PrimFloat.leb (_calculate_confidence c1 intent) (_calculate_confidence c2 intent)
    = true /\
  PrimFloat.leb 0.3 (_calculate_confidence c1 intent) = true /\
  PrimFloat.leb (_calculate_confidence c2 intent) 1.0 = true.
Proof.
  intros Hcount.
  destruct (String.eqb_spec intent "General") as [->|Hne];
    [repeat split; reflexivity|].
  destruct (confidence_cases c1 intent Hne) as [(kws & Hin & ->) | [Hout ->]].
  - destruct (confidence_cases c2 intent Hne) as [(kws' & Hin' & ->) | [Hout _]].
    + assert (kws' = kws) as ->.
      { rewrite <- (dict_get_In intent_keywords _ kws' [] intent_keywords_nodup Hin').
        by apply dict_get_In; [apply intent_keywords_nodup|]. }
      apply confidence_of_mono.
      * pose proof (count_in_le kws (lower c2)). specialize (Hcount _ Hin). lia.
      * by destruct (intent_keywords_cases _ _ Hin).
    + destruct Hout. apply (in_map fst) in Hin. exact Hin.
  - destruct (confidence_cases c2 intent Hne) as [(kws' & Hin' & _) | [_ ->]].
    + destruct Hout. apply (in_map fst) in Hin'. exact Hin'.
    + repeat split; reflexivity.
Qed.

Lemma confidence_monotone_witness :
  PrimFloat.leb (_calculate_confidence "an invoice" "Invoice")
                (_calculate_confidence "invoice, bill and payment" "Invoice")
    = true.
Proof.
  apply (confidence_monotone "Invoice" "an invoice" "invoice, bill and payment").
  intros kws Hin. simpl in Hin.
  repeat (destruct Hin as [Hin|Hin]; [try discriminate Hin|]); try contradiction.
  injection Hin as <-. vm_compute. repeat constructor.
Defined.

(** Keywords found in a text are found in every text that contains it:
    [High] urgency survives adding text on either side, a text that is
    [Low] has only [Low] parts, and an intent other than [General] never
    falls back to [General] when text is added. *)
Theorem keywords_survive_concatenation (a b : string) :
  (_classify_urgency a = "High" ->
   _classify_urgency (a +:+ b) = "High" /\ _classify_urgency (b +:+ a) = "High") /\
  (_classify_urgency (a +:+ b) = "Low" ->
   _classify_urgency a = "Low" /\ _classify_urgency b = "Low") /\
  (_classify_intent a <> "General" ->
   _classify_intent (a +:+ b) <> "General" /\
   _classify_intent (b +:+ a) <> "General").
Proof.
  assert (Hl : forall x y kw, contains kw (lower x) = true ->
                 contains kw (lower (x +:+ y)) = true).
  { intros x y kw H. rewrite lower_app. by apply contains_app_l. }
  assert (Hr : forall x y kw, contains kw (lower y) = true ->
                 contains kw (lower (x +:+ y)) = true).
  { intros x y kw H. rewrite lower_app. by apply contains_app_r. }
  assert (Hhigh : forall x y,
            _classify_urgency x = "High" ->
            (forall kw, contains kw (lower x) = true ->
                        contains kw (lower y) = true) ->
            _classify_urgency y = "High").
  { intros x y Hx Hsub. unfold _classify_urgency in *. cbv zeta in *.
    destruct (any_in ["urgent"; "asap"; "immediate"; "emergency"; "critical"]
                (lower x)) eqn:Hany.
    - by rewrite (any_in_mono _ _ _ Hsub Hany).
    - destruct (any_in ["soon"; "priority"; "important"; "timely"] (lower x));
        discriminate. }
  assert (Hlow : forall x y,
            _classify_urgency y = "Low" ->
            (forall kw, contains kw (lower x) = true ->
                        contains kw (lower y) = true) ->
            _classify_urgency x = "Low").
  { intros x y Hy Hsub. unfold _classify_urgency in *. cbv zeta in *.
    destruct (any_in ["urgent"; "asap"; "immediate"; "emergency"; "critical"]
                (lower x)) eqn:Hany1.
    - rewrite (any_in_mono _ _ _ Hsub Hany1) in Hy. discriminate.
    - destruct (any_in ["soon"; "priority"; "important"; "timely"] (lower x))
        eqn:Hany2; [|reflexivity].
      rewrite (any_in_mono _ _ _ Hsub Hany2) in Hy.
      destruct (any_in ["urgent"; "asap"; "immediate"; "emergency"; "critical"]
                  (lower y)); discriminate. }
  assert (Hintent : forall x y,
            _classify_intent x <> "General" ->
            (forall kw, contains kw (lower x) = true ->
                        contains kw (lower y) = true) ->
            _classify_intent y <> "General").
  { intros x y Hx Hsub Hy. apply Hx. apply intent_general_iff.
    intros intent kws Hin.
    pose proof (proj1 (intent_general_iff y) Hy intent kws Hin) as Hzero.
    pose proof (count_in_mono kws _ _ Hsub). lia. }
  split; [|split].
  - intros Ha. split; eapply Hhigh; eauto.
  - intros Hab. split; eapply Hlow; eauto.
  - intros Ha. split; eapply Hintent; eauto.
Qed.

Lemma keywords_survive_concatenation_witness :
  _classify_urgency ("URGENT: " +:+ "see attached") = "High" /\
  _classify_intent ("invoice" +:+ " enclosed") <> "General".
Proof.
  split.
  - apply (proj1 (keywords_survive_concatenation "URGENT: " "see attached")).
    reflexivity.
  - apply (proj2 (proj2 (keywords_survive_concatenation "invoice" " enclosed"))).
    vm_compute. discriminate.
Defined.

End ClassifierExtra.

(** ** Regular expressions *)

Module RegexFacts.
Import DataExtractor.

(** A successful match hands to its continuation a rest that is no longer
    than the text it started from. *)
Lemma rmatch_length r :
  forall prev s k rest,
    rmatch r prev s k = Some rest ->
    exists p' s', k p' s' = Some rest /\ String.length s' <= String.length s.
Proof.
  induction r as [ | f | r1 IH1 r2 IH2 | r1 IH1 r2 IH2 | r IH | ];
    intros prev s k rest; simpl.
  - eauto.
  - destruct s as [|c s]; [discriminate|]. destruct (f c); [|discriminate].
    intros H. exists (Some c), s. simpl. split; [done | lia].
  - intros (p1 & s1 & H1 & Hlen1)%IH1. apply IH2 in H1 as (p2 & s2 & H2 & Hlen2).
    exists p2, s2. split; [done | lia].
  - destruct (rmatch r1 prev s k) eqn:E1.
    + intros [= <-]. eauto.
    + eauto.
  - generalize (String.length s) at 1. intros n. revert prev s.
    induction n as [|n IHn]; intros prev s.
    + eauto.
    + match goal with |- context [rmatch r prev s ?kk] =>
        destruct (rmatch r prev s kk) eqn:E end.
      * intros [= <-]. apply IH in E as (p1 & s1 & H1 & Hlen1).
        destruct (String.length s1 <? String.length s)%nat; [|discriminate].
        apply IHn in H1 as (p2 & s2 & H2 & Hlen2). exists p2, s2. split; [done|lia].
      * eauto.
  - destruct (xorb _ _); [eauto | discriminate].
Qed.

Lemma rmatch_Cat r1 r2 p s k :
  rmatch (Cat r1 r2) p s k = rmatch r1 p s (fun p' s' => rmatch r2 p' s' k).
Proof. reflexivity. Qed.

Lemma rmatch_Chr f p s k :
  rmatch (Chr f) p s k
  = match s with
    | String c s' => if f c then k (Some c) s' else None
    | EmptyString => None
    end.
Proof. reflexivity. Qed.

Lemma rmatch_Alt r1 r2 p s k :
  rmatch (Alt r1 r2) p s k
  = match rmatch r1 p s k with Some rest => Some rest | None => rmatch r2 p s k end.
Proof. reflexivity. Qed.

Lemma amount_match_inv prev s k rest :
  returns_input k ->
  rmatch amount_pattern prev s k = Some rest ->
  exists d s1, s = String "$" (String d s1) /\ is_digit d = true /\
               String.length rest <= String.length s1.
Proof.
  intros Hk. unfold amount_pattern, Seq, Plus. cbn [fold_right].
  set (R2 := Cat (Star _) _).
  rewrite rmatch_Cat. unfold Lit. rewrite rmatch_Chr.
  destruct s as [|c s]; [discriminate|].
  destruct (Ascii.eqb_spec "$" c) as [<-|]; [|discriminate].
  rewrite !rmatch_Cat. unfold digit at 1. rewrite rmatch_Chr.
  destruct s as [|d s1]; [discriminate|].
  destruct (is_digit d) eqn:Hd; [|discriminate].
  intros (p1 & t1 & H1 & Hlen1)%rmatch_length.
  apply rmatch_length in H1 as (p2 & t2 & H2 & Hlen2).
  apply Hk in H2 as ->. exists d, s1. repeat split; [done | lia].
Qed.

Lemma star_total r k : always_matches k -> always_matches (fun p s => rmatch (Star r) p s k).
Proof.
  intros Hk p s. simpl. generalize (String.length s) at 1. intros n.
  destruct n as [|n]; [apply Hk|].
  match goal with |- context [rmatch r p s ?kk] =>
    destruct (rmatch r p s kk) eqn:E end; [eauto | apply Hk].
Qed.

Lemma opt_total r k : always_matches k -> always_matches (fun p s => rmatch (Opt r) p s k).
Proof.
  intros Hk p s. unfold Opt. rewrite rmatch_Alt.
  destruct (rmatch r p s k); [eauto | apply Hk].
Qed.

Lemma amount_match_total prev d s1 :
  is_digit d = true ->
  exists rest, rmatch amount_pattern prev (String "$" (String d s1)) accept = Some rest.
Proof.
  intros Hd. unfold amount_pattern, Seq, Plus. cbn [fold_right].
  rewrite rmatch_Cat. unfold Lit. rewrite rmatch_Chr.
  change (Ascii.eqb "$" "$") with true. cbv iota.
  rewrite !rmatch_Cat. unfold digit at 1. rewrite rmatch_Chr, Hd.
  apply (star_total digit). intros p s. rewrite rmatch_Cat.
  apply (star_total _). intros p' s'. rewrite rmatch_Cat.
  apply (opt_total _). intros p'' s''. simpl. eauto.
Qed.

Lemma startswith_substring n s : startswith (substring 0 n s) s = true.
Proof.
  revert s; induction n as [|n IH]; intros [|c s]; simpl; try reflexivity.
  by rewrite Ascii.eqb_refl, IH.
Qed.

Lemma contains_cons kw c s : contains kw s = true -> contains kw (String c s) = true.
Proof. intros H. simpl. rewrite H. apply orb_true_r. Qed.

Lemma findall_amounts_sound :
  forall s skip prev m,
    In m (findall_from amount_pattern skip prev s) ->
    (exists d tail, m = String "$" (String d tail) /\ is_digit d = true) /\
    contains m s = true.
Proof.
  assert (Haccept : returns_input accept) by (by intros p s rest [= <-]).
  induction s as [|c s IH]; intros skip prev m; cbn [findall_from].
  - destruct skip; [|done].
    destruct (rmatch amount_pattern prev "" accept) eqn:E; [|done].
    apply (amount_match_inv _ _ _ _ Haccept) in E as (d & s1 & ? & _). discriminate.
  - destruct skip as [|n].
    + destruct (rmatch amount_pattern prev (String c s) accept) as [rest|] eqn:E.
      * destruct (amount_match_inv _ _ _ _ Haccept E) as (d & s1 & Hs & Hd & Hlen).
        injection Hs as -> ->.
        destruct (String.length (String "$" (String d s1)) - String.length rest)
          as [|n] eqn:Hn; [simpl in Hn; lia|].
        intros [<- | Hin].
        -- unfold matched_text. rewrite Hn. split.
           ++ destruct n as [|n]; [simpl in Hn; lia|]. simpl. eauto.
           ++ apply orb_true_iff. left. apply startswith_substring.
        -- destruct (IH _ _ _ Hin) as [Hshape Hsub]. split; [done|].
           by apply contains_cons.
      * intros Hin. destruct (IH _ _ _ Hin) as [Hshape Hsub]. split; [done|].
        by apply contains_cons.
    + intros Hin. destruct (IH _ _ _ Hin) as [Hshape Hsub]. split; [done|].
      by apply contains_cons.
Qed.

Lemma contains_String kw c s :
  contains kw (String c s) = startswith kw (String c s) || contains kw s.
Proof. reflexivity. Qed.

Lemma startswith_String a p b s :
  startswith (String a p) (String b s) = Ascii.eqb a b && startswith p s.
Proof. reflexivity. Qed.

Lemma findall_amounts_complete d :
  is_digit d = true ->
  forall s prev,
    contains (String "$" (String d "")) s = true ->
    findall_from amount_pattern 0 prev s <> [].
Proof.
  intros Hd. induction s as [|c s IH]; intros prev; [discriminate|].
  intros Hc. cbn [findall_from].
  destruct (rmatch amount_pattern prev (String c s) accept) as [rest|] eqn:E.
  - destruct (String.length (String c s) - String.length rest); discriminate.
  - rewrite contains_String in Hc.
    apply orb_prop in Hc as [Hc | Hc]; [|by apply IH].
    exfalso. rewrite startswith_String in Hc.
    apply andb_prop in Hc as [<-%Ascii.eqb_eq Hc].
    destruct s as [|d' s1]; [discriminate|]. rewrite startswith_String in Hc.
    apply andb_prop in Hc as [<-%Ascii.eqb_eq _].
    destruct (amount_match_total prev d s1 Hd) as [rest Hrest]. congruence.
Qed.

Lemma contains_empty s : contains "" s = true.
Proof. by destruct s. Qed.

Lemma contains_matched_text s rest : contains (matched_text s rest) s = true.
Proof.
  unfold matched_text. destruct s; [by destruct (_ - _)|].
  cbn [contains]. by rewrite startswith_substring.
Qed.

(** Whatever the pattern, a match of [re.findall] is a piece of the text. *)
Lemma findall_from_contains r :
  forall s skip prev m,
    In m (findall_from r skip prev s) -> contains m s = true.
Proof.
  induction s as [|c s IH]; intros skip prev m; cbn [findall_from].
  - destruct skip; [|done]. destruct (rmatch r prev "" accept); [|done].
    by intros [<- | []].
  - destruct skip as [|n]; [|intros Hin; eapply contains_cons, IH, Hin].
    destruct (rmatch r prev (String c s) accept) as [rest|];
      [|intros Hin; eapply contains_cons, IH, Hin].
    destruct (String.length (String c s) - String.length rest) as [|n].
    + intros [<- | Hin]; [apply contains_empty|].
      destruct (rmatch r prev (String c s) (accept_shorter (String c s)))
        as [rest'|]; [|eapply contains_cons, IH, Hin].
      destruct Hin as [<- | Hin]; [apply contains_matched_text|].
      eapply contains_cons, IH, Hin.
    + intros [<- | Hin]; [apply contains_matched_text|].
      eapply contains_cons, IH, Hin.
Qed.

End RegexFacts.

(** ** The extraction pipeline, continued *)

Module DataExtractorExtra.
Import DataExtractor DataExtractorSpec.

Lemma dict_mem_In {V} (d : list (string * V)) (name : string) :
  dict_mem d name = true <-> In name (map fst d).
Proof.
  unfold dict_mem. rewrite existsb_exists, in_map_iff.
  split; intros ([k v] & H1 & H2); exists (k, v); simpl in *.
  - apply String.eqb_eq in H2. auto.
  - subst. split; [done | apply String.eqb_refl].
Qed.

Lemma dict_get_lookup {V} (d : list (string * V)) (name : string) (default : V) :
  dict_get d name default
  = match dict_lookup d name with Some v => v | None => default end.
Proof.
  induction d as [|[k v] d IH]; simpl; [reflexivity|].
  destruct (String.eqb k name); [reflexivity | exact IH].
Qed.

Lemma dict_lookup_None {V} (d : list (string * V)) (name : string) :
  dict_lookup d name = None <-> ~ In name (map fst d).
Proof.
  induction d as [|[k v] d IH]; simpl; [tauto|].
  destruct (String.eqb_spec k name) as [->|Hne].
  - split; [discriminate | tauto].
  - rewrite IH. tauto.
Qed.

Lemma extract_from_json_total w path :
  exists record, extract_from_json w path = Ok record.
Proof. unfold extract_from_json, try_except. case_match; eauto. Qed.

Lemma extract_from_pdf_total w path :
  exists record, _extract_from_pdf w path = Ok record.
Proof. unfold _extract_from_pdf, try_except. case_match; eauto. Qed.

Lemma extract_from_text_file_total w path :
  exists record, _extract_from_text_file w path = Ok record.
Proof. unfold _extract_from_text_file, try_except. case_match; eauto. Qed.

(** [extract_from_file] looks at the lower-cased extension only.  It gives
    what the JSON, PDF or text reader gives for .json, .pdf, and .txt or
    .eml; for any other extension it answers, without reading anything,
    an error record that names the extension.  It always returns a
    record. *)
Theorem extract_from_file_dispatch (w : World) (path : string) :
  let ext := lower (splitext_ext path) in
  (ext = ".json" -> extract_from_file w path = extract_from_json w path) /\
  (ext = ".pdf" -> extract_from_file w path = _extract_from_pdf w path) /\
  (ext = ".txt" \/ ext = ".eml" ->
   extract_from_file w path = _extract_from_text_file w path) /\
  (~ In ext [".pdf"; ".json"; ".txt"; ".eml"] ->
   forall w',
     extract_from_file w' path
     = Ok (error_record ("Unsupported file format: " +:+ ext))) /\
  (exists record, extract_from_file w path = Ok record).
Proof.
  simpl. unfold extract_from_file, _extract_from_json_file.
  set (ext := lower (splitext_ext path)).
  assert (Hok : forall c : outcome pyval,
            (exists r, c = Ok r) -> try_except c
              (fun e => Ok (error_record ("Error extracting from file: " +:+ e))) = c).
  { by intros c [r ->]. }
  split; [|split; [|split; [|split]]].
  - intros ->. simpl. apply Hok, extract_from_json_total.
  - intros ->. simpl. apply Hok, extract_from_pdf_total.
  - intros [-> | ->]; simpl; apply Hok, extract_from_text_file_total.
  - intros Hext w'. simpl in Hext.
    destruct (String.eqb_spec ext ".pdf"); [intuition congruence|].
    destruct (String.eqb_spec ext ".json"); [intuition congruence|].
    cbn [existsb].
    destruct (String.eqb_spec ext ".txt"); [intuition congruence|].
    destruct (String.eqb_spec ext ".eml"); [intuition congruence|]. reflexivity.
  - destruct (String.eqb ext ".pdf").
    { rewrite Hok by apply extract_from_pdf_total. apply extract_from_pdf_total. }
    destruct (String.eqb ext ".json").
    { rewrite Hok by apply extract_from_json_total. apply extract_from_json_total. }
    destruct (existsb _ _).
    { rewrite Hok by apply extract_from_text_file_total.
      apply extract_from_text_file_total. }
    eauto.
Qed.

Lemma extract_from_file_dispatch_witness :
  extract_from_file invoice_world "Scan.DOCX"
  = Ok (error_record "Unsupported file format: .docx") /\
  extract_from_file invoice_world "invoice.txt"
  = _extract_from_text_file invoice_world "invoice.txt".
Proof.
  split.
  - apply (proj1 (proj2 (proj2 (proj2
             (extract_from_file_dispatch invoice_world "Scan.DOCX"))))).
    vm_compute. intuition discriminate.
  - apply (proj1 (proj2 (proj2 (extract_from_file_dispatch invoice_world
                                  "invoice.txt")))).
    left. reflexivity.
Defined.



(** A required field (id, timestamp, type) is reported missing exactly when
    it is no key of the object, whatever the value of the key; the missing
    and the present required fields add up to three; in the formatted
    envelope a missing field reads [unknown] and a present one keeps its
    value. *)
Theorem missing_fields_and_envelope (d : list (string * pyval)) :
  (forall name, In name (_detect_missing_fields d) <->
     In name ["id"; "timestamp"; "type"] /\ ~ In name (map fst d)) /\
  length (_detect_missing_fields d) + present_required d = 3 /\
  (forall name, In name (_detect_missing_fields d) ->
     field (_format_to_flowbit_schema d) name = Some (PStr "unknown")) /\
  (forall name v, In name ["id"; "timestamp"; "type"] ->
     dict_lookup d name = Some v ->
     field (_format_to_flowbit_schema d) name = Some v).
Proof.
  assert (Hmissing : forall name, In name (_detect_missing_fields d) <->
            In name ["id"; "timestamp"; "type"] /\ ~ In name (map fst d)).
  { intros name. unfold _detect_missing_fields, required_fields.
    rewrite filter_In, negb_true_iff, <- dict_mem_In.
    destruct (dict_mem d name); intuition congruence. }
  assert (Hfield : forall name, In name ["id"; "timestamp"; "type"] ->
            field (_format_to_flowbit_schema d) name
            = Some (dict_get d name (PStr "unknown"))).
  { intros name Hname. simpl in Hname.
    destruct Hname as [<- | [<- | [<- | []]]]; reflexivity. }
  split; [exact Hmissing|]. split; [|split].
  - unfold _detect_missing_fields, present_required, required_fields.
    simpl.
    destruct (dict_mem d "id"), (dict_mem d "timestamp"), (dict_mem d "type");
      reflexivity.
  - intros name [Hname Habsent]%Hmissing. rewrite (Hfield name Hname).
    by rewrite dict_get_absent.
  - intros name v Hname Hv. rewrite (Hfield name Hname).
    by rewrite dict_get_lookup, Hv.
Qed.

Lemma missing_fields_and_envelope_witness :
  field (_format_to_flowbit_schema [("id", PNone); ("note", PStr "n")]) "type"
    = Some (PStr "unknown") /\
  field (_format_to_flowbit_schema [("id", PNone); ("note", PStr "n")]) "id"
    = Some PNone.
Proof.
  destruct (missing_fields_and_envelope [("id", PNone); ("note", PStr "n")])
    as (Hmissing & _ & Hunknown & Hkept).
  split.
  - apply Hunknown. apply Hmissing. simpl. intuition discriminate.
  - apply Hkept; [simpl; tauto | reflexivity].
Defined.

(** *** Nulls and empty strings at any depth *)





Example anomalies_nested :
  _detect_json_anomalies
    [("id", PStr "x"); ("items", PList [PDict [("price", PNone)]; PStr ""])]
  = ["Contains null values"; "Contains empty strings"].
Proof. reflexivity. Qed.

(** *** The two intent rules *)

Lemma classifier_intent_keyword content intent kws :
  ClassifierAgent._classify_intent content = intent ->
  In (intent, kws) ClassifierAgent.intent_keywords ->
  exists kw, In kw kws /\ contains kw (lower content) = true.
Proof.
  intros Hintent Hin.
  destruct (ClassifierSpec.classify_intent_cases content)
    as [Hg | (kws' & Hin' & Hpos)].
  - rewrite Hintent in Hg. subst.
    by destruct (ClassifierSpec.intent_keywords_cases _ _ Hin).
  - rewrite Hintent in Hin'.
    assert (kws' = kws) as ->.
    { rewrite <- (dict_get_In ClassifierAgent.intent_keywords _ kws' []
                    ClassifierSpec.intent_keywords_nodup Hin').
      by apply dict_get_In; [apply ClassifierSpec.intent_keywords_nodup|]. }
    by apply count_in_pos_inv.
Qed.

(** The email rule and the classifier do not contradict each other on
    quotes and invoices: a text the classifier calls [RFQ] is [RFQ] for the
    email rule, a text it calls [Invoice] is [Invoice] for the email rule
    unless a quote or complaint word comes first there, and a text that is
    [General] for the email rule is neither [Invoice] nor [RFQ] for the
    classifier. *)
Theorem intent_rules_agree (content : string) :
  (ClassifierAgent._classify_intent content = "RFQ" ->
   _classify_email_intent content = "RFQ") /\
  (ClassifierAgent._classify_intent content = "Invoice" ->
   In (_classify_email_intent content) ["RFQ"; "Complaint"; "Invoice"]) /\
  (_classify_email_intent content = "General" ->
   ClassifierAgent._classify_intent content <> "RFQ" /\
   ClassifierAgent._classify_intent content <> "Invoice").
Proof.
  assert (Hrfq : ClassifierAgent._classify_intent content = "RFQ" ->
            any_in ["rfq"; "quote"; "quotation"; "pricing"] (lower content) = true).
  { intros H.
    destruct (classifier_intent_keyword content "RFQ"
                ["rfq"; "quote"; "quotation"; "pricing"; "request for quote"] H)
      as (kw & Hkw & Hfound); [simpl; tauto|].
    apply any_in_spec. simpl in Hkw.
    destruct Hkw as [<- | [<- | [<- | [<- | [<- | []]]]]];
      try (eexists; split; [|exact Hfound]; simpl; tauto).
    exists "quote". split; [simpl; tauto|].
    by apply (contains_trans "quote" "request for quote"). }
  assert (Hinvoice : ClassifierAgent._classify_intent content = "Invoice" ->
            any_in ["invoice"; "bill"; "payment"; "amount due"] (lower content)
            = true).
  { intros H.
    destruct (classifier_intent_keyword content "Invoice"
                ["invoice"; "bill"; "payment"; "amount due"; "billing"] H)
      as (kw & Hkw & Hfound); [simpl; tauto|].
    apply any_in_spec. simpl in Hkw.
    destruct Hkw as [<- | [<- | [<- | [<- | [<- | []]]]]];
      try (eexists; split; [|exact Hfound]; simpl; tauto).
    exists "bill". split; [simpl; tauto|].
    by apply (contains_trans "bill" "billing"). }
  unfold _classify_email_intent. cbv zeta.
  destruct (any_in ["rfq"; "quote"; "quotation"; "pricing"] (lower content)).
  { repeat split; try discriminate; simpl; tauto. }
  destruct (any_in ["complaint"; "issue"; "problem"; "dissatisfied"]
              (lower content)).
  { split; [intros H%Hrfq; discriminate|]. split; [simpl; tauto | discriminate]. }
  destruct (any_in ["invoice"; "bill"; "payment"; "amount due"] (lower content)).
  { split; [intros H%Hrfq; discriminate|]. split; [simpl; tauto | discriminate]. }
  split; [intros H%Hrfq; discriminate|].
  split; [intros H%Hinvoice; discriminate|].
  intros _. split; [intros H%Hrfq | intros H%Hinvoice]; discriminate.
Qed.

Lemma intent_rules_agree_witness :
  _classify_email_intent "Request for quote: 40 units" = "RFQ" /\
  ClassifierAgent._classify_intent "see the standard terms" <> "Invoice".
Proof.
  split.
  - apply (proj1 (intent_rules_agree "Request for quote: 40 units")). reflexivity.
  - apply (proj2 (proj2 (intent_rules_agree "see the standard terms"))). reflexivity.
Defined.

(** The word dissatisfied also counts as the positive word satisfied, which
    it contains: alone it never makes a text [Negative].  A [Negative] text
    always holds one of bad, terrible, awful, angry, frustrated, and a text
    whose only polarity word is dissatisfied is [Neutral]. *)
Theorem sentiment_dissatisfied (content : string) :
  (contains "dissatisfied" (lower content) = true ->
   contains "satisfied" (lower content) = true) /\
  (_analyze_sentiment content = "Negative" ->
   exists word,
     In word ["bad"; "terrible"; "awful"; "angry"; "frustrated"] /\
     contains word (lower content) = true) /\
  (contains "dissatisfied" (lower content) = true ->
   (forall word,
      In word ["good"; "great"; "excellent"; "happy"; "pleased";
               "bad"; "terrible"; "awful"; "angry"; "frustrated"] ->
      contains word (lower content) = false) ->
   _analyze_sentiment content = "Neutral").
Proof.
  set (t := lower content).
  assert (Hsub : contains "dissatisfied" t = true -> contains "satisfied" t = true).
  { by apply (contains_trans "satisfied" "dissatisfied"). }
  split; [exact Hsub|].
  unfold _analyze_sentiment. cbv zeta. fold t. rewrite !count_in_cons.
  change (count_in [] t) with 0.
  split.
  - destruct (contains "bad" t) eqn:H1;
      [exists "bad"; split; [simpl; tauto | done]|].
    destruct (contains "terrible" t) eqn:H2;
      [exists "terrible"; split; [simpl; tauto | done]|].
    destruct (contains "awful" t) eqn:H3;
      [exists "awful"; split; [simpl; tauto | done]|].
    destruct (contains "angry" t) eqn:H4;
      [exists "angry"; split; [simpl; tauto | done]|].
    destruct (contains "frustrated" t) eqn:H5;
      [exists "frustrated"; split; [simpl; tauto | done]|].
    destruct (contains "dissatisfied" t) eqn:Hd.
    + rewrite (Hsub eq_refl). intros Hneg. exfalso. revert Hneg.
      repeat match goal with |- context [contains ?w t] =>
        destruct (contains w t) end; simpl; discriminate.
    + intros Hneg. exfalso. revert Hneg.
      repeat match goal with |- context [contains ?w t] =>
        destruct (contains w t) end; simpl; discriminate.
  - intros Hd Hnone. rewrite Hd, (Hsub Hd).
    rewrite !Hnone by (simpl; tauto). reflexivity.
Qed.

Lemma sentiment_dissatisfied_witness :
  _analyze_sentiment "I am dissatisfied with the delivery" = "Neutral".
Proof.
  apply (proj2 (proj2 (sentiment_dissatisfied "I am dissatisfied with the delivery")));
    [reflexivity|].
  intros word Hword. simpl in Hword.
  repeat (destruct Hword as [<- | Hword]; [reflexivity|]). destruct Hword.
Defined.

(** *** The email entry point *)

(** The two records of [extract_from_email] for a file that can be read. *)
Lemma extract_from_email_cases w path content :
  read_text w path = Ok content ->
  (exists msg sender subject date to body intent,
     parsestr w content = Ok msg /\ headers_readable msg = true /\
     extract_from_email w path
     = Ok (PDict [ ("type", PStr "email");
                   ("sender", PStr sender);
                   ("subject", PStr subject);
                   ("date", PStr date);
                   ("to", PStr to);
                   ("body", body);
                   ("intent", PStr intent);
                   ("urgency", PStr (_detect_urgency content));
                   ("extracted_fields", _extract_email_fields content) ])) \/
  ((forall msg, parsestr w content = Ok msg -> headers_readable msg = false) /\
   extract_from_email w path
   = Ok (PDict [ ("type", PStr "email_text");
                 ("content", PStr content);
                 ("sender", PStr (_extract_sender_from_text content));
                 ("intent", PStr (_classify_email_intent content));
                 ("urgency", PStr (_detect_urgency content));
                 ("extracted_fields", _extract_email_fields content) ])).
Proof.
  intros Hread. unfold extract_from_email, try_except. unfold_bind.
  rewrite Hread.
  destruct (parsestr w content) as [msg|e]; [|right; split; [discriminate|done]].
  unfold header, headers_readable. cbn [forallb].
  destruct (msg_get_error msg "From") eqn:HFrom;
    [right; split; [intros ? [= <-]; by rewrite HFrom | done]|].
  destruct (msg_get_error msg "Subject") eqn:HSubject;
    [right; split; [intros ? [= <-]; by rewrite HFrom, HSubject | done]|].
  destruct (msg_get_error msg "Date") eqn:HDate;
    [right; split; [intros ? [= <-]; by rewrite HFrom, HSubject, HDate | done]|].
  destruct (msg_get_error msg "To") eqn:HTo;
    [right; split;
     [intros ? [= <-]; by rewrite HFrom, HSubject, HDate, HTo | done]|].
  destruct (extract_email_body_total msg) as [body ->].
  left. do 7 eexists. split; [reflexivity|].
  split; [by rewrite HFrom, HSubject, HDate, HTo | reflexivity].
Qed.

Lemma extract_from_email_total w path :
  exists record, extract_from_email w path = Ok record.
Proof.
  destruct (read_text w path) as [content|e] eqn:Hread.
  - destruct (extract_from_email_cases w path content Hread)
      as [(? & ? & ? & ? & ? & ? & ? & _ & _ & ->) | [_ ->]]; eauto.
  - unfold extract_from_email, try_except. unfold_bind. rewrite Hread. eauto.
Qed.

(** When the file cannot be read, [extract_from_email] returns an error
    record.  When it can, it returns a record without error entry whose
    type is [email] exactly when the parser accepts the text and none of
    the headers From, Subject, Date and To raises when it is read, and
    [email_text] otherwise; the [email_text] record holds the text and the
    intent of the text.  Urgency and extracted fields are those of the
    text alone: they are the same whatever the parser makes of it. *)
Theorem extract_from_email_outcomes (w : World) (path : string) :
  (forall msg, read_text w path = Raise msg ->
     extract_from_email w path
     = Ok (error_record ("Error extracting from email: " +:+ msg))) /\
  (forall content, read_text w path = Ok content ->
     exists record,
       extract_from_email w path = Ok record /\
       field record "error" = None /\
       (field record "type" = Some (PStr "email") \/
        field record "type" = Some (PStr "email_text")) /\
       (field record "type" = Some (PStr "email") <->
        exists msg, parsestr w content = Ok msg /\ headers_readable msg = true) /\
       (field record "type" = Some (PStr "email_text") ->
        field record "content" = Some (PStr content) /\
        field record "intent" = Some (PStr (_classify_email_intent content))) /\
       (forall w', read_text w' path = Ok content ->
          exists record',
            extract_from_email w' path = Ok record' /\
            field record' "urgency" = field record "urgency" /\
            field record' "extracted_fields" = field record "extracted_fields")).
Proof.
  split.
  - intros msg Hread. unfold extract_from_email, try_except. unfold_bind.
    by rewrite Hread.
  - intros content Hread.
    assert (Hother : forall w', read_text w' path = Ok content ->
              exists record',
                extract_from_email w' path = Ok record' /\
                field record' "urgency" = Some (PStr (_detect_urgency content)) /\
                field record' "extracted_fields"
                  = Some (_extract_email_fields content)).
    { intros w' Hread'.
      destruct (extract_from_email_cases w' path content Hread')
        as [(? & ? & ? & ? & ? & ? & ? & _ & _ & ->) | [_ ->]];
        eexists; (split; [reflexivity|]); split; reflexivity. }
    destruct (extract_from_email_cases w path content Hread)
      as [(msg & ? & ? & ? & ? & ? & ? & Hparse & Hheaders & ->) | [Hnone ->]];
      eexists; (split; [reflexivity|]); (split; [reflexivity|]).
    + split; [by left|]. split; [by split; eauto|]. split; [discriminate|].
      intros w' Hread'. destruct (Hother w' Hread') as (r' & Hr' & Hu & Hf).
      exists r'. split; [exact Hr'|]. split; [rewrite Hu | rewrite Hf]; reflexivity.
    + split; [by right|]. split; [|split; [by intros _|]].
      * split; [discriminate|]. intros (msg & Hparse & Hheaders).
        rewrite (Hnone msg Hparse) in Hheaders. discriminate.
      * intros w' Hread'. destruct (Hother w' Hread') as (r' & Hr' & Hu & Hf).
        exists r'. split; [exact Hr'|].
        split; [rewrite Hu | rewrite Hf]; reflexivity.
Qed.

Lemma extract_from_email_outcomes_witness :
  extract_from_email invoice_world "missing.eml"
  = Ok (error_record
          ("Error extracting from email: "
           +:+ "[Errno 2] No such file or directory: 'missing.eml'")) /\
  exists record,
    extract_from_email unreadable_date_world "mail.eml" = Ok record /\
    field record "type" = Some (PStr "email_text") /\
    field record "content" = Some (PStr "Date: 1 Jan 99999999999 00:00:00 +0000") /\
    field record "intent" = Some (PStr "General").
Proof.
  split.
  - exact (proj1 (extract_from_email_outcomes invoice_world "missing.eml") _ eq_refl).
  - destruct (proj2 (extract_from_email_outcomes unreadable_date_world "mail.eml")
                "Date: 1 Jan 99999999999 00:00:00 +0000" eq_refl)
      as (record & Hrun & _ & _ & Hemail & Htext & _).
    exists record. split; [exact Hrun|].
    assert (Htype : field record "type" = Some (PStr "email_text")).
    { injection Hrun as <-. reflexivity. }
    split; [exact Htype | exact (Htext Htype)].
Defined.

(** *** Amounts *)

(** Every amount that is extracted begins with a dollar sign and is a
    piece of the text, and amounts are found whenever a dollar sign
    followed by one of the digits 0 to 9 occurs in the text.  In a text of
    ASCII characters every amount begins with a dollar sign and one of the
    digits 0 to 9, and amounts are found only when such a pair occurs.  The
    extracted fields of the email and PDF readers have an [amounts] entry
    exactly when amounts are found, and it lists them. *)
Theorem amounts_extracted (content : string) :
  let amounts := findall amount_pattern content in
  let entry :=
    match amounts with [] => None | _ => Some (str_list amounts) end in
  (forall m, In m amounts ->
     exists tail, m = String "$" tail /\ contains m content = true) /\
  ((exists d, is_digit d = true /\
              contains (String "$" (String d "")) content = true) ->
   amounts <> []) /\
  (ascii_text content = true ->
   (forall m, In m amounts ->
      exists d tail, m = String "$" (String d tail) /\ is_digit d = true) /\
   (amounts <> [] ->
    exists d, is_digit d = true /\
              contains (String "$" (String d "")) content = true)) /\
  field (_extract_email_fields content) "amounts" = entry /\
  field (_extract_pdf_fields content) "amounts" = entry.
Proof.
  simpl. split; [|split; [|split; [|split]]].
  - intros m Hm.
    destruct (RegexFacts.findall_amounts_sound _ _ _ _ Hm)
      as [(d & tail & -> & Hd) Hsub].
    eauto.
  - intros (d & Hd & Hsub). by apply (RegexFacts.findall_amounts_complete d).
  - intros _. split.
    + intros m Hm.
      destruct (RegexFacts.findall_amounts_sound _ _ _ _ Hm)
        as [(d & tail & -> & Hd) Hsub].
      eauto.
    + destruct (findall amount_pattern content) as [|m rest] eqn:Hall; [done|].
      intros _.
      destruct (RegexFacts.findall_amounts_sound content 0 None m)
        as [(d & tail & -> & Hd) Hsub].
      { unfold findall in Hall. rewrite Hall. by left. }
      exists d. split; [exact Hd|].
      apply (contains_trans _ (String "$" (String d tail))); [|exact Hsub].
      simpl. by rewrite !Ascii.eqb_refl.
  - unfold _extract_email_fields. cbv zeta.
    destruct (findall phone_pattern content), (findall email_pattern content),
      (findall amount_pattern content); reflexivity.
  - unfold _extract_pdf_fields. cbv zeta.
    destruct (findall date_pattern content), (findall amount_pattern content);
      reflexivity.
Qed.

Example amounts_thousands :
  findall amount_pattern "Total: $1,250.50 (was $1,300), deposit $ 40"
  = ["$1,250.50"; "$1,300"].
Proof. reflexivity. Qed.

(** *** Records are JSON data *)

Lemma sequence_ok {A} (l : list (outcome A)) :
  Forall (fun c => exists x, c = Ok x) l -> exists xs, sequence l = Ok xs.
Proof.
  induction 1 as [|c l [x ->] _ [xs IH]]; [by exists []|].
  exists (x :: xs). unfold sequence in *. simpl. unfold_bind. by rewrite IH.
Qed.

(** JSON data is accepted by [json.dumps]. *)
Lemma json_shaped_serializable (v : pyval) :
  json_shaped v = true -> serializable v.
Proof.
  unfold serializable.
  induction v as [ | b | z | f | s | l IHl | d IHd | t | l IHl ]
    using pyval_nested_ind; simpl; try discriminate; try (by eexists).
  - rewrite forallb_forall, <- List.Forall_forall. intros Hl. unfold_bind.
    destruct (sequence_ok (map json_dumps l)) as [xs ->]; [|eauto].
    apply List.Forall_map.
    rewrite List.Forall_forall in *. intros v Hv. by apply IHl, Hl.
  - rewrite forallb_forall, <- List.Forall_forall. intros Hd. unfold_bind.
    match goal with |- context [sequence ?l] =>
      destruct (sequence_ok l) as [xs ->]; [|eauto] end.
    apply List.Forall_map.
    rewrite List.Forall_forall in *. intros [k v] Hv.
    destruct (IHd (k, v) Hv (Hd (k, v) Hv)) as [j Hj]. simpl in *.
    rewrite Hj. eauto.
Qed.

Lemma json_shaped_list l :
  Forall (fun v => json_shaped v = true) l -> json_shaped (PList l) = true.
Proof. intros H. simpl. by apply forallb_forall, List.Forall_forall. Qed.

Lemma json_shaped_dict d :
  Forall (fun kv => json_shaped (snd kv) = true) d <->
  json_shaped (PDict d) = true.
Proof. simpl. by rewrite forallb_forall, <- List.Forall_forall. Qed.

Ltac record_json_shaped :=
  apply json_shaped_dict; repeat (constructor; [cbn [snd]|]);
  try (apply List.Forall_nil); try reflexivity.

Lemma str_list_json_shaped l : json_shaped (str_list l) = true.
Proof.
  apply json_shaped_list, List.Forall_map, List.Forall_forall.
  intros s _. reflexivity.
Qed.

Lemma dict_set_json_shaped d k v :
  Forall (fun kv => json_shaped (snd kv) = true) d -> json_shaped v = true ->
  Forall (fun kv : string * pyval => json_shaped (snd kv) = true) (dict_set d k v).
Proof.
  intros Hd Hv. induction Hd as [|[k' v'] d Hx Hd IH]; simpl.
  - by repeat constructor.
  - destruct (String.eqb k' k); constructor; auto.
Qed.

Lemma set_if_found_json_shaped fields name matches :
  Forall (fun kv => json_shaped (snd kv) = true) fields ->
  Forall (fun kv : string * pyval => json_shaped (snd kv) = true)
    (set_if_found fields name matches).
Proof.
  intros H. destruct matches; simpl; [exact H|].
  apply dict_set_json_shaped; [exact H | apply str_list_json_shaped].
Qed.

Lemma email_fields_json_shaped content :
  json_shaped (_extract_email_fields content) = true.
Proof.
  unfold _extract_email_fields. apply json_shaped_dict.
  do 3 apply set_if_found_json_shaped. constructor.
Qed.

Lemma pdf_fields_json_shaped text :
  json_shaped (_extract_pdf_fields text) = true.
Proof.
  unfold _extract_pdf_fields. apply json_shaped_dict.
  do 2 apply set_if_found_json_shaped. constructor.
Qed.

Lemma dict_get_json_shaped d k default :
  Forall (fun kv => json_shaped (snd kv) = true) d -> json_shaped default = true ->
  json_shaped (dict_get d k default) = true.
Proof.
  intros Hd Hv. induction Hd as [|[k' v'] d Hx Hd IH]; simpl; [exact Hv|].
  destruct (String.eqb k' k); auto.
Qed.

Lemma email_body_json_shaped msg body :
  _extract_email_body msg = Ok body -> json_shaped body = true.
Proof.
  unfold _extract_email_body, try_except. unfold_bind.
  assert (Hparts : forall parts r,
            first_plain_part parts = Ok r -> json_shaped r = true).
  { induction parts as [|p parts IH]; simpl; intros r.
    - intros [= <-]. reflexivity.
    - destruct (String.eqb _ _); [|by apply IH].
      unfold_bind. destruct (part_payload_decoded p); [|discriminate].
      intros [= <-]. reflexivity. }
  destruct (msg_is_multipart msg).
  - destruct (first_plain_part _) eqn:Hp.
    + intros [= <-]. eapply Hparts, Hp.
    + intros [= <-]. reflexivity.
  - destruct (msg_payload_decoded msg); intros [= <-]; reflexivity.
Qed.

Lemma extract_from_json_json_shaped w path record :
  json_world w -> extract_from_json w path = Ok record ->
  json_shaped record = true.
Proof.
  intros Hw. unfold extract_from_json, try_except. unfold_bind.
  destruct (load_json w path) as [data|e] eqn:Hload;
    [|intros [= <-]; record_json_shaped].
  apply Hw in Hload.
  destruct data; try (intros [= <-]; record_json_shaped; fail).
  pose proof (proj2 (json_shaped_dict d) Hload) as Hd.
  intros [= <-]. record_json_shaped; try apply str_list_json_shaped.
  - exact Hload.
  - unfold _format_to_flowbit_schema. record_json_shaped;
      try (apply dict_get_json_shaped; [exact Hd | reflexivity]).
    exact Hload.
Qed.

Lemma extract_from_email_json_shaped w path record :
  extract_from_email w path = Ok record -> json_shaped record = true.
Proof.
  unfold extract_from_email, try_except, header. unfold_bind.
  destruct (read_text w path) as [content|e];
    [|intros [= <-]; record_json_shaped].
  assert (Hfallback :
            json_shaped
              (PDict [ ("type", PStr "email_text");
                       ("content", PStr content);
                       ("sender", PStr (_extract_sender_from_text content));
                       ("intent", PStr (_classify_email_intent content));
                       ("urgency", PStr (_detect_urgency content));
                       ("extracted_fields", _extract_email_fields content) ])
            = true).
  { record_json_shaped. apply email_fields_json_shaped. }
  destruct (parsestr w content) as [msg|e]; [|by intros [= <-]].
  destruct (msg_get_error msg "From"); [by intros [= <-]|].
  destruct (msg_get_error msg "Subject"); [by intros [= <-]|].
  destruct (msg_get_error msg "Date"); [by intros [= <-]|].
  destruct (msg_get_error msg "To"); [by intros [= <-]|].
  destruct (_extract_email_body msg) as [body|e] eqn:Hbody; [|by intros [= <-]].
  apply email_body_json_shaped in Hbody.
  intros [= <-]. record_json_shaped; [exact Hbody|].
  apply email_fields_json_shaped.
Qed.

Lemma extract_from_pdf_json_shaped w path record :
  _extract_from_pdf w path = Ok record -> json_shaped record = true.
Proof.
  unfold _extract_from_pdf, try_except. unfold_bind.
  destruct (read_pdf w path) as [pages|e]; intros [= <-]; record_json_shaped.
  apply pdf_fields_json_shaped.
Qed.

Lemma extract_from_text_file_json_shaped w path record :
  _extract_from_text_file w path = Ok record -> json_shaped record = true.
Proof.
  unfold _extract_from_text_file, try_except. unfold_bind.
  destruct (read_text w path) as [content|e]; intros [= <-]; record_json_shaped.
  apply email_fields_json_shaped.
Qed.

Lemma extract_from_file_json_shaped w path record :
  json_world w -> extract_from_file w path = Ok record ->
  json_shaped record = true.
Proof.
  intros Hw. unfold extract_from_file, try_except.
  unfold _extract_from_json_file.
  destruct (String.eqb _ ".pdf").
  { destruct (_extract_from_pdf w path) eqn:H; intros [= <-];
      [by eapply extract_from_pdf_json_shaped | record_json_shaped]. }
  destruct (String.eqb _ ".json").
  { destruct (extract_from_json w path) eqn:H; intros [= <-];
      [by eapply extract_from_json_json_shaped | record_json_shaped]. }
  destruct (existsb _ _).
  { destruct (_extract_from_text_file w path) eqn:H; intros [= <-];
      [by eapply extract_from_text_file_json_shaped | record_json_shaped]. }
  intros [= <-]. record_json_shaped.
Qed.

Lemma classify_json_shaped w path kind record :
  ClassifierAgent.classify w path kind = Ok record -> json_shaped record = true.
Proof.
  unfold ClassifierAgent.classify, try_except. unfold_bind.
  destruct (ClassifierAgent._read_file_content w path);
    [|intros [= <-]; record_json_shaped].
  destruct (getsize w path); intros [= <-]; record_json_shaped.
Qed.

(** *** Extracted fields *)

Lemma dict_lookup_set {V} (d : list (string * V)) k v key :
  dict_lookup (dict_set d k v) key
  = if String.eqb k key then Some v else dict_lookup d key.
Proof.
  induction d as [|[k' v'] d IH]; simpl; [reflexivity|].
  destruct (String.eqb_spec k' k) as [->|Hne]; simpl.
  - by destruct (String.eqb k key).
  - rewrite IH. destruct (String.eqb_spec k key) as [->|]; [|reflexivity].
    by rewrite (proj2 (String.eqb_neq _ _) Hne).
Qed.

Lemma set_if_found_verbatim content fields name r :
  verbatim content fields ->
  verbatim content (set_if_found fields name (findall r content)).
Proof.
  intros Hfields. unfold set_if_found.
  destruct (findall r content) as [|m ms] eqn:Hfound; [exact Hfields|].
  intros key value. rewrite dict_lookup_set.
  destruct (String.eqb name key); [|apply Hfields].
  intros [= <-]. exists (m :: ms). split; [reflexivity|]. split; [discriminate|].
  intros m' Hin. rewrite <- Hfound in Hin. eapply RegexFacts.findall_from_contains, Hin.
Qed.

(** Every entry of the extracted fields of an email, a text file or a PDF
    is a non-empty list of strings, each of which occurs in the text it
    was extracted from; the sender read from a text is [Unknown] or a
    piece of that text. *)
Theorem extracted_fields_verbatim (content : string) :
  (forall name value,
     field (_extract_email_fields content) name = Some value ->
     exists matches,
       value = str_list matches /\ matches <> [] /\
       forall m, In m matches -> contains m content = true) /\
  (forall name value,
     field (_extract_pdf_fields content) name = Some value ->
     exists matches,
       value = str_list matches /\ matches <> [] /\
       forall m, In m matches -> contains m content = true) /\
  (_extract_sender_from_text content = "Unknown" \/
   contains (_extract_sender_from_text content) content = true).
Proof.
  assert (Hnil : verbatim content []) by (intros name value; discriminate).
  split; [|split].
  - apply (set_if_found_verbatim content _ "amounts" amount_pattern).
    apply (set_if_found_verbatim content _ "email_addresses" email_pattern).
    apply (set_if_found_verbatim content _ "phone_numbers" phone_pattern).
    exact Hnil.
  - apply (set_if_found_verbatim content _ "amounts" amount_pattern).
    apply (set_if_found_verbatim content _ "dates" date_pattern).
    exact Hnil.
  - unfold _extract_sender_from_text.
    destruct (findall email_pattern content) as [|m ms] eqn:Hfound; [by left|].
    right. apply (RegexFacts.findall_from_contains email_pattern content 0 None).
    fold (findall email_pattern content). rewrite Hfound. by left.
Qed.

(** *** PDF documents *)

Lemma pdf_text_contains kw page pages :
  forall text,
    contains kw (lower text) = true \/
    (In page pages /\ contains kw (lower page) = true) ->
    contains kw
      (lower (fold_left (fun text page => text +:+ page +:+ newline) pages text))
    = true.
Proof.
  induction pages as [|p pages IH]; intros text; simpl.
  - intros [H | [[] _]]. exact H.
  - intros [H | [[-> | Hin] H]]; apply IH.
    + left. rewrite lower_app. by apply contains_app_l.
    + left. rewrite !lower_app. by apply contains_app_r, contains_app_l.
    + right. by split.
Qed.

Lemma any_in_exists kws text :
  any_in kws text = true <-> exists kw, In kw kws /\ contains kw text = true.
Proof. unfold any_in. apply existsb_exists. Qed.

(** [_extract_from_pdf] answers an error record when the document cannot
    be read.  Otherwise it answers a [pdf] record with the number of pages
    and the fields and the type of the text of all pages.  A page with one
    of the words invoice, bill, amount due, in any letter case, makes the
    document an Invoice, whatever the other pages hold; a document
    without pages has the empty text and is a Document. *)
Theorem pdf_document_type_by_page (w : World) (path : string) :
  (forall e, read_pdf w path = Raise e ->
     _extract_from_pdf w path
     = Ok (error_record ("Error extracting from PDF: " +:+ e))) /\
  (forall pages, read_pdf w path = Ok pages ->
     exists record text,
       _extract_from_pdf w path = Ok record /\
       field record "type" = Some (PStr "pdf") /\
       field record "text_content" = Some (PStr text) /\
       field record "page_count" = Some (PInt (Z.of_nat (length pages))) /\
       field record "extracted_fields" = Some (_extract_pdf_fields text) /\
       field record "document_type" = Some (PStr (_classify_pdf_type text)) /\
       (forall page, In page pages ->
          any_in ["invoice"; "bill"; "amount due"] (lower page) = true ->
          _classify_pdf_type text = "Invoice") /\
       (pages = [] -> text = "" /\ _classify_pdf_type text = "Document")).
Proof.
  unfold _extract_from_pdf, try_except. unfold_bind. split.
  - by intros e ->.
  - intros pages ->. do 2 eexists. split; [reflexivity|].
    do 5 (split; [reflexivity|]). split.
    + intros page Hin (kw & Hkw & Hc)%any_in_exists.
      unfold _classify_pdf_type. cbv zeta.
      match goal with |- context [any_in ?kws ?text] =>
        replace (any_in kws text) with true; [reflexivity|] end.
      symmetry. apply any_in_exists. exists kw. split; [exact Hkw|].
      apply (pdf_text_contains kw page). right. by split.
    + intros ->. split; reflexivity.
Qed.

(** *** The body of a message *)

Lemma first_plain_part_app before p after :
  Forall (fun q => part_content_type q <> "text/plain") before ->
  part_content_type p = "text/plain" ->
  first_plain_part (before ++ p :: after)
  = (s ← part_payload_decoded p; Ok (PStr s)).
Proof.
  intros Hbefore Hp. induction Hbefore as [|q before Hq _ IH]; simpl.
  - by rewrite Hp.
  - by rewrite (proj2 (String.eqb_neq _ _) Hq).
Qed.

Lemma first_plain_part_none parts :
  Forall (fun q => part_content_type q <> "text/plain") parts ->
  first_plain_part parts = Ok PNone.
Proof.
  induction 1 as [|q parts Hq _ IH]; simpl; [reflexivity|].
  by rewrite (proj2 (String.eqb_neq _ _) Hq).
Qed.

(** The body of a message that is not multipart is its decoded payload.
    The body of a multipart message is the decoded payload of the first
    part of type text/plain in the order of [walk], whatever follows it,
    and [None] when no part has that type.  When the payload cannot be
    decoded the body is the text of the payload of the whole message. *)
Theorem email_body_first_plain_part (msg : message) :
  (msg_is_multipart msg = false ->
   _extract_email_body msg
   = Ok (PStr (match msg_payload_decoded msg with
               | Ok s => s
               | Raise _ => msg_payload_str msg
               end))) /\
  (msg_is_multipart msg = true ->
   forall before p after,
     msg_walk msg = (before ++ p :: after)%list ->
     Forall (fun q => part_content_type q <> "text/plain") before ->
     part_content_type p = "text/plain" ->
     _extract_email_body msg
     = Ok (PStr (match part_payload_decoded p with
                 | Ok s => s
                 | Raise _ => msg_payload_str msg
                 end))) /\
  (msg_is_multipart msg = true ->
   Forall (fun q => part_content_type q <> "text/plain") (msg_walk msg) ->
   _extract_email_body msg = Ok PNone).
Proof.
  unfold _extract_email_body, try_except. split; [|split].
  - intros ->. unfold_bind. by destruct (msg_payload_decoded msg).
  - intros -> before p after -> Hbefore Hp.
    rewrite first_plain_part_app by assumption. unfold_bind.
    by destruct (part_payload_decoded p).
  - intros -> Hnone. by rewrite first_plain_part_none.
Qed.

Example email_body_second_part :
  _extract_email_body
    {| msg_get := fun _ => None;
       msg_get_error := fun _ => None;
       msg_is_multipart := true;
       msg_walk := [ {| part_content_type := "multipart/alternative";
                        part_payload_decoded := Raise "'NoneType' object has no attribute 'decode'" |};
                     {| part_content_type := "text/plain";
                        part_payload_decoded := Ok "plain" |};
                     {| part_content_type := "text/plain";
                        part_payload_decoded := Ok "second" |} ];
       msg_payload_str := "";
       msg_payload_decoded := Raise "'NoneType' object has no attribute 'decode'" |}
  = Ok (PStr "plain").
Proof. reflexivity. Qed.

(** *** Records and the cache *)

(** What the classifier and the readers return can be cached.  In a world
    whose JSON loader returns JSON data, every record of [classify],
    [extract_from_file], [extract_from_email] and [extract_from_json] is
    accepted by [json.dumps]; so [store], given an expiry inside the
    datetime range, writes it, and [get] reads the same record back until
    it expires. *)
Theorem records_can_be_cached (w : World) (path kind : string) (record : pyval)
    (db : gmap string MemoryManager.row) (clk : MemoryManager.clock)
    (key : string) (hours expires : Z) :
  json_world w ->
  In (Ok record)
     [ ClassifierAgent.classify w path kind;
       extract_from_file w path;
       extract_from_email w path;
       extract_from_json w path ] ->
  MemoryManager.add_hours (MemoryManager.py_now clk) hours = Ok expires ->
  serializable record /\
  exists db',
    MemoryManager.store db clk key record hours = (true, db') /\
    forall now, (now < expires)%Z -> MemoryManager.get db' now key = record.
Proof.
  intros Hw Hin Hexpires.
  assert (Hshape : json_shaped record = true).
  { cbn [In] in Hin. destruct Hin as [H | [H | [H | [H | []]]]]; symmetry in H.
    - by eapply classify_json_shaped.
    - by eapply extract_from_file_json_shaped.
    - by eapply extract_from_email_json_shaped.
    - by eapply extract_from_json_json_shaped. }
  pose proof (json_shaped_serializable record Hshape) as Hrecord.
  split; [exact Hrecord|]. destruct Hrecord as [j Hj].
  unfold MemoryManager.store. unfold_bind. rewrite Hexpires, Hj.
  eexists. split; [reflexivity|].
  intros now Hnow. rewrite MemoryManagerSpec.get_insert_eq.
  unfold MemoryManager.live. cbn [MemoryManager.expires_at MemoryManager.data].
  rewrite (proj2 (Z.ltb_lt _ _)) by exact Hnow.
  by apply json_loads_dumps; [apply json_shaped_tuple_free|].
Qed.

Lemma records_can_be_cached_witness :
  serializable (PDict [("error", PStr "Error extracting from JSON: 'list' object has no attribute 'get'")]) /\
  exists db',
    MemoryManager.store ∅ MemorySamples.sample_clock "list"
      (PDict [("error", PStr "Error extracting from JSON: 'list' object has no attribute 'get'")]) 24
    = (true, db') /\
    forall now, (now < 1000 + 24 * MemoryManager.us_per_hour)%Z ->
      MemoryManager.get db' now "list"
      = PDict [("error", PStr "Error extracting from JSON: 'list' object has no attribute 'get'")].
Proof.
  apply (records_can_be_cached list_document_world "list.json" "json").
  - intros path d [= <-]. reflexivity.
  - right; right; right; left. reflexivity.
  - reflexivity.
Defined.

End DataExtractorExtra.

(** ** The upload endpoint *)

(** *** Paths *)

Lemma string_length_app a b : String.length (a +:+ b) = String.length a + String.length b.
Proof. induction a as [|c a IH]; simpl; [reflexivity | by rewrite IH]. Qed.

Lemma append_cons x a b : String x a +:+ b = String x (a +:+ b).
Proof. reflexivity. Qed.

Lemma append_assoc a b c : (a +:+ b) +:+ c = a +:+ b +:+ c.
Proof.
  induction a as [|x a IH]; [reflexivity|]. by rewrite !append_cons, IH.
Qed.

Lemma rfind_app c a b :
  rfind c (a +:+ b)
  = match rfind c b with
    | Some i => Some (String.length a + i)
    | None => rfind c a
    end.
Proof.
  induction a as [|x a IH]; simpl.
  - change ("" +:+ b) with b. by destruct (rfind c b).
  - rewrite IH. by destruct (rfind c b).
Qed.

Lemma substring_app_r a b i n :
  substring (String.length a + i) n (a +:+ b) = substring i n b.
Proof. induction a as [|x a IH]; simpl; [reflexivity | exact IH]. Qed.

Lemma substring_app_l a b n :
  substring 0 (String.length a + n) (a +:+ b) = a +:+ substring 0 n b.
Proof. induction a as [|x a IH]; simpl; [reflexivity | by rewrite IH]. Qed.

Lemma all_dots_app a b : all_dots (a +:+ b) = all_dots a && all_dots b.
Proof.
  induction a as [|x a IH]; simpl; [reflexivity|].
  rewrite IH. by rewrite andb_assoc.
Qed.

Lemma rfind_lt c s i : rfind c s = Some i -> i < String.length s.
Proof.
  revert i; induction s as [|x s IH]; intros i; simpl; [discriminate|].
  destruct (rfind c s) as [j|].
  - intros [= <-]. specialize (IH j eq_refl). lia.
  - destruct (Ascii.eqb x c); [intros [= <-]; lia | discriminate].
Qed.

Lemma splitext_ext_eq p first_index dot :
  match rfind "/" p with Some i => S i | None => 0 end = first_index ->
  rfind "." p = dot ->
  splitext_ext p
  = match dot with
    | Some dot_index =>
        if (first_index <=? dot_index)%nat then
          if all_dots (substring first_index (dot_index - first_index) p)
          then ""
          else substring dot_index (String.length p - dot_index) p
        else ""
    | None => ""
    end.
Proof. intros <- <-. reflexivity. Qed.

(** The directory part of a path plays no role in its extension. *)
Lemma splitext_ext_dir d b :
  rfind "/" b = None -> splitext_ext (d +:+ "/" +:+ b) = splitext_ext b.
Proof.
  intros Hb.
  replace (d +:+ "/" +:+ b) with ((d +:+ "/") +:+ b) by apply append_assoc.
  set (pre := d +:+ "/").
  assert (Hlen : String.length pre = S (String.length d)).
  { unfold pre. rewrite string_length_app. simpl. lia. }
  assert (Hslash : rfind "/" pre = Some (String.length d)).
  { unfold pre. rewrite rfind_app. simpl. f_equal. lia. }
  rewrite (splitext_ext_eq b 0 (rfind "." b)) by (by rewrite ?Hb).
  rewrite (splitext_ext_eq (pre +:+ b) (String.length pre)
             (match rfind "." b with
              | Some i => Some (String.length pre + i)
              | None => rfind "." pre
              end))
    by (rewrite ?rfind_app, ?Hb, ?Hslash, ?Hlen; reflexivity).
  destruct (rfind "." b) as [i|] eqn:Hdot.
  - rewrite (proj2 (Nat.leb_le (String.length pre) _)) by lia.
    change (0 <=? i)%nat with true. cbv iota.
    replace (String.length pre + i - String.length pre) with i by lia.
    rewrite Nat.sub_0_r.
    rewrite <- (Nat.add_0_r (String.length pre)) at 1.
    rewrite substring_app_r, string_length_app.
    replace (String.length pre + String.length b - (String.length pre + i))
      with (String.length b - i) by lia.
    by rewrite substring_app_r.
  - destruct (rfind "." pre) as [j|] eqn:Hj; [|reflexivity].
    pose proof (rfind_lt _ _ _ Hj).
    rewrite (proj2 (Nat.leb_gt _ _)) by lia. reflexivity.
Qed.

(** Between a prefix that ends in an underscore and a name with an
    extension, the extension is that of the name. *)
Lemma splitext_ext_prefixed x b :
  rfind "/" x = None -> rfind "/" b = None -> splitext_ext b <> "" ->
  splitext_ext (x +:+ "_" +:+ b) = splitext_ext b.
Proof.
  intros Hx Hb.
  replace (x +:+ "_" +:+ b) with ((x +:+ "_") +:+ b) by apply append_assoc.
  set (pre := x +:+ "_").
  assert (Hslash : rfind "/" pre = None).
  { unfold pre. rewrite rfind_app. simpl. exact Hx. }
  assert (Hdots : all_dots pre = false).
  { unfold pre. rewrite all_dots_app. simpl. by rewrite andb_false_r. }
  rewrite (splitext_ext_eq b 0 (rfind "." b)) by (by rewrite ?Hb).
  rewrite (splitext_ext_eq (pre +:+ b) 0
             (match rfind "." b with
              | Some i => Some (String.length pre + i)
              | None => rfind "." pre
              end))
    by (rewrite ?rfind_app, ?Hb, ?Hslash; reflexivity).
  destruct (rfind "." b) as [i|] eqn:Hdot; [|done].
  change (0 <=? String.length pre + i)%nat with true.
  change (0 <=? i)%nat with true. cbv iota.
  rewrite !Nat.sub_0_r, substring_app_l, all_dots_app, Hdots. simpl.
  destruct (all_dots (substring 0 i b)); [done|]. intros _.
  rewrite string_length_app.
  replace (String.length pre + String.length b - (String.length pre + i))
    with (String.length b - i) by lia.
  by rewrite substring_app_r.
Qed.

Lemma substring_full s : substring 0 (String.length s) s = s.
Proof. induction s as [|y s IHs]; simpl; [reflexivity | by rewrite IHs]. Qed.

(** A path with a slash is a directory, a slash and its base name. *)
Lemma basename_split p i :
  rfind "/" p = Some i ->
  p = substring 0 i p +:+ "/" +:+ Main.basename p /\
  rfind "/" (Main.basename p) = None.
Proof.
  unfold Main.basename. intros Hi. rewrite Hi.
  revert i Hi; induction p as [|c p IH]; intros i; simpl; [discriminate|].
  destruct (rfind "/" p) as [j|] eqn:Hj.
  - intros [= <-]. destruct (IH j eq_refl) as [Hp Hnone].
    simpl. split; [by rewrite append_cons, <- Hp | exact Hnone].
  - destruct (Ascii.eqb_spec c "/") as [->|]; [|discriminate].
    intros [= <-]. simpl. rewrite Nat.sub_0_r, substring_full. done.
Qed.

Lemma basename_no_slash p : rfind "/" (Main.basename p) = None.
Proof.
  destruct (rfind "/" p) as [i|] eqn:Hi.
  - by destruct (basename_split p i Hi).
  - unfold Main.basename. by rewrite Hi.
Qed.

Lemma splitext_ext_basename p : splitext_ext (Main.basename p) = splitext_ext p.
Proof.
  destruct (rfind "/" p) as [i|] eqn:Hi.
  - destruct (basename_split p i Hi) as [Hp Hnone].
    rewrite Hp at 2. symmetry. by apply splitext_ext_dir.
  - unfold Main.basename. by rewrite Hi.
Qed.

(** The path under which an upload is saved has the extension of the
    uploaded file name. *)
Lemma upload_path_ext file_id filename :
  rfind "/" file_id = None -> splitext_ext filename <> "" ->
  splitext_ext ("uploads/" +:+ file_id +:+ "_" +:+ Main.basename filename)
  = splitext_ext filename.
Proof.
  intros Hid Hext.
  change ("uploads/" +:+ ?x) with ("uploads" +:+ "/" +:+ x).
  rewrite splitext_ext_dir.
  - rewrite splitext_ext_prefixed; [apply splitext_ext_basename | exact Hid | |].
    + apply basename_no_slash.
    + by rewrite splitext_ext_basename.
  - replace (file_id +:+ "_" +:+ Main.basename filename)
      with ((file_id +:+ "_") +:+ Main.basename filename) by apply append_assoc.
    rewrite rfind_app, basename_no_slash, rfind_app. simpl. exact Hid.
Qed.

(** *** Replies and the cache *)

Module MainExtra.
Import Main MemoryManager.

Lemma existsb_eqb_In (x : string) (l : list string) :
  existsb (String.eqb x) l = true <-> In x l.
Proof.
  rewrite existsb_exists. split.
  - intros (y & Hy & ->%String.eqb_eq). exact Hy.
  - intros H. exists x. by rewrite String.eqb_refl.
Qed.

Lemma extractor_total kind extract w path :
  extractor_for kind = Some extract -> exists record, extract w path = Ok record.
Proof.
  unfold extractor_for.
  destruct (String.eqb _ "file").
  { intros [= <-]. unfold DataExtractor.extract_from_file, try_except.
    case_match; eauto. }
  destruct (String.eqb _ "email").
  { intros [= <-]. apply DataExtractorExtra.extract_from_email_total. }
  destruct (String.eqb _ "json"); [|discriminate].
  intros [= <-]. apply DataExtractorExtra.extract_from_json_total.
Qed.

(** The body of the endpoint, by cases. *)
Lemma process_user_input_eq http_str save db clk file_id timestamp filename kind :
  process_user_input http_str save db clk file_id timestamp filename kind
  = if negb (existsb (String.eqb (lower (splitext_ext filename)))
               allowed_extensions)
    then (HttpError 500 ("Error: " +:+ http_str 400%Z "Unsupported file type."), db)
    else
      match save (upload_path file_id filename) with
      | Raise e => (HttpError 500 ("Error: " +:+ e), db)
      | Ok w =>
          match ClassifierAgent.classify w (upload_path file_id filename) kind,
                extractor_for kind with
          | Ok classification, Some extract =>
              match extract w (upload_path file_id filename) with
              | Ok extracted =>
                  (Success (upload_reply file_id filename classification extracted),
                   snd (store db clk file_id
                          (cached_upload file_id timestamp filename kind
                             classification extracted) 24))
              | Raise e => (HttpError 500 ("Error: " +:+ e), db)
              end
          | Ok _, None =>
              (HttpError 500 ("Error: " +:+ http_str 400%Z "Invalid input type."), db)
          | Raise e, _ => (HttpError 500 ("Error: " +:+ e), db)
          end
      end.
Proof.
  unfold process_user_input, extractor_for, upload_reply, cached_upload.
  fold (upload_path file_id filename).
  destruct (negb _); [reflexivity|]. unfold_bind.
  destruct (save _) as [w|e]; [|reflexivity].
  destruct (ClassifierAgent.classify _ _ _) as [c|e]; [|reflexivity].
  destruct (String.eqb _ "file");
    [destruct (DataExtractor.extract_from_file _ _); reflexivity|].
  destruct (String.eqb _ "email");
    [destruct (DataExtractor.extract_from_email _ _); reflexivity|].
  destruct (String.eqb _ "json");
    [destruct (DataExtractor.extract_from_json _ _); reflexivity|].
  reflexivity.
Qed.

Lemma extractor_json_shaped kind extract w path record :
  json_world w -> extractor_for kind = Some extract ->
  extract w path = Ok record -> json_shaped record = true.
Proof.
  intros Hw. unfold extractor_for.
  destruct (String.eqb _ "file");
    [intros [= <-]; by apply DataExtractorExtra.extract_from_file_json_shaped|].
  destruct (String.eqb _ "email");
    [intros [= <-]; by apply DataExtractorExtra.extract_from_email_json_shaped|].
  destruct (String.eqb _ "json"); [|discriminate].
  intros [= <-]. by apply DataExtractorExtra.extract_from_json_json_shaped.
Qed.

(** The replies of the upload endpoint.  Every failure is answered with
    status 500 and leaves the cache as it was; the two errors that the
    endpoint raises with status 400 are among them, their text wrapped in
    the detail.  A file name whose lower-cased extension is not .pdf,
    .json, .txt or .eml is refused before anything is written.  For an
    accepted name the upload is written first: a failed write is reported;
    a declared kind which is not file, email or json in some letter case
    is reported only after the file has been written and classified; in
    every other case the endpoint answers with success.  The reply depends
    neither on the cache nor on the clock, so a cache write that fails
    does not show in it. *)
Theorem process_user_input_replies (http_str : Z -> string -> string)
    (save : string -> outcome World) (db : gmap string row) (clk : clock)
    (file_id timestamp filename kind : string) :
  let run := process_user_input http_str save db clk file_id timestamp filename kind in
  let ext := lower (splitext_ext filename) in
  let path := upload_path file_id filename in
  (forall status detail,
     fst run = HttpError status detail -> status = 500%Z /\ snd run = db) /\
  (~ In ext allowed_extensions ->
   forall save',
     process_user_input http_str save' db clk file_id timestamp filename kind
     = (HttpError 500 ("Error: " +:+ http_str 400%Z "Unsupported file type."), db)) /\
  (In ext allowed_extensions ->
   forall e, save path = Raise e -> run = (HttpError 500 ("Error: " +:+ e), db)) /\
  (In ext allowed_extensions ->
   forall w, save path = Ok w -> extractor_for kind = None ->
     run = (HttpError 500 ("Error: " +:+ http_str 400%Z "Invalid input type."), db)) /\
  (In ext allowed_extensions ->
   forall w, save path = Ok w -> extractor_for kind <> None ->
     exists body, fst run = Success body) /\
  (forall db' clk',
     fst (process_user_input http_str save db' clk' file_id timestamp filename kind)
     = fst run).
Proof.
  cbv zeta. rewrite <- existsb_eqb_In.
  split; [|split; [|split; [|split; [|split]]]].
  - rewrite process_user_input_eq. intros status detail.
    destruct (negb _); [by intros [= <- _]|].
    destruct (save _) as [w|e]; [|by intros [= <- _]].
    destruct (ClassifierAgent.classify _ _ _) as [c|e]; [|by intros [= <- _]].
    destruct (extractor_for kind) as [extract|]; [|by intros [= <- _]].
    destruct (extract _ _); [discriminate | by intros [= <- _]].
  - intros Hext save'. rewrite process_user_input_eq.
    by destruct (existsb _ _).
  - intros Hext e Hsave. by rewrite process_user_input_eq, Hext, Hsave.
  - intros Hext w Hsave Hkind.
    rewrite process_user_input_eq, Hext, Hsave, Hkind.
    by destruct (ClassifierSpec.classify_never_raises
                   w (upload_path file_id filename) kind) as [c ->].
  - intros Hext w Hsave Hkind.
    rewrite process_user_input_eq, Hext, Hsave.
    destruct (ClassifierSpec.classify_never_raises
                w (upload_path file_id filename) kind) as [c ->].
    destruct (extractor_for kind) as [extract|] eqn:Hextract; [|done].
    destruct (extractor_total kind extract w (upload_path file_id filename)
                Hextract) as [x ->].
    simpl. eauto.
  - intros db' clk'. rewrite !process_user_input_eq.
    destruct (negb _); [reflexivity|].
    destruct (save _) as [w|e]; [|reflexivity].
    destruct (ClassifierAgent.classify _ _ _) as [c|e]; [|reflexivity].
    destruct (extractor_for kind) as [extract|]; [|reflexivity].
    destruct (extract _ _); reflexivity.
Qed.

(** An upload that is processed is cached for 24 hours.  For an accepted
    file name, a write that works, a declared kind among file, email and
    json, a JSON loader that returns JSON data and a clock at least 24
    hours before the end of the datetime range: the endpoint answers
    success with the record of the classifier and the record of the reader
    that the kind selects; from then on and until 24 hours after the upload,
    [get] on the file id returns the file name, the kind, the time stamp,
    the path and these two records; from that instant on it returns
    nothing; every other key of the cache is left as it was. *)
Theorem upload_cached (http_str : Z -> string -> string)
    (save : string -> outcome World) (db : gmap string row) (clk : clock)
    (file_id timestamp filename kind : string) (w : World)
    (extract : World -> string -> outcome pyval) :
  In (lower (splitext_ext filename)) allowed_extensions ->
  save (upload_path file_id filename) = Ok w ->
  extractor_for kind = Some extract ->
  json_world w ->
  (0 <= py_now clk + 24 * us_per_hour <= datetime_max)%Z ->
  exists classification extracted db',
    ClassifierAgent.classify w (upload_path file_id filename) kind
    = Ok classification /\
    extract w (upload_path file_id filename) = Ok extracted /\
    process_user_input http_str save db clk file_id timestamp filename kind
    = (Success (upload_reply file_id filename classification extracted), db') /\
    (forall later, (later < py_now clk + 24 * us_per_hour)%Z ->
       get db' later file_id
       = cached_upload file_id timestamp filename kind classification extracted) /\
    (forall later, (py_now clk + 24 * us_per_hour <= later)%Z ->
       get db' later file_id = PNone) /\
    (forall key, key <> file_id -> db' !! key = db !! key).
Proof.
  intros Hext%existsb_eqb_In Hsave Hkind Hw Hclock.
  destruct (ClassifierSpec.classify_never_raises
              w (upload_path file_id filename) kind) as [c Hc].
  destruct (extractor_total kind extract w (upload_path file_id filename) Hkind)
    as [x Hx].
  assert (Hshape : json_shaped
            (cached_upload file_id timestamp filename kind c x) = true).
  { unfold cached_upload. DataExtractorExtra.record_json_shaped.
    - by eapply DataExtractorExtra.classify_json_shaped.
    - by eapply extractor_json_shaped. }
  destruct (DataExtractorExtra.json_shaped_serializable _ Hshape) as [j Hj].
  exists c, x. eexists. split; [exact Hc|]. split; [exact Hx|].
  rewrite process_user_input_eq, Hext, Hsave, Hc, Hkind, Hx. cbn [negb].
  unfold store, add_hours. cbv zeta.
  rewrite (proj2 (andb_true_iff _ _)) by (split; apply Z.leb_le; lia).
  unfold_bind. rewrite Hj. cbn [snd].
  split; [reflexivity|]. split; [|split].
  - intros later Hlater. rewrite MemoryManagerSpec.get_insert_eq.
    unfold live. cbn [expires_at data].
    rewrite (proj2 (Z.ltb_lt _ _)) by exact Hlater.
    by apply json_loads_dumps; [apply json_shaped_tuple_free|].
  - intros later Hlater. rewrite MemoryManagerSpec.get_insert_eq.
    unfold live. cbn [expires_at data].
    by rewrite (proj2 (Z.ltb_ge _ _)) by exact Hlater.
  - intros key Hkey. by rewrite lookup_insert_ne.
Qed.

Lemma upload_cached_witness :
  exists classification extracted db',
    ClassifierAgent.classify (upload_world "uploads/7d1c_invoice.txt" invoice_text)
      (upload_path "7d1c" "mail/invoice.txt") "File"
    = Ok classification /\
    DataExtractor.extract_from_file
      (upload_world "uploads/7d1c_invoice.txt" invoice_text)
      (upload_path "7d1c" "mail/invoice.txt") = Ok extracted /\
    process_user_input detail_only save_invoice ∅ MemorySamples.sample_clock
      "7d1c" "2025-01-22T10:00:00" "mail/invoice.txt" "File"
    = (Success (upload_reply "7d1c" "mail/invoice.txt" classification extracted),
       db') /\
    (forall later, (later < 1000 + 24 * us_per_hour)%Z ->
       get db' later "7d1c"
       = cached_upload "7d1c" "2025-01-22T10:00:00" "mail/invoice.txt" "File"
           classification extracted) /\
    (forall later, (1000 + 24 * us_per_hour <= later)%Z ->
       get db' later "7d1c" = PNone) /\
    (forall key, key <> "7d1c" -> db' !! key = (∅ : gmap string row) !! key).
Proof.
  apply (upload_cached detail_only save_invoice ∅ MemorySamples.sample_clock
           "7d1c" "2025-01-22T10:00:00" "mail/invoice.txt" "File"
           (upload_world "uploads/7d1c_invoice.txt" invoice_text)
           DataExtractor.extract_from_file).
  - vm_compute. tauto.
  - reflexivity.
  - reflexivity.
  - intros path d. simpl. destruct (String.eqb _ _); discriminate.
  - vm_compute. split; discriminate.
Defined.

(** The path under which an upload is saved keeps the extension of the
    uploaded name.  For a file id without slash and an accepted file name
    the saved path has the extension of the name; so the classifier, when
    it can obtain the size of the file, reports one of the formats PDF,
    JSON and Email, never Unknown, and [extract_from_file] answers with
    what one of its three readers returns, never with the record for an
    unsupported format. *)
Theorem upload_keeps_extension (file_id filename kind : string) (w : World) :
  rfind "/" file_id = None ->
  In (lower (splitext_ext filename)) allowed_extensions ->
  let path := upload_path file_id filename in
  splitext_ext path = splitext_ext filename /\
  (forall size, getsize w path = Ok size ->
     exists record format,
       ClassifierAgent.classify w path kind = Ok record /\
       field record "format" = Some (PStr format) /\
       In format ["PDF"; "JSON"; "Email"]) /\
  In (DataExtractor.extract_from_file w path)
     [ DataExtractor._extract_from_pdf w path;
       DataExtractor.extract_from_json w path;
       DataExtractor._extract_from_text_file w path ].
Proof.
  intros Hid Hext. cbv zeta.
  assert (Hpath : splitext_ext (upload_path file_id filename)
                  = splitext_ext filename).
  { apply upload_path_ext; [exact Hid|]. intros Hnone.
    rewrite Hnone in Hext. vm_compute in Hext. intuition discriminate. }
  split; [exact Hpath|]. split.
  - intros size Hsize. unfold ClassifierAgent.classify, try_except. unfold_bind.
    destruct (ClassifierSpec.read_file_content_total
                w (upload_path file_id filename)) as [content ->].
    rewrite Hsize, Hpath. cbv zeta. do 2 eexists.
    split; [reflexivity|]. split; [reflexivity|].
    rewrite ClassifierExtra.format_of_extension.
    unfold allowed_extensions in Hext. cbn [In] in Hext. destruct Hext as [<- | [<- | [<- | [<- | []]]]];
      simpl; tauto.
  - unfold DataExtractor.extract_from_file, DataExtractor._extract_from_json_file.
    rewrite Hpath.
    assert (Hok : forall c : outcome pyval,
              (exists r, c = Ok r) ->
              try_except c
                (fun e => Ok (DataExtractor.error_record
                                ("Error extracting from file: " +:+ e))) = c).
    { by intros c [r ->]. }
    unfold allowed_extensions in Hext. cbn [In] in Hext. destruct Hext as [<- | [<- | [<- | [<- | []]]]]; simpl.
    + left. symmetry. apply Hok, DataExtractorExtra.extract_from_pdf_total.
    + right; left. symmetry. apply Hok, DataExtractorExtra.extract_from_json_total.
    + right; right; left. symmetry.
      apply Hok, DataExtractorExtra.extract_from_text_file_total.
    + right; right; left. symmetry.
      apply Hok, DataExtractorExtra.extract_from_text_file_total.
Qed.

Lemma upload_keeps_extension_witness :
  splitext_ext (upload_path "7d1c" "mail.d/Scan.PDF") = ".PDF" /\
  (forall size,
     getsize invoice_world (upload_path "7d1c" "mail.d/Scan.PDF") = Ok size ->
     exists record format,
       ClassifierAgent.classify invoice_world
         (upload_path "7d1c" "mail.d/Scan.PDF") "file" = Ok record /\
       field record "format" = Some (PStr format) /\
       In format ["PDF"; "JSON"; "Email"]) /\
  In (DataExtractor.extract_from_file invoice_world
        (upload_path "7d1c" "mail.d/Scan.PDF"))
     [ DataExtractor._extract_from_pdf invoice_world
         (upload_path "7d1c" "mail.d/Scan.PDF");
       DataExtractor.extract_from_json invoice_world
         (upload_path "7d1c" "mail.d/Scan.PDF");
       DataExtractor._extract_from_text_file invoice_world
         (upload_path "7d1c" "mail.d/Scan.PDF") ].
Proof.
  apply (upload_keeps_extension "7d1c" "mail.d/Scan.PDF" "file" invoice_world).
  - reflexivity.
  - vm_compute. tauto.
Defined.

End MainExtra.
